(** * PandorasAutomation protocol engine: frame codec and connections

    A shallow embedding of the client of the Pandoras Box companion module
    (the file that declares [SequenceConnection] and [PBClient]).

    Conventions of the embedding:
    - a Node [Buffer] is a [list Z] of byte values (0..255);
    - a JavaScript [number] that the code treats as an integer is a [Z];
    - the consumer's handlers ([pollHandlers.onX?.(...)]) and the socket
      ([socket.write]) are not part of the client: every call to one of
      them is recorded, in program order, in a list of [Output]s;
    - a [throw] is the result [Throw] of the small state/error/writer
      monad [M]; [try { } catch] and the detached call [void f()] of an
      async function are the combinators [try_catch] and [void];
    - the handlers are assumed to return normally and not to call back
      into the client while it is handling an event. *)

From Stdlib Require Import ZArith Lia Ascii String DecimalString DecimalZ.
From stdpp Require Import base option list gmap.

Local Open Scope Z_scope.

(** ** Buffers *)

Module Buffer.

Abbreviation t := (list Z).

(** [Buffer.from([a, b, ...])]: every element is stored modulo 256. *)
Definition from (l : list Z) : t := map (fun x => x mod 256) l.

(** [Buffer.from(s, 'ascii')] for a string of char codes below 256. *)
Fixpoint from_ascii (s : string) : t :=
  match s with
  | EmptyString => []
  | String c s' => Z.of_N (N_of_ascii c) :: from_ascii s'
  end.

Definition toSigned (bits : Z) (u : Z) : Z :=
  if u <? 2 ^ (bits - 1) then u else u - 2 ^ bits.

(** [buf.readUInt8(off)]; [None] is the [RangeError] of Node. *)
Definition readUInt8 (data : t) (off : nat) : option Z := data !! off.

Definition readInt16BE (data : t) (off : nat) : option Z :=
  match data !! off, data !! (off + 1)%nat with
  | Some b0, Some b1 => Some (toSigned 16 (b0 * 256 + b1))
  | _, _ => None
  end.

Definition readInt32BE (data : t) (off : nat) : option Z :=
  match data !! off, data !! (off + 1)%nat,
        data !! (off + 2)%nat, data !! (off + 3)%nat with
  | Some b0, Some b1, Some b2, Some b3 =>
      Some (toSigned 32 (b0 * 16777216 + b1 * 65536 + b2 * 256 + b3))
  | _, _, _, _ => None
  end.

Definition readInt32LE (data : t) (off : nat) : option Z :=
  match data !! off, data !! (off + 1)%nat,
        data !! (off + 2)%nat, data !! (off + 3)%nat with
  | Some b0, Some b1, Some b2, Some b3 =>
      Some (toSigned 32 (b3 * 16777216 + b2 * 65536 + b1 * 256 + b0))
  | _, _, _, _ => None
  end.

(** [b = Buffer.alloc(2); b.writeUInt16BE(n)]: Node throws a
    [RangeError] when [n] is outside 0..65535. *)
Definition writeUInt16BE (n : Z) : option t :=
  if (0 <=? n) && (n <=? 65535)
  then Some [n / 256; n mod 256]
  else None.

(** [b = Buffer.alloc(4); b.writeInt32BE(n)]: two's complement, most
    significant byte first; a [RangeError] outside the int32 range. *)
Definition writeInt32BE (n : Z) : option t :=
  if (-2147483648 <=? n) && (n <=? 2147483647)
  then Some [(n / 16777216) mod 256; (n / 65536) mod 256;
             (n / 256) mod 256; n mod 256]
  else None.

(** [String.fromCharCode(b)] for a byte. *)
Definition fromCharCode (b : Z) : ascii := ascii_of_N (Z.to_N b).

(** [buf.toString('ascii', start, end)]: decoding with the 'ascii'
    encoding clears the top bit of every byte first. *)
Definition toString_ascii (data : t) (start stop : nat) : string :=
  string_of_list_ascii
    (map (fun b => fromCharCode (Z.land b 127))
         (take (stop - start) (drop start data))).

Definition is_byte (b : Z) : Prop := 0 <= b < 256.

End Buffer.

(** ** The frame codec (shared, duplicated in both classes) *)

Module Codec.

Definition magic : Buffer.t := Buffer.from_ascii "PBAU".

Definition writeShort (n : Z) : option Buffer.t := Buffer.writeUInt16BE n.
Definition writeInt (n : Z) : option Buffer.t := Buffer.writeInt32BE n.

(** [buildHeader(bodyLen)]: pre-header, domain, length, post-header. *)
Definition buildHeader (domain : Z) (bodyLen : nat) : option Buffer.t :=
  let preHeader := Buffer.from [1] in
  match writeInt domain with
  | None => None
  | Some dom =>
      let length := Buffer.from [Z.of_nat bodyLen / 256;
                                 Z.of_nat bodyLen mod 256] in
      let postHeader := Buffer.from [0; 0; 0; 0; 0] in
      Some (preHeader ++ dom ++ length ++ postHeader)
  end.

(** [checksum(buf)]: [sum = (sum + b) % 256] over the bytes of [buf]. *)
Definition checksum (buf : Buffer.t) : Z :=
  fold_left (fun sum b => (sum + b) mod 256) buf 0.

(** The part of [send] after its guard: the message handed to
    [socket.write], or [None] when building it throws. *)
Definition encode (domain : Z) (commandId : Z) (parts : list Buffer.t)
  : option Buffer.t :=
  match writeShort commandId with
  | None => None
  | Some cmd =>
      let body := cmd ++ concat parts in
      match buildHeader domain (length body) with
      | None => None
      | Some header =>
          let cs := checksum header in
          Some (magic ++ header ++ Buffer.from [cs] ++ body)
      end
  end.

End Codec.

(** ** Data model *)

Inductive TransportState := Play | Pause | Stop | Unknown.

Module SequenceInfo.
Record t := { id : Z; name : string }.
End SequenceInfo.

(** The numeric enum [CommandId] is declared in [constants.js]; its
    values are taken as a parameter of the development. *)
Record CommandIds := {
  SetSeqTransportMode : Z;
  SetSeqSelection : Z;
  MoveSeqToCue : Z;
  MoveSeqToLastNextCue : Z;
  IgnoreNextCue : Z;
  ApplyView : Z;
  SaveProject : Z;
  ToggleFullscreen : Z;
  SetSiteIp : Z;
  ClearAllActive : Z;
  StoreActive : Z;
  StoreActiveToBeginning : Z;
  ResetAll : Z;
  SetSeqSmpteMode : Z;
  GetSeqTransportMode : Z;
  GetSeqTime : Z;
  GetRemainingTimeUntilNextCue : Z;
  GetSequenceIds : Z;
  GetSequenceName : Z
}.

(** Calls that leave the client: socket writes and consumer handlers. *)
Inductive Output :=
| Write (message : Buffer.t)
| OnSequenceTime (seqId h m s f : Z)
| OnNextCueTime (h m s f : Z)
| OnTransport (state : TransportState)
| OnSequenceTransport (seqId : Z) (state : TransportState)
| OnSequencesUpdated (sequences : list SequenceInfo.t)
| OnError
| OnDebug
| Rejected.

(** [SequenceConnection]: the fields its handlers read or write. The
    socket is abstracted to its presence. *)
Module SequenceConnection.

Record t := {
  domain : Z;
  seqId : Z;
  socket : bool;
  connected : bool;
  currentState : TransportState
}.

Definition updateState (state : TransportState) (c : t) : t :=
  {| domain := domain c; seqId := seqId c; socket := socket c;
     connected := connected c; currentState := state |}.

Section Methods.
Variable ids : CommandIds.

(** [send]: nothing is written unless the socket exists and the
    connection is established. [None] is a thrown [RangeError]. *)
Definition send (commandId : Z) (parts : list Buffer.t) (c : t)
  : option (t * list Output) :=
  if negb (socket c) || negb (connected c) then Some (c, [])
  else
    match Codec.encode (domain c) commandId parts with
    | Some message => Some (c, [Write message])
    | None => None
    end.

(** The body of the [try] block of [handleData]. *)
Definition handleData_try (data : Buffer.t) (c : t)
  : option (t * list Output) :=
  if (length data <? 19)%nat then Some (c, [])
  else if negb (String.eqb (Buffer.toString_ascii data 0 4) "PBAU")
  then Some (c, [])
  else
    dom ← Buffer.readInt32BE data 5;
    if negb (dom =? domain c) then Some (c, [])
    else
      cmdId ← Buffer.readInt16BE data 17;
      if (cmdId =? GetSeqTime ids) && (35 <=? length data)%nat then
        h ← Buffer.readInt32BE data 19;
        m ← Buffer.readInt32BE data 23;
        s ← Buffer.readInt32BE data 27;
        f ← Buffer.readInt32BE data 31;
        Some (c, [OnSequenceTime (seqId c) h m s f])
      else Some (c, []).

(** [handleData]: a throw inside the [try] is reported to [onDebug]. *)
Definition handleData (data : Buffer.t) (c : t) : t * list Output :=
  match handleData_try data c with
  | Some r => r
  | None => (c, [OnDebug])
  end.


(** [disconnect()]: the socket is destroyed and forgotten (the poll
    timer, which is not part of this record, is cleared). *)
Definition disconnect (c : t) : t :=
  {| domain := domain c; seqId := seqId c; socket := false;
     connected := false; currentState := currentState c |}.

(** [sendGetTime()]: the sequence ID is encoded before [send] runs. *)
Definition sendGetTime (c : t) : option (t * list Output) :=
  seqIdBuf ← Buffer.writeInt32BE (seqId c);
  send (GetSeqTime ids) [seqIdBuf] c.

(** The callback of the poll timer up to the end of its [try]: [None]
    when it returns at its guard, without scheduling another poll;
    otherwise what the attempt to send leaves in the output. *)
Definition onPollTimer (c : t) : option (list Output) :=
  if negb (connected c) || negb (socket c) then None
  else
    match sendGetTime c with
    | Some (_, out) => Some out
    | None => Some [OnDebug]
    end.


End Methods.

End SequenceConnection.

(** [PBClient]: the socket is abstracted to its presence, the timer to
    the [Tick] event; [host] and [pollHandlers] are not state here. *)
Record PBClient := {
  domain : Z;
  socket : bool;
  connecting : bool;
  pendingSequenceIds : list Z;
  pendingSequenceNames : gmap Z string;
  sequenceNameQueue : list Z;
  currentSequenceNameId : option Z;
  pollSequenceIds : list Z;
  statusRequestQueue : list Z;
  currentStatusRequestId : option Z;
  statusRequestPending : bool;
  sequenceStates : gmap Z TransportState;
  sequenceConnections : gmap Z SequenceConnection.t
}.

Definition set_pendingSequenceIds (v : list Z) (c : PBClient) : PBClient :=
  {| domain := domain c; socket := socket c; connecting := connecting c;
     pendingSequenceIds := v;
     pendingSequenceNames := pendingSequenceNames c;
     sequenceNameQueue := sequenceNameQueue c;
     currentSequenceNameId := currentSequenceNameId c;
     pollSequenceIds := pollSequenceIds c;
     statusRequestQueue := statusRequestQueue c;
     currentStatusRequestId := currentStatusRequestId c;
     statusRequestPending := statusRequestPending c;
     sequenceStates := sequenceStates c;
     sequenceConnections := sequenceConnections c |}.

Definition set_pendingSequenceNames (v : gmap Z string) (c : PBClient) : PBClient :=
  {| domain := domain c; socket := socket c; connecting := connecting c;
     pendingSequenceIds := pendingSequenceIds c;
     pendingSequenceNames := v;
     sequenceNameQueue := sequenceNameQueue c;
     currentSequenceNameId := currentSequenceNameId c;
     pollSequenceIds := pollSequenceIds c;
     statusRequestQueue := statusRequestQueue c;
     currentStatusRequestId := currentStatusRequestId c;
     statusRequestPending := statusRequestPending c;
     sequenceStates := sequenceStates c;
     sequenceConnections := sequenceConnections c |}.

Definition set_sequenceNameQueue (v : list Z) (c : PBClient) : PBClient :=
  {| domain := domain c; socket := socket c; connecting := connecting c;
     pendingSequenceIds := pendingSequenceIds c;
     pendingSequenceNames := pendingSequenceNames c;
     sequenceNameQueue := v;
     currentSequenceNameId := currentSequenceNameId c;
     pollSequenceIds := pollSequenceIds c;
     statusRequestQueue := statusRequestQueue c;
     currentStatusRequestId := currentStatusRequestId c;
     statusRequestPending := statusRequestPending c;
     sequenceStates := sequenceStates c;
     sequenceConnections := sequenceConnections c |}.

Definition set_currentSequenceNameId (v : option Z) (c : PBClient) : PBClient :=
  {| domain := domain c; socket := socket c; connecting := connecting c;
     pendingSequenceIds := pendingSequenceIds c;
     pendingSequenceNames := pendingSequenceNames c;
     sequenceNameQueue := sequenceNameQueue c;
     currentSequenceNameId := v;
     pollSequenceIds := pollSequenceIds c;
     statusRequestQueue := statusRequestQueue c;
     currentStatusRequestId := currentStatusRequestId c;
     statusRequestPending := statusRequestPending c;
     sequenceStates := sequenceStates c;
     sequenceConnections := sequenceConnections c |}.

Definition set_pollSequenceIds (v : list Z) (c : PBClient) : PBClient :=
  {| domain := domain c; socket := socket c; connecting := connecting c;
     pendingSequenceIds := pendingSequenceIds c;
     pendingSequenceNames := pendingSequenceNames c;
     sequenceNameQueue := sequenceNameQueue c;
     currentSequenceNameId := currentSequenceNameId c;
     pollSequenceIds := v;
     statusRequestQueue := statusRequestQueue c;
     currentStatusRequestId := currentStatusRequestId c;
     statusRequestPending := statusRequestPending c;
     sequenceStates := sequenceStates c;
     sequenceConnections := sequenceConnections c |}.

Definition set_statusRequestQueue (v : list Z) (c : PBClient) : PBClient :=
  {| domain := domain c; socket := socket c; connecting := connecting c;
     pendingSequenceIds := pendingSequenceIds c;
     pendingSequenceNames := pendingSequenceNames c;
     sequenceNameQueue := sequenceNameQueue c;
     currentSequenceNameId := currentSequenceNameId c;
     pollSequenceIds := pollSequenceIds c;
     statusRequestQueue := v;
     currentStatusRequestId := currentStatusRequestId c;
     statusRequestPending := statusRequestPending c;
     sequenceStates := sequenceStates c;
     sequenceConnections := sequenceConnections c |}.

Definition set_currentStatusRequestId (v : option Z) (c : PBClient) : PBClient :=
  {| domain := domain c; socket := socket c; connecting := connecting c;
     pendingSequenceIds := pendingSequenceIds c;
     pendingSequenceNames := pendingSequenceNames c;
     sequenceNameQueue := sequenceNameQueue c;
     currentSequenceNameId := currentSequenceNameId c;
     pollSequenceIds := pollSequenceIds c;
     statusRequestQueue := statusRequestQueue c;
     currentStatusRequestId := v;
     statusRequestPending := statusRequestPending c;
     sequenceStates := sequenceStates c;
     sequenceConnections := sequenceConnections c |}.

Definition set_statusRequestPending (v : bool) (c : PBClient) : PBClient :=
  {| domain := domain c; socket := socket c; connecting := connecting c;
     pendingSequenceIds := pendingSequenceIds c;
     pendingSequenceNames := pendingSequenceNames c;
     sequenceNameQueue := sequenceNameQueue c;
     currentSequenceNameId := currentSequenceNameId c;
     pollSequenceIds := pollSequenceIds c;
     statusRequestQueue := statusRequestQueue c;
     currentStatusRequestId := currentStatusRequestId c;
     statusRequestPending := v;
     sequenceStates := sequenceStates c;
     sequenceConnections := sequenceConnections c |}.

Definition set_sequenceStates (v : gmap Z TransportState) (c : PBClient) : PBClient :=
  {| domain := domain c; socket := socket c; connecting := connecting c;
     pendingSequenceIds := pendingSequenceIds c;
     pendingSequenceNames := pendingSequenceNames c;
     sequenceNameQueue := sequenceNameQueue c;
     currentSequenceNameId := currentSequenceNameId c;
     pollSequenceIds := pollSequenceIds c;
     statusRequestQueue := statusRequestQueue c;
     currentStatusRequestId := currentStatusRequestId c;
     statusRequestPending := statusRequestPending c;
     sequenceStates := v;
     sequenceConnections := sequenceConnections c |}.

Definition set_sequenceConnections (v : gmap Z SequenceConnection.t) (c : PBClient) : PBClient :=
  {| domain := domain c; socket := socket c; connecting := connecting c;
     pendingSequenceIds := pendingSequenceIds c;
     pendingSequenceNames := pendingSequenceNames c;
     sequenceNameQueue := sequenceNameQueue c;
     currentSequenceNameId := currentSequenceNameId c;
     pollSequenceIds := pollSequenceIds c;
     statusRequestQueue := statusRequestQueue c;
     currentStatusRequestId := currentStatusRequestId c;
     statusRequestPending := statusRequestPending c;
     sequenceStates := sequenceStates c;
     sequenceConnections := v |}.

Definition set_socket (v : bool) (c : PBClient) : PBClient :=
  {| domain := domain c; socket := v; connecting := connecting c;
     pendingSequenceIds := pendingSequenceIds c;
     pendingSequenceNames := pendingSequenceNames c;
     sequenceNameQueue := sequenceNameQueue c;
     currentSequenceNameId := currentSequenceNameId c;
     pollSequenceIds := pollSequenceIds c;
     statusRequestQueue := statusRequestQueue c;
     currentStatusRequestId := currentStatusRequestId c;
     statusRequestPending := statusRequestPending c;
     sequenceStates := sequenceStates c;
     sequenceConnections := sequenceConnections c |}.

Definition set_connecting (v : bool) (c : PBClient) : PBClient :=
  {| domain := domain c; socket := socket c; connecting := v;
     pendingSequenceIds := pendingSequenceIds c;
     pendingSequenceNames := pendingSequenceNames c;
     sequenceNameQueue := sequenceNameQueue c;
     currentSequenceNameId := currentSequenceNameId c;
     pollSequenceIds := pollSequenceIds c;
     statusRequestQueue := statusRequestQueue c;
     currentStatusRequestId := currentStatusRequestId c;
     statusRequestPending := statusRequestPending c;
     sequenceStates := sequenceStates c;
     sequenceConnections := sequenceConnections c |}.

(** The field initialisers and the constructor of [PBClient]. *)
Definition newPBClient (domain : Z) : PBClient :=
  {| domain := domain; socket := false; connecting := false;
     pendingSequenceIds := []; pendingSequenceNames := ∅;
     sequenceNameQueue := []; currentSequenceNameId := None;
     pollSequenceIds := []; statusRequestQueue := [];
     currentStatusRequestId := None; statusRequestPending := false;
     sequenceStates := ∅; sequenceConnections := ∅ |}.

(** [connect()] up to its [await]: the socket is created. *)
Definition connect (c : PBClient) : PBClient :=
  if socket c then c else set_socket true (set_connecting true c).

(** The callback of [sock.connect]: [connecting] is cleared and
    [startPolling] resets the status pipeline and installs the timer. *)
Definition onConnect (c : PBClient) : PBClient :=
  set_statusRequestQueue [] (set_statusRequestPending false (set_connecting false c)).

(** A client of [domain] whose connection has just been established. *)
Definition connected (domain : Z) : PBClient :=
  onConnect (connect (newPBClient domain)).

(** ** A state, error and output monad for the methods of [PBClient] *)

Inductive Res (A : Type) := Ok (a : A) | Throw.
Arguments Ok {A} a.
Arguments Throw {A}.

Definition M (A : Type) : Type := PBClient -> Res A * PBClient * list Output.

Definition ret {A} (a : A) : M A := fun st => (Ok a, st, []).

Definition bind {A B} (m : M A) (k : A -> M B) : M B :=
  fun st =>
    match m st with
    | (Ok a, st1, o1) =>
        match k a st1 with (r, st2, o2) => (r, st2, o1 ++ o2) end
    | (Throw, st1, o1) => (Throw, st1, o1)
    end.

Notation "x <- m ;; k" := (bind m (fun x => k))
  (at level 100, m at next level, right associativity).
Notation "m ;;; k" := (bind m (fun _ => k))
  (at level 100, right associativity).

Definition get : M PBClient := fun st => (Ok st, st, []).
Definition modify (f : PBClient -> PBClient) : M unit :=
  fun st => (Ok tt, f st, []).
Definition emit (o : Output) : M unit := fun st => (Ok tt, st, [o]).
Definition throw {A} : M A := fun st => (Throw, st, []).

(** A partial primitive: [None] is a thrown [RangeError]. *)
Definition orThrow {A} (o : option A) : M A :=
  match o with Some a => ret a | None => throw end.

(** [try { m } catch (e) { h }]. *)
Definition try_catch (m h : M unit) : M unit :=
  fun st =>
    match m st with
    | (Throw, st1, o1) =>
        match h st1 with (r, st2, o2) => (r, st2, o1 ++ o2) end
    | r => r
    end.

(** [void f()] for an async [f]: the call runs synchronously up to its
    first pending [await]; a throw inside it rejects the discarded
    promise instead of reaching the caller. *)
Definition void (m : M unit) : M unit :=
  fun st =>
    match m st with
    | (Throw, st1, o1) => (Ok tt, st1, o1 ++ [Rejected])
    | r => r
    end.

(** ** The methods of [PBClient] *)

Section Client.

Variable ids : CommandIds.

Definition writeShort (n : Z) : M Buffer.t := orThrow (Codec.writeShort n).
Definition writeInt (n : Z) : M Buffer.t := orThrow (Codec.writeInt n).

(** [send]: a no-op without a socket or while connecting; otherwise
    the message is built and handed to [socket.write]. *)
Definition send (commandId : Z) (parts : list Buffer.t) : M unit :=
  st <- get ;;
  if negb (socket st) || connecting st then ret tt
  else
    message <- orThrow (Codec.encode (domain st) commandId parts) ;;
    emit (Write message).

(** The command operations. The arguments of [send] are evaluated
    before the call, so a [writeInt] that throws does so before [send]
    runs its guard. *)
Inductive Command :=
| setTransport (mode sequenceId : Z)
| selectSequence (sequenceId : Z)
| gotoCue (sequenceId cueId : Z)
| nextOrLastCue (sequenceId : Z) (isNext : bool)
| ignoreNextCue (sequenceId : Z) (doIgnore : bool)
| applyView (viewId : Z)
| saveProject
| toggleFullscreen (siteId : Z)
| setSiteIp (siteId : Z) (ip : string)
| clearAllActive
| storeActive (sequenceId : Z)
| storeActiveToBeginning (sequenceId : Z)
| resetAll
| setSequenceSmpteMode (sequenceId mode : Z).

Definition flag (b : bool) : Buffer.t := Buffer.from [if b then 1 else 0].

Definition command (op : Command) : M unit :=
  match op with
  | setTransport mode sequenceId =>
      a <- writeInt sequenceId ;; b <- writeInt mode ;;
      send (SetSeqTransportMode ids) [a; b]
  | selectSequence sequenceId =>
      a <- writeInt sequenceId ;; send (SetSeqSelection ids) [a]
  | gotoCue sequenceId cueId =>
      a <- writeInt sequenceId ;; b <- writeInt cueId ;;
      send (MoveSeqToCue ids) [a; b]
  | nextOrLastCue sequenceId isNext =>
      a <- writeInt sequenceId ;;
      send (MoveSeqToLastNextCue ids) [a; flag isNext]
  | ignoreNextCue sequenceId doIgnore =>
      a <- writeInt sequenceId ;;
      send (IgnoreNextCue ids) [a; flag doIgnore]
  | applyView viewId =>
      a <- writeInt viewId ;; send (ApplyView ids) [a]
  | saveProject => send (SaveProject ids) []
  | toggleFullscreen siteId =>
      a <- writeInt siteId ;; send (ToggleFullscreen ids) [a]
  | setSiteIp siteId ip =>
      let ipBuf := Buffer.from_ascii ip in
      a <- writeInt siteId ;;
      b <- writeShort (Z.of_nat (length ipBuf)) ;;
      send (SetSiteIp ids) [a; b; ipBuf]
  | clearAllActive => send (ClearAllActive ids) []
  | storeActive sequenceId =>
      a <- writeInt sequenceId ;; send (StoreActive ids) [a]
  | storeActiveToBeginning sequenceId =>
      a <- writeInt sequenceId ;; send (StoreActiveToBeginning ids) [a]
  | resetAll => send (ResetAll ids) []
  | setSequenceSmpteMode sequenceId mode =>
      a <- writeInt sequenceId ;; b <- writeInt mode ;;
      send (SetSeqSmpteMode ids) [a; b]
  end.

Definition refreshSequences : M unit :=
  modify (set_pendingSequenceIds []) ;;;
  modify (set_pendingSequenceNames ∅) ;;;
  modify (set_sequenceNameQueue []) ;;;
  send (GetSequenceIds ids) [].

Definition fetchSequenceName (seqId : Z) : M unit :=
  modify (set_currentSequenceNameId (Some seqId)) ;;;
  a <- writeInt seqId ;;
  send (GetSequenceName ids) [a].

Definition processSequenceNameQueue : M unit :=
  st <- get ;;
  match sequenceNameQueue st with
  | [] => ret tt
  | nextId :: rest =>
      modify (set_sequenceNameQueue rest) ;;;
      fetchSequenceName nextId
  end.

Definition processStatusRequestQueue : M unit :=
  st <- get ;;
  if statusRequestPending st then ret tt
  else
    match statusRequestQueue st with
    | [] => modify (set_currentStatusRequestId None)
    | nextId :: rest =>
        modify (set_statusRequestQueue rest) ;;;
        modify (set_currentStatusRequestId (Some nextId)) ;;;
        modify (set_statusRequestPending true) ;;;
        a <- writeInt nextId ;;
        send (GetSeqTransportMode ids) [a]
    end.

(** One firing of the status timer installed by [startPolling]. *)
Definition statusPollTick : M unit :=
  st <- get ;;
  if (length (statusRequestQueue st) =? 0)%nat
     && (0 <? length (pollSequenceIds st))%nat
  then
    modify (set_statusRequestQueue (pollSequenceIds st)) ;;;
    void processStatusRequestQueue
  else ret tt.

Definition updateSequenceState (seqId : Z) (state : TransportState) : M unit :=
  modify (fun st => set_sequenceStates (<[seqId := state]> (sequenceStates st)) st) ;;;
  st <- get ;;
  match sequenceConnections st !! seqId with
  | Some conn =>
      modify (set_sequenceConnections
                (<[seqId := SequenceConnection.updateState state conn]>
                   (sequenceConnections st)))
  | None => ret tt
  end.

Definition transportOfInt (stateInt : Z) : TransportState :=
  if stateInt =? 1 then Play
  else if stateInt =? 2 then Stop
  else if stateInt =? 3 then Pause
  else Unknown.

(** *** The cases of the [switch] in [handleData] *)

Definition onGetSeqTransportMode (data : Buffer.t) : M unit :=
  modify (set_statusRequestPending false) ;;;
  if (23 <=? length data)%nat then
    stateInt <- orThrow (Buffer.readInt32BE data 19) ;;
    let state := transportOfInt stateInt in
    st <- get ;;
    match currentStatusRequestId st with
    | Some cur =>
        updateSequenceState cur state ;;;
        emit (OnSequenceTransport cur state) ;;;
        void processStatusRequestQueue
    | None => emit (OnTransport state)
    end
  else ret tt.

Definition onGetRemainingTimeUntilNextCue (data : Buffer.t) : M unit :=
  h <- orThrow (Buffer.readInt32BE data 19) ;;
  m <- orThrow (Buffer.readInt32BE data 23) ;;
  s <- orThrow (Buffer.readInt32BE data 27) ;;
  f <- orThrow (Buffer.readInt32BE data 31) ;;
  emit (OnNextCueTime h m s f).

(** [for (let i = 0; i < count && offset + 4 <= data.length; i++)]:
    [n] is the number of iterations still allowed by [count]. *)
Fixpoint readSequenceIds (data : Buffer.t) (n : nat) (offset : nat) : M unit :=
  match n with
  | O => ret tt
  | S n' =>
      if (offset + 4 <=? length data)%nat then
        seqId <- orThrow (Buffer.readInt32LE data offset) ;;
        modify (fun st =>
                  set_pendingSequenceIds (pendingSequenceIds st ++ [seqId]) st) ;;;
        readSequenceIds data n' (offset + 4)%nat
      else ret tt
  end.

Definition onGetSequenceIds (data : Buffer.t) : M unit :=
  count <- orThrow (Buffer.readInt32BE data 19) ;;
  modify (set_pendingSequenceIds []) ;;;
  readSequenceIds data (Z.to_nat count) 27 ;;;
  modify (fun st => set_sequenceNameQueue (pendingSequenceIds st) st) ;;;
  modify (set_pendingSequenceNames ∅) ;;;
  void processSequenceNameQueue.

(** [for (let i = 0; i < strLen && 21 + i < data.length; i++)
      name += String.fromCharCode(data.readUInt8(21 + i))]. *)
Fixpoint readName (data : Buffer.t) (n : nat) (i : nat) (name : string)
  : M string :=
  match n with
  | O => ret name
  | S n' =>
      if (21 + i <? length data)%nat then
        b <- orThrow (Buffer.readUInt8 data (21 + i)) ;;
        readName data n' (S i)
                 (name ++ String (Buffer.fromCharCode b) EmptyString)%string
      else ret name
  end.

(** The template literal [`Sequence ${id}`]. *)
Definition defaultName (id : Z) : string :=
  ("Sequence " ++ NilZero.string_of_int (Z.to_int id))%string.

(** [this.pendingSequenceNames.get(id) || `Sequence ${id}`]: the empty
    string is falsy. *)
Definition sequenceInfo (names : gmap Z string) (id : Z) : SequenceInfo.t :=
  {| SequenceInfo.id := id;
     SequenceInfo.name :=
       match names !! id with
       | Some EmptyString | None => defaultName id
       | Some n => n
       end |}.

Definition onGetSequenceName (data : Buffer.t) : M unit :=
  st <- get ;;
  match currentSequenceNameId st with
  | None => ret tt
  | Some cur =>
      strLen <- orThrow (Buffer.readInt16BE data 19) ;;
      name <- readName data (Z.to_nat strLen) 0 EmptyString ;;
      modify (fun st =>
                set_pendingSequenceNames
                  (<[cur := name]> (pendingSequenceNames st)) st) ;;;
      modify (set_currentSequenceNameId None) ;;;
      st <- get ;;
      if (size (pendingSequenceNames st) =? length (pendingSequenceIds st))%nat
      then
        emit (OnSequencesUpdated
                (map (sequenceInfo (pendingSequenceNames st))
                     (pendingSequenceIds st)))
      else void processSequenceNameQueue
  end.

(** [case 0xFFFF: case -1:] the error reply of the server. *)
Definition onErrorReply : M unit :=
  st <- get ;;
  match currentStatusRequestId st with
  | Some invalidId =>
      modify (fun st =>
                set_pollSequenceIds
                  (filter (fun id => id <> invalidId) (pollSequenceIds st)) st) ;;;
      void processStatusRequestQueue
  | None => ret tt
  end ;;;
  st <- get ;;
  match currentSequenceNameId st with
  | Some invalidId =>
      modify (fun st =>
                set_pendingSequenceIds
                  (filter (fun id => id <> invalidId) (pendingSequenceIds st)) st) ;;;
      modify (set_currentSequenceNameId None) ;;;
      void processSequenceNameQueue
  | None => ret tt
  end.

(** [switch (cmdId)]: the cases are tried in the order of the source. *)
Definition dispatch (cmdId : Z) (data : Buffer.t) : M unit :=
  if cmdId =? GetSeqTransportMode ids then onGetSeqTransportMode data
  else if cmdId =? GetRemainingTimeUntilNextCue ids
  then onGetRemainingTimeUntilNextCue data
  else if cmdId =? GetSequenceIds ids then onGetSequenceIds data
  else if cmdId =? GetSequenceName ids then onGetSequenceName data
  else if (cmdId =? 65535) || (cmdId =? -1) then onErrorReply
  else ret tt.

Definition handleData (data : Buffer.t) : M unit :=
  try_catch
    (if (length data <? 19)%nat then ret tt
     else if negb (String.eqb (Buffer.toString_ascii data 0 4) "PBAU")
     then ret tt
     else
       dom <- orThrow (Buffer.readInt32BE data 5) ;;
       st <- get ;;
       if negb (dom =? domain st) then ret tt
       else
         cmdId <- orThrow (Buffer.readInt16BE data 17) ;;
         dispatch cmdId data)
    (emit OnError).

(** *** Events of a connected client *)

Inductive Event :=
| Tick
| RefreshSequences
| Data (data : Buffer.t).

(** A rejected promise of [refreshSequences] goes to its caller, who is
    outside the client; it is recorded like a detached rejection. *)
Definition handle (e : Event) : M unit :=
  match e with
  | Tick => statusPollTick
  | RefreshSequences => void refreshSequences
  | Data data => handleData data
  end.

Definition step (e : Event) (st : PBClient) : PBClient * list Output :=
  match handle e st with (_, st', out) => (st', out) end.

Fixpoint run (es : list Event) (st : PBClient) : PBClient * list Output :=
  match es with
  | [] => (st, [])
  | e :: es' =>
      match step e st with
      | (st1, o1) =>
          match run es' st1 with (st2, o2) => (st2, o1 ++ o2) end
      end
  end.

End Client.

(** * Properties *)

(** An instance of the [CommandIds] parameter for the worked examples:
    any distinct 15-bit values would do. *)
Definition sampleIds : CommandIds :=
  {| SetSeqTransportMode := 3; SetSeqSelection := 58; MoveSeqToCue := 4;
     MoveSeqToLastNextCue := 7; IgnoreNextCue := 55; ApplyView := 103;
     SaveProject := 62; ToggleFullscreen := 17; SetSiteIp := 71;
     ClearAllActive := 13; StoreActive := 25; StoreActiveToBeginning := 26;
     ResetAll := 9; SetSeqSmpteMode := 41; GetSeqTransportMode := 72;
     GetSeqTime := 73; GetRemainingTimeUntilNextCue := 78;
     GetSequenceIds := 200; GetSequenceName := 201 |}.

(** ** Frame codec *)

(** The plain sum of the bytes of a buffer. *)
Definition sum_bytes (buf : Buffer.t) : Z := fold_right Z.add 0 buf.

(** "The checksum byte follows [n] header bytes and is their sum modulo
    256"; the header starts after the 4 magic bytes. *)
Definition checksum_follows (n : nat) (message : Buffer.t) : Prop :=
  message !! (4 + n)%nat = Some (sum_bytes (take n (drop 4 message)) mod 256).

(** The layout of a message on the wire: magic, pre-header byte, domain,
    body length, reserved bytes, checksum, then the body. *)
Definition frame_layout (dom commandId : Z) (parts : list Buffer.t)
    (message : Buffer.t) : Prop :=
  let bodyLen := Z.of_nat (length message) - 17 in
  exists domBytes,
    Codec.writeInt dom = Some domBytes /\
    take 4 message = Codec.magic /\
    take 12 (drop 4 message)
    = [1] ++ domBytes ++ [(bodyLen / 256) mod 256; bodyLen mod 256]
          ++ [0; 0; 0; 0; 0] /\
    checksum_follows 12 message /\
    drop 17 message = [commandId / 256; commandId mod 256] ++ concat parts.

Lemma checksum_fold (buf : Buffer.t) (a : Z) :
  fold_left (fun sum b => (sum + b) mod 256) buf (a mod 256)
  = (a + sum_bytes buf) mod 256.
Proof.
  revert a. induction buf as [|b buf IH]; intros a; simpl.
  - f_equal. lia.
  - rewrite Zplus_mod_idemp_l, IH. f_equal. lia.
Qed.

Lemma checksum_sum (buf : Buffer.t) :
  Codec.checksum buf = sum_bytes buf mod 256.
Proof.
  unfold Codec.checksum. change 0 with (0 mod 256) at 1.
  rewrite checksum_fold. reflexivity.
Qed.

Lemma checksum_byte (buf : Buffer.t) : Buffer.is_byte (Codec.checksum buf).
Proof.
  rewrite checksum_sum. unfold Buffer.is_byte.
  apply Z.mod_pos_bound. lia.
Qed.

(** The message built by the encoder, byte by byte. *)
Lemma encode_bytes (dom commandId : Z) (parts : list Buffer.t) (message : Buffer.t) :
  Codec.encode dom commandId parts = Some message ->
  exists d0 d1 d2 d3,
    let bodyLen := Z.of_nat (length (concat parts)) + 2 in
    let l0 := (bodyLen / 256) mod 256 in
    let l1 := bodyLen mod 256 in
    Codec.writeInt dom = Some [d0; d1; d2; d3] /\
    0 <= commandId <= 65535 /\
    message = [80; 66; 65; 85; 1; d0; d1; d2; d3; l0; l1; 0; 0; 0; 0; 0;
               Codec.checksum [1; d0; d1; d2; d3; l0; l1; 0; 0; 0; 0; 0];
               commandId / 256; commandId mod 256] ++ concat parts.
Proof.
  unfold Codec.encode, Codec.writeShort, Buffer.writeUInt16BE.
  destruct ((0 <=? commandId) && (commandId <=? 65535)) eqn:Hc; [|discriminate].
  unfold Codec.buildHeader, Codec.writeInt, Buffer.writeInt32BE.
  destruct ((-2147483648 <=? dom) && (dom <=? 2147483647)); [|discriminate].
  intros [= <-].
  eexists _, _, _, _. split; [reflexivity|]. split; [lia|].
  cbn [Buffer.from map app Codec.magic Buffer.from_ascii].
  rewrite (Z.mod_small (Codec.checksum _) 256) by apply checksum_byte.
  rewrite Z.mod_mod by lia.
  cbn [length].
  replace (Z.of_nat (S (S (length (concat parts)))))
    with (Z.of_nat (length (concat parts)) + 2) by lia.
  reflexivity.
Qed.

Lemma encode_frame_layout (dom commandId : Z) (parts : list Buffer.t)
    (message : Buffer.t) :
  Codec.encode dom commandId parts = Some message ->
  frame_layout dom commandId parts message.
Proof.
  intros H. destruct (encode_bytes _ _ _ _ H) as (d0 & d1 & d2 & d3 & Hd & _ & ->).
  exists [d0; d1; d2; d3]. split; [exact Hd|].
  split; [reflexivity|]. split.
  - match goal with |- context [Z.of_nat (length ?m) - 17] =>
      replace (Z.of_nat (length m) - 17)
        with (Z.of_nat (length (concat parts)) + 2)
        by (rewrite length_app; cbn [length]; lia)
    end.
    reflexivity.
  - split; [|reflexivity].
    unfold checksum_follows. cbn [take drop app].
    rewrite <- checksum_sum. reflexivity.
Qed.

(** ** Sending *)

(** [send] in closed form: it never changes the state. *)
Lemma send_eq (commandId : Z) (parts : list Buffer.t) (st : PBClient) :
  send commandId parts st =
  if negb (socket st) || connecting st then (Ok tt, st, [])
  else match Codec.encode (domain st) commandId parts with
       | Some message => (Ok tt, st, [Write message])
       | None => (Throw, st, [])
       end.
Proof.
  unfold send, bind, get, orThrow, ret, throw, emit.
  destruct (negb (socket st) || connecting st); [reflexivity|].
  destruct (Codec.encode _ _ _); reflexivity.
Qed.

Lemma send_closed (commandId : Z) (parts : list Buffer.t) (st : PBClient) :
  socket st = false \/ connecting st = true ->
  send commandId parts st = (Ok tt, st, []).
Proof.
  intros H. rewrite send_eq.
  destruct H as [-> | ->]; [reflexivity|].
  rewrite orb_true_r. reflexivity.
Qed.

(** (C1, as amended) Every message that [send] hands to the socket, on
    the control connection and on a timecode connection alike, has the
    wire layout with a header of 12 bytes (pre-header byte, 4 domain
    bytes, 2 length bytes, 5 reserved bytes) after the 4 magic bytes;
    the byte that follows the header is the sum modulo 256 of exactly
    these 12 bytes, and the body comes right after it. *)
Theorem send_checksum_covers_header :
  (forall (st st' : PBClient) commandId parts r out message,
      send commandId parts st = (r, st', out) ->
      Write message ∈ out ->
      frame_layout (domain st) commandId parts message) /\
  (forall (c c' : SequenceConnection.t) commandId parts out message,
      SequenceConnection.send commandId parts c = Some (c', out) ->
      Write message ∈ out ->
      frame_layout (SequenceConnection.domain c) commandId parts message).
Proof.
  split.
  - intros st st' commandId parts r out message Hsend Hin.
    rewrite send_eq in Hsend.
    destruct (negb (socket st) || connecting st).
    + injection Hsend as _ _ <-. inversion Hin.
    + destruct (Codec.encode (domain st) commandId parts) as [m|] eqn:He.
      * injection Hsend as _ _ <-.
        apply list_elem_of_singleton in Hin. injection Hin as ->.
        apply encode_frame_layout. exact He.
      * injection Hsend as _ _ <-. inversion Hin.
  - intros c c' commandId parts out message Hsend Hin.
    unfold SequenceConnection.send in Hsend.
    destruct (negb (SequenceConnection.socket c)
              || negb (SequenceConnection.connected c)).
    + injection Hsend as _ <-. inversion Hin.
    + destruct (Codec.encode _ commandId parts) as [m|] eqn:He; [|discriminate].
      injection Hsend as _ <-.
      apply list_elem_of_singleton in Hin. injection Hin as ->.
      apply encode_frame_layout. exact He.
Qed.

(** The message of [saveProject] on a connected client of domain 0. *)
Lemma send_checksum_covers_header_witness :
  frame_layout 0 62 []
    [80; 66; 65; 85; 1; 0; 0; 0; 0; 0; 2; 0; 0; 0; 0; 0; 3; 0; 62].
Proof.
  apply (proj1 send_checksum_covers_header (connected 0) (connected 0)
           62 [] (Ok tt)
           [Write [80; 66; 65; 85; 1; 0; 0; 0; 0; 0; 2; 0; 0; 0; 0; 0; 3; 0; 62]]).
  - reflexivity.
  - apply list_elem_of_singleton. reflexivity.
Defined.

(** (C1, as stated) With 11 header bytes the claim fails: in the message
    of [saveProject] on a connected client of domain 0, the byte after
    the first 11 header bytes is a reserved zero, not their sum 3. *)
Lemma checksum_after_11_bytes_fails :
  exists message,
    command sampleIds saveProject (connected 0)
    = (Ok tt, connected 0, [Write message]) /\
    ~ checksum_follows 11 message.
Proof.
  eexists. split; [reflexivity|].
  unfold checksum_follows. vm_compute. discriminate.
Qed.

(** ** Frames of the server, for the worked examples

    The server answers on the same wire layout; the client reads neither
    the length field nor the checksum of what it receives. *)

Definition int32BE (n : Z) : Buffer.t :=
  [(n / 16777216) mod 256; (n / 65536) mod 256; (n / 256) mod 256; n mod 256].

Definition int32LE (n : Z) : Buffer.t :=
  [n mod 256; (n / 256) mod 256; (n / 65536) mod 256; (n / 16777216) mod 256].

Definition int16BE (n : Z) : Buffer.t := [(n / 256) mod 256; n mod 256].

Definition serverFrame (dom commandId : Z) (payload : Buffer.t) : Buffer.t :=
  let header :=
    [1] ++ int32BE dom ++ int16BE (Z.of_nat (length payload) + 2)
        ++ [0; 0; 0; 0; 0] in
  Codec.magic ++ header ++ [Codec.checksum header]
              ++ int16BE commandId ++ payload.

(** The reply to "get sequence IDs": count, an unused field, the IDs. *)
Definition idsReply (dom : Z) (ids : CommandIds) (l : list Z) : Buffer.t :=
  serverFrame dom (GetSequenceIds ids)
    (int32BE (Z.of_nat (length l)) ++ int32BE 0 ++ concat (map int32LE l)).

(** The reply to "get sequence name": length, then the characters. *)
Definition nameReply (dom : Z) (ids : CommandIds) (s : string) : Buffer.t :=
  serverFrame dom (GetSequenceName ids)
    (int16BE (Z.of_nat (length (Buffer.from_ascii s))) ++ Buffer.from_ascii s).

(** The reply to "get sequence transport mode". *)
Definition statusReply (dom : Z) (ids : CommandIds) (stateInt : Z) : Buffer.t :=
  serverFrame dom (GetSeqTransportMode ids) (int32BE stateInt).

(** The error reply: command identifier 0xFFFF. *)
Definition errorReply (dom : Z) : Buffer.t := serverFrame dom 65535 [].

(** ** Sends without a usable socket *)

Definition int32 (n : Z) : bool := (-2147483648 <=? n) && (n <=? 2147483647).

(** The arguments of a command operation can be encoded. *)
Definition command_args_ok (op : Command) : bool :=
  match op with
  | setTransport a b | gotoCue a b | setSequenceSmpteMode a b =>
      int32 a && int32 b
  | selectSequence a | nextOrLastCue a _ | ignoreNextCue a _ | applyView a
  | toggleFullscreen a | storeActive a | storeActiveToBeginning a => int32 a
  | setSiteIp a ip =>
      int32 a && (Z.of_nat (length (Buffer.from_ascii ip)) <=? 65535)
  | saveProject | clearAllActive | resetAll => true
  end.

Lemma writeInt_eq (n : Z) (st : PBClient) :
  writeInt n st =
  if int32 n then (Ok (int32BE n), st, []) else (Throw, st, []).
Proof.
  unfold writeInt, orThrow, Codec.writeInt, Buffer.writeInt32BE, int32.
  destruct (_ && _); reflexivity.
Qed.

Lemma writeShort_eq (n : Z) (st : PBClient) :
  writeShort n st =
  if (0 <=? n) && (n <=? 65535)
  then (Ok [n / 256; n mod 256], st, []) else (Throw, st, []).
Proof.
  unfold writeShort, orThrow, Codec.writeShort, Buffer.writeUInt16BE.
  destruct (_ && _); reflexivity.
Qed.

(** Without a usable socket a command operation leaves the state as it
    is and writes nothing; it throws only when an argument cannot be
    encoded, which happens before [send] is entered. *)
Lemma command_closed (ids : CommandIds) (op : Command) (st : PBClient) :
  socket st = false \/ connecting st = true ->
  command ids op st
  = (if command_args_ok op then Ok tt else Throw, st, []).
Proof.
  intros Hclosed.
  assert (Hlen : forall ip : string,
             (0 <=? Z.of_nat (length (Buffer.from_ascii ip))) = true)
    by (intros ip; apply Z.leb_le; lia).
  destruct op; cbn [command command_args_ok]; unfold bind;
    repeat (first [ rewrite writeInt_eq
                  | rewrite writeShort_eq, Hlen
                  | rewrite send_closed by exact Hclosed
                  | match goal with
                    | |- context [int32 ?a] => destruct (int32 a)
                    | |- context [?a <=? 65535] => destruct (a <=? 65535)
                    end ];
            cbn [andb]; cbv beta iota);
    reflexivity.
Qed.

(** (C8) A send attempted while the socket is absent or while a connect
    is in progress returns normally, writes nothing to the transport and
    leaves the connection state unchanged: for [send] itself, for every
    command operation of the control connection (whose arguments can be
    encoded), and for the [send] of a timecode connection. *)
Theorem send_without_socket_is_noop (ids : CommandIds) :
  (forall (st : PBClient) commandId parts,
      socket st = false \/ connecting st = true ->
      send commandId parts st = (Ok tt, st, [])) /\
  (forall (st : PBClient) (op : Command),
      socket st = false \/ connecting st = true ->
      command_args_ok op = true ->
      command ids op st = (Ok tt, st, [])) /\
  (forall (c : SequenceConnection.t) commandId parts,
      SequenceConnection.socket c = false
      \/ SequenceConnection.connected c = false ->
      SequenceConnection.send commandId parts c = Some (c, [])).
Proof.
  split; [|split].
  - intros st commandId parts H. apply send_closed. exact H.
  - intros st op H Hok. rewrite command_closed by exact H.
    rewrite Hok. reflexivity.
  - intros c commandId parts H. unfold SequenceConnection.send.
    destruct H as [-> | ->]; [reflexivity|].
    rewrite orb_true_r. reflexivity.
Qed.

(** [setTransport(1, 5)] on a client that was never connected, and on
    one whose connect is in progress. *)
Lemma send_without_socket_is_noop_witness :
  command sampleIds (setTransport 1 5) (newPBClient 0)
  = (Ok tt, newPBClient 0, []) /\
  command sampleIds (setTransport 1 5) (connect (newPBClient 0))
  = (Ok tt, connect (newPBClient 0), []) /\
  send 62 [] (newPBClient 0) = (Ok tt, newPBClient 0, []) /\
  SequenceConnection.send 73 [int32BE 5]
    {| SequenceConnection.domain := 0; SequenceConnection.seqId := 5;
       SequenceConnection.socket := true;
       SequenceConnection.connected := false;
       SequenceConnection.currentState := Unknown |}
  = Some ({| SequenceConnection.domain := 0; SequenceConnection.seqId := 5;
             SequenceConnection.socket := true;
             SequenceConnection.connected := false;
             SequenceConnection.currentState := Unknown |}, []).
Proof.
  destruct (send_without_socket_is_noop sampleIds) as (Hsend & Hcmd & Hseq).
  split; [|split; [|split]].
  - apply Hcmd; [left; reflexivity | reflexivity].
  - apply Hcmd; [right; reflexivity | reflexivity].
  - apply Hsend. left. reflexivity.
  - apply Hseq. right. reflexivity.
Defined.

(** ** [refreshSequences] *)

(** "All discovery state is cleared": the ID list, the names, the name
    queue and the cursor of the outstanding name request. *)
Definition discovery_state_cleared (st : PBClient) : Prop :=
  pendingSequenceIds st = [] /\
  pendingSequenceNames st = ∅ /\
  sequenceNameQueue st = [] /\
  currentSequenceNameId st = None.

(** The three assignments of [refreshSequences]. *)
Definition clearDiscoveryLists (st : PBClient) : PBClient :=
  set_sequenceNameQueue [] (set_pendingSequenceNames ∅ (set_pendingSequenceIds [] st)).

Lemma refreshSequences_eq (ids : CommandIds) (st : PBClient) :
  refreshSequences ids st = send (GetSequenceIds ids) [] (clearDiscoveryLists st).
Proof.
  unfold refreshSequences, bind, modify. cbv beta iota.
  destruct (send _ _ _) as [[r st'] out]. reflexivity.
Qed.

(** (C5, as amended) [refreshSequences] empties the accumulated ID list,
    the accumulated names and the name queue, keeps every other field,
    the cursor [currentSequenceNameId] included, and then sends the
    "get sequence IDs" command with an empty payload: with a usable
    socket exactly that one message is written. *)
Theorem refreshSequences_clears_lists (ids : CommandIds) (st : PBClient) :
  exists r out,
    refreshSequences ids st = (r, clearDiscoveryLists st, out) /\
    pendingSequenceIds (clearDiscoveryLists st) = [] /\
    pendingSequenceNames (clearDiscoveryLists st) = ∅ /\
    sequenceNameQueue (clearDiscoveryLists st) = [] /\
    currentSequenceNameId (clearDiscoveryLists st) = currentSequenceNameId st /\
    (forall message,
        socket st = true -> connecting st = false ->
        Codec.encode (domain st) (GetSequenceIds ids) [] = Some message ->
        r = Ok tt /\ out = [Write message] /\
        frame_layout (domain st) (GetSequenceIds ids) [] message).
Proof.
  rewrite refreshSequences_eq, send_eq.
  change (socket (clearDiscoveryLists st)) with (socket st).
  change (connecting (clearDiscoveryLists st)) with (connecting st).
  change (domain (clearDiscoveryLists st)) with (domain st).
  destruct (negb (socket st) || connecting st) eqn:Hg.
  - eexists _, _. split; [reflexivity|]. do 4 (split; [reflexivity|]).
    intros message Hs Hc _. rewrite Hs, Hc in Hg. discriminate.
  - destruct (Codec.encode (domain st) (GetSequenceIds ids) []) as [m|] eqn:He.
    + eexists _, _. split; [reflexivity|]. do 4 (split; [reflexivity|]).
      intros message _ _ [= <-]. split; [reflexivity|]. split; [reflexivity|].
      apply encode_frame_layout. exact He.
    + eexists _, _. split; [reflexivity|]. do 4 (split; [reflexivity|]).
      intros message _ _ [=].
Qed.

(** A refresh on a freshly connected client of domain 0. *)
Lemma refreshSequences_clears_lists_witness :
  exists r out,
    refreshSequences sampleIds (connected 0) = (r, connected 0, out) /\
    r = Ok tt /\
    out = [Write [80; 66; 65; 85; 1; 0; 0; 0; 0; 0; 2; 0; 0; 0; 0; 0; 3; 0; 200]].
Proof.
  destruct (refreshSequences_clears_lists sampleIds (connected 0))
    as (r & out & Hrun & _ & _ & _ & _ & Hsend).
  exists r, out. split; [exact Hrun|].
  destruct (Hsend [80; 66; 65; 85; 1; 0; 0; 0; 0; 0; 2; 0; 0; 0; 0; 0; 3; 0; 200])
    as (Hr & Hout & _); [reflexivity | reflexivity | reflexivity |].
  split; [exact Hr | exact Hout].
Defined.

(** (C5, as stated) The cursor is not cleared: a refresh issued while
    the name of sequence 3 is being fetched leaves
    [currentSequenceNameId] at 3. *)
Lemma refreshSequences_keeps_cursor :
  exists st st' out,
    run sampleIds [RefreshSequences; Data (idsReply 0 sampleIds [3; 7; 2])]
        (connected 0) = (st, out) /\
    refreshSequences sampleIds st
    = (Ok tt, st',
       [Write [80; 66; 65; 85; 1; 0; 0; 0; 0; 0; 2; 0; 0; 0; 0; 0; 3; 0; 200]]) /\
    currentSequenceNameId st' = Some 3 /\
    ~ discovery_state_cleared st'.
Proof.
  eexists _, _, _. split; [vm_compute; reflexivity|].
  split; [vm_compute; reflexivity|].
  split; [reflexivity|].
  intros (_ & _ & _ & H). discriminate H.
Qed.

(** ** Decoding: the guards of [handleData] *)

(** The command identifier of a buffer that passes the three guards of
    [handleData] for a connection of domain [dom]. *)
Definition frameCommand (dom : Z) (data : Buffer.t) : option Z :=
  if (length data <? 19)%nat then None
  else if negb (String.eqb (Buffer.toString_ascii data 0 4) "PBAU") then None
  else
    match Buffer.readInt32BE data 5 with
    | Some d => if negb (d =? dom) then None else Buffer.readInt16BE data 17
    | None => None
    end.

Lemma drop_4 (data : Buffer.t) (off : nat) :
  (off + 4 <= length data)%nat ->
  exists b0 b1 b2 b3,
    drop off data = b0 :: b1 :: b2 :: b3 :: drop (off + 4) data /\
    data !! off = Some b0 /\ data !! (off + 1)%nat = Some b1 /\
    data !! (off + 2)%nat = Some b2 /\ data !! (off + 3)%nat = Some b3.
Proof.
  intros Hlen.
  destruct (lookup_lt_is_Some_2 data off) as [b0 H0]; [lia|].
  destruct (lookup_lt_is_Some_2 data (off + 1)) as [b1 H1]; [lia|].
  destruct (lookup_lt_is_Some_2 data (off + 2)) as [b2 H2]; [lia|].
  destruct (lookup_lt_is_Some_2 data (off + 3)) as [b3 H3]; [lia|].
  exists b0, b1, b2, b3. split; [|auto].
  rewrite (drop_S _ _ _ H0).
  replace (S off) with (off + 1)%nat by lia. rewrite (drop_S _ _ _ H1).
  replace (S (off + 1)) with (off + 2)%nat by lia. rewrite (drop_S _ _ _ H2).
  replace (S (off + 2)) with (off + 3)%nat by lia. rewrite (drop_S _ _ _ H3).
  replace (S (off + 3)) with (off + 4)%nat by lia. reflexivity.
Qed.

Lemma readInt32BE_is_Some (data : Buffer.t) (off : nat) :
  (off + 4 <= length data)%nat -> is_Some (Buffer.readInt32BE data off).
Proof.
  intros H. destruct (drop_4 data off H) as (b0 & b1 & b2 & b3 & _ & H0 & H1 & H2 & H3).
  unfold Buffer.readInt32BE. rewrite H0, H1, H2, H3. eauto.
Qed.

Lemma readInt16BE_is_Some (data : Buffer.t) (off : nat) :
  (off + 2 <= length data)%nat -> is_Some (Buffer.readInt16BE data off).
Proof.
  intros H.
  destruct (lookup_lt_is_Some_2 data off) as [b0 H0]; [lia|].
  destruct (lookup_lt_is_Some_2 data (off + 1)) as [b1 H1]; [lia|].
  unfold Buffer.readInt16BE. rewrite H0, H1. eauto.
Qed.

(** [handleData] is the guards followed by the [switch], inside the
    [try]. With 19 bytes or more the two header reads cannot throw. *)
Lemma handleData_eq (ids : CommandIds) (data : Buffer.t) (st : PBClient) :
  handleData ids data st =
  match frameCommand (domain st) data with
  | Some cmdId => try_catch (dispatch ids cmdId data) (emit OnError) st
  | None => (Ok tt, st, [])
  end.
Proof.
  unfold handleData, frameCommand, try_catch at 1.
  destruct (length data <? 19)%nat eqn:Hlen; [reflexivity|].
  apply Nat.ltb_ge in Hlen.
  destruct (negb _); [reflexivity|].
  destruct (readInt32BE_is_Some data 5) as [d Hd]; [lia|].
  destruct (readInt16BE_is_Some data 17) as [c Hc]; [lia|].
  unfold bind at 1. rewrite Hd. unfold orThrow at 1, ret at 1.
  unfold bind at 1, get at 1.
  destruct (negb (d =? domain st)); [reflexivity|].
  unfold bind at 1. rewrite Hc. unfold orThrow at 1, ret at 1.
  unfold try_catch.
  destruct (dispatch ids c data st) as [[[|] st'] out]; reflexivity.
Qed.

(** ** The two request queues in closed form *)

(** What a detached request for sequence [x] with command [commandId]
    leaves in the output: nothing without a usable socket, the written
    message, or the rejection of the discarded promise. *)
Definition requestOutput (st : PBClient) (commandId x : Z) : list Output :=
  if int32 x then
    if negb (socket st) || connecting st then []
    else match Codec.encode (domain st) commandId [int32BE x] with
         | Some message => [Write message]
         | None => [Rejected]
         end
  else [Rejected].

Definition advanceNameQueue (st : PBClient) : PBClient :=
  match sequenceNameQueue st with
  | [] => st
  | nextId :: rest =>
      set_currentSequenceNameId (Some nextId) (set_sequenceNameQueue rest st)
  end.

Definition advanceStatusQueue (st : PBClient) : PBClient :=
  if statusRequestPending st then st
  else
    match statusRequestQueue st with
    | [] => set_currentStatusRequestId None st
    | nextId :: rest =>
        set_statusRequestPending true
          (set_currentStatusRequestId (Some nextId)
             (set_statusRequestQueue rest st))
    end.

(** The output of a detached [processSequenceNameQueue]. *)
Definition nameRequestOut (ids : CommandIds) (st : PBClient) : list Output :=
  match sequenceNameQueue st with
  | [] => []
  | nextId :: _ => requestOutput st (GetSequenceName ids) nextId
  end.

(** The output of a detached [processStatusRequestQueue]. *)
Definition statusRequestOut (ids : CommandIds) (st : PBClient) : list Output :=
  if statusRequestPending st then []
  else match statusRequestQueue st with
       | [] => []
       | nextId :: _ => requestOutput st (GetSeqTransportMode ids) nextId
       end.

Lemma void_processSequenceNameQueue_eq (ids : CommandIds) (st : PBClient) :
  void (processSequenceNameQueue ids) st =
  (Ok tt, advanceNameQueue st, nameRequestOut ids st).
Proof.
  unfold void, processSequenceNameQueue, fetchSequenceName, advanceNameQueue,
    nameRequestOut, requestOutput.
  unfold bind, get, modify.
  destruct (sequenceNameQueue st) as [|x rest]; [reflexivity|].
  cbv beta iota. rewrite writeInt_eq.
  destruct (int32 x); [|reflexivity].
  rewrite send_eq. cbn [socket connecting domain set_currentSequenceNameId
                        set_sequenceNameQueue].
  destruct (negb (socket st) || connecting st); [reflexivity|].
  destruct (Codec.encode _ _ _); reflexivity.
Qed.

Lemma void_processStatusRequestQueue_eq (ids : CommandIds) (st : PBClient) :
  void (processStatusRequestQueue ids) st =
  (Ok tt, advanceStatusQueue st, statusRequestOut ids st).
Proof.
  unfold void, processStatusRequestQueue, advanceStatusQueue,
    statusRequestOut, requestOutput, bind, get, modify.
  destruct (statusRequestPending st); [reflexivity|].
  destruct (statusRequestQueue st) as [|x rest]; [reflexivity|].
  cbv beta iota. rewrite writeInt_eq.
  destruct (int32 x); [|reflexivity].
  rewrite send_eq. cbn [socket connecting domain set_statusRequestPending
                        set_currentStatusRequestId set_statusRequestQueue].
  destruct (negb (socket st) || connecting st); [reflexivity|].
  destruct (Codec.encode _ _ _); reflexivity.
Qed.

(** ** The reply to "get sequence IDs" *)

(** The complete 4-byte groups of a buffer, in order. *)
Fixpoint chunks4 (l : list Z) : list (Z * Z * Z * Z) :=
  match l with
  | b0 :: b1 :: b2 :: b3 :: rest => (b0, b1, b2, b3) :: chunks4 rest
  | _ => []
  end.

(** A 4-byte group read as a signed integer, least significant byte
    first, and most significant byte first. *)
Definition littleEndian (g : Z * Z * Z * Z) : Z :=
  match g with
  | (b0, b1, b2, b3) =>
      Buffer.toSigned 32 (b3 * 16777216 + b2 * 65536 + b1 * 256 + b0)
  end.

Definition bigEndian (g : Z * Z * Z * Z) : Z :=
  match g with
  | (b0, b1, b2, b3) =>
      Buffer.toSigned 32 (b0 * 16777216 + b1 * 65536 + b2 * 256 + b3)
  end.

(** The ID list as the specification words it, on the payload (the
    bytes from offset 19): a big-endian count, 4 unused bytes, then
    [count] little-endian IDs, fewer when the buffer ends first. *)
Definition decodeSequenceIds (payload : Buffer.t) : option (list Z) :=
  match chunks4 payload with
  | count :: rest =>
      Some (map littleEndian
              (take (Z.to_nat (bigEndian count)) (chunks4 (drop 8 payload))))
  | [] => None
  end.

(** The state once the reply is decoded, before the first name request. *)
Definition seedNameQueue (l : list Z) (st : PBClient) : PBClient :=
  set_pendingSequenceNames ∅
    (set_sequenceNameQueue l (set_pendingSequenceIds l st)).

Lemma chunks4_short (l : list Z) : (length l < 4)%nat -> chunks4 l = [].
Proof.
  destruct l as [|b0 [|b1 [|b2 [|b3 l]]]]; cbn [length chunks4];
    intros; first [reflexivity | lia].
Qed.

Lemma set_pendingSequenceIds_id (st : PBClient) :
  set_pendingSequenceIds (pendingSequenceIds st) st = st.
Proof. destruct st. reflexivity. Qed.

(** The loop of the source appends exactly the little-endian groups. *)
Lemma readSequenceIds_eq (data : Buffer.t) (n off : nat) (st : PBClient) :
  readSequenceIds data n off st =
  (Ok tt,
   set_pendingSequenceIds
     (pendingSequenceIds st
        ++ map littleEndian (take n (chunks4 (drop off data)))) st,
   []).
Proof.
  revert off st. induction n as [|n IH]; intros off st.
  - cbn [readSequenceIds take map]. rewrite app_nil_r, set_pendingSequenceIds_id.
    reflexivity.
  - cbn [readSequenceIds].
    destruct (off + 4 <=? length data)%nat eqn:Hlen.
    + apply Nat.leb_le in Hlen.
      destruct (drop_4 data off Hlen)
        as (b0 & b1 & b2 & b3 & Hdrop & H0 & H1 & H2 & H3).
      unfold bind at 1, orThrow, Buffer.readInt32LE.
      rewrite H0, H1, H2, H3. unfold ret at 1.
      unfold bind at 1, modify at 1. rewrite IH.
      rewrite Hdrop. cbn [chunks4 take map littleEndian pendingSequenceIds
                            set_pendingSequenceIds app].
      rewrite <- app_assoc. reflexivity.
    + apply Nat.leb_gt in Hlen.
      rewrite chunks4_short by (rewrite length_drop; lia).
      rewrite take_nil. cbn [map]. rewrite app_nil_r, set_pendingSequenceIds_id.
      reflexivity.
Qed.

Lemma readInt32BE_chunks4 (data : Buffer.t) (off : nat) :
  Buffer.readInt32BE data off =
  match chunks4 (drop off data) with
  | g :: _ => Some (bigEndian g)
  | [] => None
  end.
Proof.
  destruct (le_lt_dec (off + 4) (length data)) as [Hlen|Hlen].
  - destruct (drop_4 data off Hlen)
      as (b0 & b1 & b2 & b3 & Hdrop & H0 & H1 & H2 & H3).
    unfold Buffer.readInt32BE. rewrite H0, H1, H2, H3, Hdrop. reflexivity.
  - rewrite chunks4_short by (rewrite length_drop; lia).
    unfold Buffer.readInt32BE.
    rewrite (lookup_ge_None_2 data (off + 3)) by lia.
    destruct (data !! off), (data !! (off + 1)%nat), (data !! (off + 2)%nat);
      reflexivity.
Qed.

Lemma onGetSequenceIds_eq (ids : CommandIds) (data : Buffer.t) (st : PBClient) :
  onGetSequenceIds ids data st =
  match decodeSequenceIds (drop 19 data) with
  | Some l => void (processSequenceNameQueue ids) (seedNameQueue l st)
  | None => (Throw, st, [])
  end.
Proof.
  unfold onGetSequenceIds, decodeSequenceIds.
  unfold bind at 1. rewrite readInt32BE_chunks4.
  destruct (chunks4 (drop 19 data)) as [|count rest]; [reflexivity|].
  unfold orThrow, ret. rewrite drop_drop. change (19 + 8)%nat with 27%nat.
  unfold bind at 1, modify at 1.
  unfold bind at 1. rewrite readSequenceIds_eq.
  unfold bind at 1, modify at 1.
  unfold bind at 1, modify at 1.
  rewrite !void_processSequenceNameQueue_eq.
  reflexivity.
Qed.

Lemma dispatch_GetSequenceIds (ids : CommandIds) (data : Buffer.t) :
  GetSequenceIds ids <> GetSeqTransportMode ids ->
  GetSequenceIds ids <> GetRemainingTimeUntilNextCue ids ->
  dispatch ids (GetSequenceIds ids) data = onGetSequenceIds ids data.
Proof.
  intros H1 H2. unfold dispatch.
  apply Z.eqb_neq in H1, H2. rewrite H1, H2, Z.eqb_refl. reflexivity.
Qed.

(** (C6) For a "get sequence IDs" reply that passes the guards and
    holds at least the count, [handleData] reads the count as a
    big-endian integer at the start of the payload, skips the next 4
    bytes and reads [count] little-endian IDs (fewer when the buffer
    ends first); these IDs, in that order, become the expected IDs and
    the name queue, the accumulated names are emptied, and the first
    name request is taken from the queue. *)
Theorem ids_reply_seeds_name_queue (ids : CommandIds) (st : PBClient)
    (data : Buffer.t) (l : list Z) :
  frameCommand (domain st) data = Some (GetSequenceIds ids) ->
  GetSequenceIds ids <> GetSeqTransportMode ids ->
  GetSequenceIds ids <> GetRemainingTimeUntilNextCue ids ->
  decodeSequenceIds (drop 19 data) = Some l ->
  handleData ids data st
  = void (processSequenceNameQueue ids) (seedNameQueue l st) /\
  exists st' out,
    handleData ids data st = (Ok tt, st', out) /\
    pendingSequenceIds st' = l /\
    pendingSequenceNames st' = ∅ /\
    match l with
    | [] => sequenceNameQueue st' = []
            /\ currentSequenceNameId st' = currentSequenceNameId st
    | first :: rest => sequenceNameQueue st' = rest
                       /\ currentSequenceNameId st' = Some first
    end.
Proof.
  intros Hcmd H1 H2 Hl.
  assert (Heq : handleData ids data st
                = void (processSequenceNameQueue ids) (seedNameQueue l st)).
  { rewrite handleData_eq, Hcmd. unfold try_catch.
    rewrite dispatch_GetSequenceIds by assumption.
    rewrite onGetSequenceIds_eq, Hl.
    rewrite void_processSequenceNameQueue_eq. reflexivity. }
  split; [exact Heq|].
  rewrite Heq, void_processSequenceNameQueue_eq.
  eexists _, _. split; [reflexivity|].
  unfold advanceNameQueue, seedNameQueue.
  cbn [sequenceNameQueue set_pendingSequenceNames set_sequenceNameQueue].
  destruct l as [|first rest]; cbn; auto.
Qed.

(** The reply that lists the sequences 3, 7 and 2, on a freshly
    connected client of domain 0. *)
Lemma ids_reply_seeds_name_queue_witness :
  exists st' out,
    handleData sampleIds (idsReply 0 sampleIds [3; 7; 2]) (connected 0)
    = (Ok tt, st', out) /\
    pendingSequenceIds st' = [3; 7; 2] /\
    pendingSequenceNames st' = ∅ /\
    sequenceNameQueue st' = [7; 2] /\
    currentSequenceNameId st' = Some 3.
Proof.
  destruct (ids_reply_seeds_name_queue sampleIds (connected 0)
              (idsReply 0 sampleIds [3; 7; 2]) [3; 7; 2])
    as (_ & st' & out & Hrun & Hids & Hnames & Hq & Hcur).
  - reflexivity.
  - discriminate.
  - discriminate.
  - reflexivity.
  - exists st', out. auto.
Defined.

(** ** The other cases of the [switch] in closed form *)

Definition withSequenceState (seqId : Z) (state : TransportState)
    (st : PBClient) : PBClient :=
  let st1 := set_sequenceStates (<[seqId := state]> (sequenceStates st)) st in
  match sequenceConnections st !! seqId with
  | Some conn =>
      set_sequenceConnections
        (<[seqId := SequenceConnection.updateState state conn]>
           (sequenceConnections st)) st1
  | None => st1
  end.

Lemma updateSequenceState_eq (seqId : Z) (state : TransportState) (st : PBClient) :
  updateSequenceState seqId state st = (Ok tt, withSequenceState seqId state st, []).
Proof.
  unfold updateSequenceState, withSequenceState, bind, modify, get.
  cbn [sequenceConnections set_sequenceStates].
  destruct (sequenceConnections st !! seqId); reflexivity.
Qed.

Lemma onGetSeqTransportMode_eq (ids : CommandIds) (data : Buffer.t) (st : PBClient) :
  onGetSeqTransportMode ids data st =
  let st0 := set_statusRequestPending false st in
  if (23 <=? length data)%nat then
    match Buffer.readInt32BE data 19 with
    | Some stateInt =>
        let state := transportOfInt stateInt in
        match currentStatusRequestId st with
        | Some cur =>
            let st1 := withSequenceState cur state st0 in
            (Ok tt, advanceStatusQueue st1,
             OnSequenceTransport cur state :: statusRequestOut ids st1)
        | None => (Ok tt, st0, [OnTransport state])
        end
    | None => (Throw, st0, [])
    end
  else (Ok tt, st0, []).
Proof.
  unfold onGetSeqTransportMode. unfold bind at 1, modify at 1.
  destruct (23 <=? length data)%nat; [|reflexivity].
  unfold bind at 1. destruct (Buffer.readInt32BE data 19) as [stateInt|];
    [|reflexivity].
  unfold orThrow, ret. unfold bind at 1, get at 1.
  cbn [currentStatusRequestId set_statusRequestPending].
  destruct (currentStatusRequestId st) as [cur|]; [|reflexivity].
  unfold bind at 1. rewrite updateSequenceState_eq.
  unfold bind at 1, emit at 1.
  rewrite void_processStatusRequestQueue_eq. reflexivity.
Qed.

Fixpoint stringOfBytes (l : list Z) : string :=
  match l with
  | [] => EmptyString
  | b :: rest => String (Buffer.fromCharCode b) (stringOfBytes rest)
  end.

Lemma string_app_nil_r (s : string) : (s ++ "")%string = s.
Proof.
  induction s as [|c s IH]; [reflexivity|].
  change (String c (s ++ "")%string = String c s). f_equal. exact IH.
Qed.

Lemma string_app_assoc (s t u : string) :
  ((s ++ t) ++ u)%string = (s ++ (t ++ u))%string.
Proof.
  induction s as [|c s IH]; [reflexivity|].
  change (String c ((s ++ t) ++ u)%string = String c (s ++ (t ++ u))%string).
  f_equal. exact IH.
Qed.

(** The loop of the source appends the characters of at most [n] bytes
    from offset [21 + i]. *)
Lemma readName_eq (data : Buffer.t) (n i : nat) (name : string) (st : PBClient) :
  readName data n i name st =
  (Ok (name ++ stringOfBytes (take n (drop (21 + i) data)))%string, st, []).
Proof.
  revert i name. induction n as [|n IH]; intros i name.
  - cbn [readName take stringOfBytes]. rewrite string_app_nil_r. reflexivity.
  - cbn [readName].
    destruct (21 + i <? length data)%nat eqn:Hlen.
    + apply Nat.ltb_lt in Hlen.
      destruct (lookup_lt_is_Some_2 data (21 + i)) as [b Hb]; [lia|].
      unfold bind, orThrow, Buffer.readUInt8. rewrite Hb. unfold ret at 1.
      rewrite IH, (drop_S _ _ _ Hb).
      cbn [take stringOfBytes]. rewrite string_app_assoc. reflexivity.
    + apply Nat.ltb_ge in Hlen.
      rewrite drop_ge by lia. cbn [take stringOfBytes].
      rewrite string_app_nil_r. reflexivity.
Qed.

(** The state once a name is recorded for the outstanding request. *)
Definition recordName (cur : Z) (name : string) (st : PBClient) : PBClient :=
  set_currentSequenceNameId None
    (set_pendingSequenceNames (<[cur := name]> (pendingSequenceNames st)) st).

Lemma onGetSequenceName_eq (ids : CommandIds) (data : Buffer.t) (st : PBClient) :
  onGetSequenceName ids data st =
  match currentSequenceNameId st with
  | None => (Ok tt, st, [])
  | Some cur =>
      match Buffer.readInt16BE data 19 with
      | None => (Throw, st, [])
      | Some strLen =>
          let name := stringOfBytes (take (Z.to_nat strLen) (drop 21 data)) in
          let st1 := recordName cur name st in
          if (size (pendingSequenceNames st1) =? length (pendingSequenceIds st1))%nat
          then (Ok tt, st1,
                [OnSequencesUpdated
                   (map (sequenceInfo (pendingSequenceNames st1))
                        (pendingSequenceIds st1))])
          else (Ok tt, advanceNameQueue st1, nameRequestOut ids st1)
      end
  end.
Proof.
  unfold onGetSequenceName. unfold bind at 1, get at 1.
  destruct (currentSequenceNameId st) as [cur|]; [|reflexivity].
  unfold bind at 1. destruct (Buffer.readInt16BE data 19) as [strLen|];
    [|reflexivity].
  unfold orThrow, ret. unfold bind at 1. rewrite readName_eq.
  unfold bind at 1, modify at 1. unfold bind at 1, modify at 1.
  unfold bind at 1, get at 1.
  cbn [String.append].
  change (21 + 0)%nat with 21%nat.
  fold (recordName cur (stringOfBytes (take (Z.to_nat strLen) (drop 21 data))) st).
  cbv zeta.
  destruct (size _ =? length _)%nat; [reflexivity|].
  rewrite void_processSequenceNameQueue_eq. reflexivity.
Qed.

(** The two independent halves of the error case. *)
Definition dropInvalidStatus (st : PBClient) : PBClient :=
  match currentStatusRequestId st with
  | Some invalidId =>
      advanceStatusQueue
        (set_pollSequenceIds
           (filter (fun id => id <> invalidId) (pollSequenceIds st)) st)
  | None => st
  end.

Definition dropInvalidName (st : PBClient) : PBClient :=
  match currentSequenceNameId st with
  | Some invalidId =>
      advanceNameQueue
        (set_currentSequenceNameId None
           (set_pendingSequenceIds
              (filter (fun id => id <> invalidId) (pendingSequenceIds st)) st))
  | None => st
  end.

Lemma onErrorReply_eq (ids : CommandIds) (st : PBClient) :
  onErrorReply ids st =
  (Ok tt, dropInvalidName (dropInvalidStatus st),
   match currentStatusRequestId st with
   | Some _ => statusRequestOut ids st
   | None => []
   end
   ++ match currentSequenceNameId st with
      | Some _ => nameRequestOut ids st
      | None => []
      end).
Proof.
  unfold onErrorReply, dropInvalidStatus.
  unfold bind at 1, get at 1. unfold bind at 1.
  assert (Hname : forall st1 : PBClient,
             currentSequenceNameId st1 = currentSequenceNameId st ->
             sequenceNameQueue st1 = sequenceNameQueue st ->
             socket st1 = socket st -> connecting st1 = connecting st ->
             domain st1 = domain st ->
             (st0 <- get ;;
              match currentSequenceNameId st0 with
              | Some invalidId =>
                  modify (fun st2 =>
                            set_pendingSequenceIds
                              (filter (fun id => id <> invalidId)
                                      (pendingSequenceIds st2)) st2) ;;;
                  modify (set_currentSequenceNameId None) ;;;
                  void (processSequenceNameQueue ids)
              | None => ret tt
              end) st1
             = (Ok tt, dropInvalidName st1,
                match currentSequenceNameId st with
                | Some _ => nameRequestOut ids st
                | None => []
                end)).
  { intros st1 H1 H2 H3 H4 H5. unfold dropInvalidName.
    unfold bind at 1, get at 1. rewrite H1.
    destruct (currentSequenceNameId st) as [i|]; [|reflexivity].
    unfold bind at 1, modify at 1. unfold bind at 1, modify at 1.
    rewrite void_processSequenceNameQueue_eq.
    unfold nameRequestOut, requestOutput.
    cbn [sequenceNameQueue socket connecting domain
           set_currentSequenceNameId set_pendingSequenceIds].
    rewrite H2, H3, H4, H5. reflexivity. }
  destruct (currentStatusRequestId st) as [i|].
  - unfold bind at 1, modify at 1.
    rewrite void_processStatusRequestQueue_eq.
    rewrite Hname
      by (unfold advanceStatusQueue;
          cbn [statusRequestPending statusRequestQueue set_pollSequenceIds];
          destruct (statusRequestPending st); [reflexivity|];
          destruct (statusRequestQueue st); reflexivity).
    unfold statusRequestOut, requestOutput.
    cbn [statusRequestPending statusRequestQueue socket connecting domain
           set_pollSequenceIds].
    rewrite app_nil_l. reflexivity.
  - unfold ret at 1. rewrite Hname by reflexivity. reflexivity.
Qed.

Lemma statusPollTick_eq (ids : CommandIds) (st : PBClient) :
  statusPollTick ids st =
  if (length (statusRequestQueue st) =? 0)%nat
     && (0 <? length (pollSequenceIds st))%nat
  then
    let st1 := set_statusRequestQueue (pollSequenceIds st) st in
    (Ok tt, advanceStatusQueue st1, statusRequestOut ids st1)
  else (Ok tt, st, []).
Proof.
  unfold statusPollTick. unfold bind at 1, get at 1.
  destruct (_ && _); [|reflexivity].
  unfold bind at 1, modify at 1.
  rewrite void_processStatusRequestQueue_eq. reflexivity.
Qed.

(** No command identifier of a reply is the error sentinel -1. *)
Definition sentinelFree (ids : CommandIds) : Prop :=
  GetSeqTransportMode ids <> -1 /\
  GetRemainingTimeUntilNextCue ids <> -1 /\
  GetSequenceIds ids <> -1 /\
  GetSequenceName ids <> -1.

Lemma dispatch_error (ids : CommandIds) (data : Buffer.t) :
  sentinelFree ids -> dispatch ids (-1) data = onErrorReply ids.
Proof.
  intros (H1 & H2 & H3 & H4). unfold dispatch.
  destruct (Z.eqb_spec (-1) (GetSeqTransportMode ids)); [congruence|].
  destruct (Z.eqb_spec (-1) (GetRemainingTimeUntilNextCue ids)); [congruence|].
  destruct (Z.eqb_spec (-1) (GetSequenceIds ids)); [congruence|].
  destruct (Z.eqb_spec (-1) (GetSequenceName ids)); [congruence|].
  reflexivity.
Qed.

Lemma handleData_error (ids : CommandIds) (data : Buffer.t) (st : PBClient) :
  sentinelFree ids ->
  frameCommand (domain st) data = Some (-1) ->
  handleData ids data st =
  (Ok tt, dropInvalidName (dropInvalidStatus st),
   match currentStatusRequestId st with
   | Some _ => statusRequestOut ids st
   | None => []
   end
   ++ match currentSequenceNameId st with
      | Some _ => nameRequestOut ids st
      | None => []
      end).
Proof.
  intros Hids Hcmd. rewrite handleData_eq, Hcmd. unfold try_catch.
  rewrite dispatch_error by exact Hids. rewrite onErrorReply_eq. reflexivity.
Qed.

(** ** The error reply and the status pipeline *)

(** (C2) While a status request is outstanding, the error reply removes
    the ID from the watched set but does not advance the status queue:
    [statusRequestPending] is still set when [processStatusRequestQueue]
    is called, so nothing is dequeued and no status request is written
    (the only possible output is the next name request of the discovery
    pipeline); the flag stays set, and the next timer tick writes
    nothing either. *)
Theorem error_reply_keeps_status_queue (ids : CommandIds) (st : PBClient)
    (data : Buffer.t) (invalidId : Z) :
  sentinelFree ids ->
  frameCommand (domain st) data = Some (-1) ->
  statusRequestPending st = true ->
  currentStatusRequestId st = Some invalidId ->
  exists st',
    handleData ids data st
    = (Ok tt, st',
       match currentSequenceNameId st with
       | Some _ => nameRequestOut ids st
       | None => []
       end) /\
    pollSequenceIds st'
    = filter (fun id => id <> invalidId) (pollSequenceIds st) /\
    statusRequestQueue st' = statusRequestQueue st /\
    currentStatusRequestId st' = Some invalidId /\
    statusRequestPending st' = true /\
    snd (step ids Tick st') = [] /\
    statusRequestPending (fst (step ids Tick st')) = true.
Proof.
  intros Hids Hcmd Hpend Hcur.
  rewrite (handleData_error ids data st Hids Hcmd).
  eexists. split.
  { rewrite Hcur. unfold statusRequestOut. rewrite Hpend. reflexivity. }
  assert (Hst : dropInvalidStatus st
                = set_pollSequenceIds
                    (filter (fun id => id <> invalidId) (pollSequenceIds st)) st).
  { unfold dropInvalidStatus, advanceStatusQueue. rewrite Hcur.
    cbn [statusRequestPending set_pollSequenceIds]. rewrite Hpend. reflexivity. }
  rewrite Hst.
  assert (Hfield :
            pollSequenceIds (dropInvalidName (set_pollSequenceIds
              (filter (fun id => id <> invalidId) (pollSequenceIds st)) st))
            = filter (fun id => id <> invalidId) (pollSequenceIds st) /\
            statusRequestQueue (dropInvalidName (set_pollSequenceIds
              (filter (fun id => id <> invalidId) (pollSequenceIds st)) st))
            = statusRequestQueue st /\
            currentStatusRequestId (dropInvalidName (set_pollSequenceIds
              (filter (fun id => id <> invalidId) (pollSequenceIds st)) st))
            = Some invalidId /\
            statusRequestPending (dropInvalidName (set_pollSequenceIds
              (filter (fun id => id <> invalidId) (pollSequenceIds st)) st))
            = true).
  { unfold dropInvalidName, advanceNameQueue.
    cbn [currentSequenceNameId sequenceNameQueue set_pollSequenceIds
           set_currentSequenceNameId set_pendingSequenceIds].
    destruct (currentSequenceNameId st); [destruct (sequenceNameQueue st)|];
      cbn; auto. }
  destruct Hfield as (Hp & Hq & Hc & Hf).
  repeat (split; [assumption|]).
  set (st' := dropInvalidName _) in *.
  unfold step, handle. rewrite statusPollTick_eq.
  destruct (_ && _); [|split; [reflexivity | exact Hf]].
  cbv zeta. unfold statusRequestOut, advanceStatusQueue.
  cbn [statusRequestPending set_statusRequestQueue fst snd].
  rewrite Hf. split; [reflexivity | exact Hf].
Qed.

(** Sequences 7 and 9 are watched; the first tick asks for the state of
    7, the server answers with the error reply. Sequence 7 leaves the
    watched set, but 9 stays in the queue and nothing is written, now or
    at the following ticks. *)
Lemma error_reply_keeps_status_queue_witness :
  exists st0 st' out0,
    step sampleIds Tick (set_pollSequenceIds [7; 9] (connected 0)) = (st0, out0) /\
    statusRequestPending st0 = true /\
    currentStatusRequestId st0 = Some 7 /\
    statusRequestQueue st0 = [9] /\
    handleData sampleIds (errorReply 0) st0 = (Ok tt, st', []) /\
    pollSequenceIds st' = [9] /\
    statusRequestQueue st' = [9] /\
    snd (run sampleIds [Tick; Tick; Tick] st') = [].
Proof.
  eexists _, _, _. split; [vm_compute; reflexivity|].
  split; [reflexivity|]. split; [reflexivity|]. split; [reflexivity|].
  match goal with |- handleData _ _ ?s = _ /\ _ => set (st0 := s) end.
  destruct (error_reply_keeps_status_queue sampleIds st0 (errorReply 0) 7)
    as (st' & Hrun & Hpoll & Hq & _).
  - unfold sentinelFree. cbn. lia.
  - reflexivity.
  - reflexivity.
  - reflexivity.
  - assert (Hst' : st' = set_pollSequenceIds [9] st0).
    { vm_compute in Hrun. injection Hrun as <-. reflexivity. }
    subst st'. split; [vm_compute; reflexivity|].
    split; [vm_compute; reflexivity|].
    split; vm_compute; reflexivity.
Defined.

(** ** The guards of the data handlers *)

(** A buffer that fails a guard is dropped: no handler is called, the
    state is unchanged, nothing is thrown. *)
Lemma handleData_rejected (ids : CommandIds) (data : Buffer.t) (st : PBClient) :
  frameCommand (domain st) data = None ->
  handleData ids data st = (Ok tt, st, []).
Proof. intros H. rewrite handleData_eq, H. reflexivity. Qed.

Lemma frameCommand_short (dom : Z) (data : Buffer.t) :
  (length data < 19)%nat -> frameCommand dom data = None.
Proof.
  intros H. unfold frameCommand.
  apply Nat.ltb_lt in H. rewrite H. reflexivity.
Qed.

Lemma frameCommand_magic (dom : Z) (data : Buffer.t) :
  Buffer.toString_ascii data 0 4 <> "PBAU"%string -> frameCommand dom data = None.
Proof.
  intros H. unfold frameCommand.
  destruct (length data <? 19)%nat; [reflexivity|].
  apply String.eqb_neq in H. rewrite H. reflexivity.
Qed.

Lemma frameCommand_domain (dom d : Z) (data : Buffer.t) :
  Buffer.readInt32BE data 5 = Some d -> d <> dom -> frameCommand dom data = None.
Proof.
  intros Hd Hne. unfold frameCommand.
  destruct (length data <? 19)%nat; [reflexivity|].
  destruct (negb _); [reflexivity|].
  rewrite Hd. apply Z.eqb_neq in Hne. rewrite Hne. reflexivity.
Qed.

(** The same guards on a timecode connection. *)
Lemma SequenceConnection_handleData_rejected (ids : CommandIds)
    (data : Buffer.t) (c : SequenceConnection.t) :
  frameCommand (SequenceConnection.domain c) data = None ->
  SequenceConnection.handleData ids data c = (c, []).
Proof.
  unfold frameCommand, SequenceConnection.handleData,
    SequenceConnection.handleData_try.
  destruct (length data <? 19)%nat eqn:Hlen; [reflexivity|].
  apply Nat.ltb_ge in Hlen.
  destruct (negb (String.eqb _ _)); [reflexivity|].
  destruct (readInt32BE_is_Some data 5) as [d Hd]; [lia|].
  destruct (readInt16BE_is_Some data 17) as [cmd Hc]; [lia|].
  rewrite Hd, Hc. cbn [mbind option_bind].
  destruct (negb (d =? SequenceConnection.domain c)); [reflexivity|].
  discriminate.
Qed.

(** (C7) The magic guard compares the first 4 bytes after clearing
    their top bit: a buffer that starts with 0xD0 0x42 0x41 0x55 is not
    the magic "PBAU" and is handled all the same. On the control
    connection the error reply with that prefix removes the watched
    sequence 7, and a "remaining time" reply with it calls
    [onNextCueTime]; on a timecode connection a time reply with it
    calls [onSequenceTime]. *)
Theorem magic_guard_ignores_top_bit :
  let st := fst (step sampleIds Tick (set_pollSequenceIds [7] (connected 0))) in
  let bad (data : Buffer.t) : Buffer.t := 208 :: drop 1 data in
  let time := int32BE 1 ++ int32BE 2 ++ int32BE 3 ++ int32BE 4 in
  let conn :=
    {| SequenceConnection.domain := 0; SequenceConnection.seqId := 7;
       SequenceConnection.socket := true;
       SequenceConnection.connected := true;
       SequenceConnection.currentState := Unknown |} in
  take 4 (bad (errorReply 0)) <> Codec.magic /\
  pollSequenceIds st = [7] /\
  handleData sampleIds (bad (errorReply 0)) st
  = (Ok tt, set_pollSequenceIds [] st, []) /\
  handleData sampleIds (bad (serverFrame 0 78 time)) (connected 0)
  = (Ok tt, connected 0, [OnNextCueTime 1 2 3 4]) /\
  SequenceConnection.handleData sampleIds (bad (serverFrame 0 73 time)) conn
  = (conn, [OnSequenceTime 7 1 2 3 4]).
Proof.
  cbv zeta. split; [vm_compute; discriminate|].
  split; [vm_compute; reflexivity|].
  split; [vm_compute; reflexivity|].
  split; vm_compute; reflexivity.
Qed.

(** ** Where the completion notification comes from *)

(** An output list without a call of [onSequencesUpdated]. *)
Definition quiet (out : list Output) : Prop :=
  forall sequences, OnSequencesUpdated sequences ∉ out.

Lemma quiet_nil : quiet [].
Proof. intros l H. inversion H. Qed.

Lemma quiet_app (o1 o2 : list Output) : quiet o1 -> quiet o2 -> quiet (o1 ++ o2).
Proof.
  intros H1 H2 l H. apply elem_of_app in H. destruct H; [eapply H1 | eapply H2]; eauto.
Qed.

Lemma quiet_cons (o : Output) (out : list Output) :
  (forall l, o <> OnSequencesUpdated l) -> quiet out -> quiet (o :: out).
Proof.
  intros Ho H l Hin. apply elem_of_cons in Hin. destruct Hin as [Heq|Hin].
  - symmetry in Heq. exact (Ho l Heq).
  - exact (H l Hin).
Qed.

Lemma quiet_requestOutput (st : PBClient) (commandId x : Z) :
  quiet (requestOutput st commandId x).
Proof.
  unfold requestOutput.
  repeat case_match;
    first [apply quiet_nil | apply quiet_cons; [discriminate | apply quiet_nil]].
Qed.

Lemma quiet_statusRequestOut (ids : CommandIds) (st : PBClient) :
  quiet (statusRequestOut ids st).
Proof.
  unfold statusRequestOut.
  repeat case_match; first [apply quiet_nil | apply quiet_requestOutput].
Qed.

Lemma quiet_nameRequestOut (ids : CommandIds) (st : PBClient) :
  quiet (nameRequestOut ids st).
Proof.
  unfold nameRequestOut.
  repeat case_match; first [apply quiet_nil | apply quiet_requestOutput].
Qed.

Create HintDb quiet.
#[local] Hint Resolve quiet_nil quiet_app quiet_requestOutput
  quiet_statusRequestOut quiet_nameRequestOut : quiet.
#[local] Hint Extern 1 (quiet (_ :: _)) =>
  apply quiet_cons; [discriminate|] : quiet.

Lemma quiet_onErrorReply (ids : CommandIds) (st : PBClient) :
  quiet (snd (onErrorReply ids st)).
Proof.
  rewrite onErrorReply_eq. cbn [snd].
  apply quiet_app; case_match; auto with quiet.
Qed.

Lemma quiet_try_catch (m : M unit) (st : PBClient) :
  quiet (snd (m st)) -> quiet (snd (try_catch m (emit OnError) st)).
Proof.
  unfold try_catch, emit. destruct (m st) as [[[|] st1] o1]; cbn [snd]; intros H.
  - exact H.
  - apply quiet_app; auto with quiet.
Qed.

Lemma quiet_onGetSeqTransportMode (ids : CommandIds) (data : Buffer.t) (st : PBClient) :
  quiet (snd (onGetSeqTransportMode ids data st)).
Proof.
  rewrite onGetSeqTransportMode_eq. cbv zeta.
  repeat case_match; cbn [snd]; auto with quiet.
Qed.

Lemma quiet_onGetRemainingTimeUntilNextCue (data : Buffer.t) (st : PBClient) :
  quiet (snd (onGetRemainingTimeUntilNextCue data st)).
Proof.
  unfold onGetRemainingTimeUntilNextCue, bind, orThrow, emit, ret, throw.
  repeat case_match; simplify_eq; cbn [snd app]; auto with quiet.
Qed.

Lemma quiet_onGetSequenceIds (ids : CommandIds) (data : Buffer.t) (st : PBClient) :
  quiet (snd (onGetSequenceIds ids data st)).
Proof.
  rewrite onGetSequenceIds_eq.
  case_match; [rewrite void_processSequenceNameQueue_eq|]; cbn [snd];
    auto with quiet.
Qed.

(** In the [switch] only the name case can notify the completion, and
    only with a name request outstanding. *)
Lemma dispatch_notifies (ids : CommandIds) (cmdId : Z) (data : Buffer.t)
    (st : PBClient) :
  ~ quiet (snd (dispatch ids cmdId data st)) ->
  cmdId = GetSequenceName ids /\ is_Some (currentSequenceNameId st).
Proof.
  unfold dispatch.
  destruct (cmdId =? GetSeqTransportMode ids).
  { intros H. destruct H. apply quiet_onGetSeqTransportMode. }
  destruct (cmdId =? GetRemainingTimeUntilNextCue ids).
  { intros H. destruct H. apply quiet_onGetRemainingTimeUntilNextCue. }
  destruct (cmdId =? GetSequenceIds ids).
  { intros H. destruct H. apply quiet_onGetSequenceIds. }
  destruct (Z.eqb_spec cmdId (GetSequenceName ids)) as [->|_].
  { intros H. split; [reflexivity|].
    destruct (currentSequenceNameId st) eqn:Hcur; [eauto|].
    destruct H. rewrite onGetSequenceName_eq, Hcur. apply quiet_nil. }
  destruct (_ || _).
  { intros H. destruct H. apply quiet_onErrorReply. }
  intros H. destruct H. apply quiet_nil.
Qed.

(** A step that notifies the completion handles a name reply. *)
Lemma step_notifies (ids : CommandIds) (e : Event) (st : PBClient) :
  ~ quiet (snd (step ids e st)) ->
  exists data,
    e = Data data /\
    frameCommand (domain st) data = Some (GetSequenceName ids) /\
    is_Some (currentSequenceNameId st).
Proof.
  intros H. destruct e as [| |data].
  - destruct H. unfold step, handle. rewrite statusPollTick_eq. cbv zeta.
    destruct (_ && _); cbn [snd]; auto with quiet.
  - destruct H. unfold step, handle, void.
    rewrite refreshSequences_eq, send_eq.
    destruct (_ || _); [cbn [snd]; auto with quiet|].
    destruct (Codec.encode _ _ _); cbn [snd app]; auto with quiet.
  - exists data. split; [reflexivity|].
    unfold step, handle in H. rewrite handleData_eq in H.
    destruct (frameCommand (domain st) data) as [cmdId|].
    + destruct (dispatch_notifies ids cmdId data st) as [-> Hcur]; [|auto].
      intros Hq. apply H.
      pose proof (quiet_try_catch (dispatch ids cmdId data) st Hq) as Hq'.
      destruct (try_catch _ _ st) as [[r st'] out]. exact Hq'.
    + destruct H. apply quiet_nil.
Qed.

(** ** One step, case by case *)

Ltac fields :=
  cbn [domain socket connecting pendingSequenceIds pendingSequenceNames
       sequenceNameQueue currentSequenceNameId pollSequenceIds
       statusRequestQueue currentStatusRequestId statusRequestPending
       sequenceStates sequenceConnections
       set_socket set_connecting set_pendingSequenceIds
       set_pendingSequenceNames set_sequenceNameQueue
       set_currentSequenceNameId set_pollSequenceIds set_statusRequestQueue
       set_currentStatusRequestId set_statusRequestPending
       set_sequenceStates set_sequenceConnections fst snd] in *.

Ltac unfold_states :=
  unfold dropInvalidName, dropInvalidStatus, advanceNameQueue,
    advanceStatusQueue, recordName, seedNameQueue, withSequenceState,
    clearDiscoveryLists in *.

(** Splits [step ids e st] into the cases of the event and, for a
    buffer, of the guards and of the [switch], each in closed form. *)
Ltac step_cases ids e st :=
  let c := fresh "cmdId" in
  let Hfc := fresh "Hframe" in
  let data := fresh "data" in
  destruct e as [| |data]; unfold step, handle;
  [ rewrite statusPollTick_eq
  | unfold void; rewrite refreshSequences_eq, send_eq
  | rewrite handleData_eq;
    destruct (frameCommand (domain st) data) as [c|] eqn:Hfc;
    [ unfold try_catch, dispatch;
      destruct (Z.eqb_spec c (GetSeqTransportMode ids));
      [ rewrite onGetSeqTransportMode_eq
      | destruct (Z.eqb_spec c (GetRemainingTimeUntilNextCue ids));
        [ unfold onGetRemainingTimeUntilNextCue, bind, orThrow, emit, ret, throw
        | destruct (Z.eqb_spec c (GetSequenceIds ids));
          [ rewrite onGetSequenceIds_eq, ?void_processSequenceNameQueue_eq
          | destruct (Z.eqb_spec c (GetSequenceName ids));
            [ rewrite onGetSequenceName_eq
            | destruct ((c =? 65535) || (c =? -1)) eqn:?;
              [ rewrite onErrorReply_eq | unfold ret ] ] ] ] ]
    | idtac ] ];
  cbv zeta.

(** The domain of a client never changes. *)
Lemma step_domain (ids : CommandIds) (e : Event) (st : PBClient) :
  domain (fst (step ids e st)) = domain st.
Proof.
  step_cases ids e st; unfold emit; unfold_states;
    repeat case_match; simplify_eq; fields; try reflexivity;
    rewrite ?void_processSequenceNameQueue_eq in *; simplify_eq;
    unfold_states; repeat case_match; reflexivity.
Qed.

(** Whether an output list is [quiet] is decidable. *)
Lemma classic_quiet (out : list Output) : quiet out \/ ~ quiet out.
Proof.
  induction out as [|o out IH].
  - left. apply quiet_nil.
  - destruct IH as [IH|IH].
    + destruct o; try (left; apply quiet_cons; [discriminate | exact IH]).
      right. intros H. eapply H. left.
    + right. intros H. apply IH. intros l Hin. eapply H. right. exact Hin.
Qed.

(** ** A discovery run that ends without notification *)

(** No name request is outstanding and none is queued. *)
Definition discoveryIdle (st : PBClient) : Prop :=
  currentSequenceNameId st = None /\ sequenceNameQueue st = [].

(** The event is a "get sequence IDs" reply for a client of domain
    [dom]: it starts the name phase of a new discovery run. *)
Definition idsReplyEvent (ids : CommandIds) (dom : Z) (e : Event) : Prop :=
  exists data, e = Data data /\ frameCommand dom data = Some (GetSequenceIds ids).

Lemma step_idle (ids : CommandIds) (e : Event) (st : PBClient) :
  discoveryIdle st ->
  ~ idsReplyEvent ids (domain st) e ->
  discoveryIdle (fst (step ids e st)) /\ quiet (snd (step ids e st)).
Proof.
  intros [Hcur Hq] Hne. split.
  - unfold discoveryIdle.
    step_cases ids e st; unfold emit; unfold_states;
      try (subst cmdId; destruct Hne; eexists; split; [reflexivity|eassumption]);
      rewrite ?Hcur, ?Hq;
      repeat case_match; simplify_eq; fields; auto; congruence.
  - destruct (classic_quiet (snd (step ids e st))) as [H|H]; [exact H|].
    apply step_notifies in H. destruct H as (data & _ & _ & [x Hx]).
    congruence.
Qed.

Lemma run_idle (ids : CommandIds) (es : list Event) (st : PBClient) :
  discoveryIdle st ->
  Forall (fun e => ~ idsReplyEvent ids (domain st) e) es ->
  quiet (snd (run ids es st)).
Proof.
  revert st. induction es as [|e es IH]; intros st Hidle Hes.
  - apply quiet_nil.
  - apply Forall_cons in Hes. destruct Hes as [He Hes].
    destruct (step_idle ids e st Hidle He) as [Hidle' Hquiet].
    pose proof (step_domain ids e st) as Hdom.
    cbn [run]. destruct (step ids e st) as [st1 o1]. cbn [fst snd] in *.
    rewrite <- Hdom in Hes. specialize (IH st1 Hidle' Hes).
    destruct (run ids es st1) as [st2 o2]. cbn [snd] in *.
    apply quiet_app; assumption.
Qed.

(** (C9) [onSequencesUpdated] is called only while a name reply is
    handled with a name request outstanding, never by the error case.
    Hence, when the error reply answers the last queued name request,
    the ID is removed from the expected IDs, the recorded names are
    kept (so their count can now equal the number of expected IDs), and
    no notification follows, whatever arrives next, until a new
    "get sequence IDs" reply starts another run. *)
Theorem completion_only_from_name_reply (ids : CommandIds) :
  (forall st, quiet (snd (onErrorReply ids st))) /\
  (forall e st sequences,
      OnSequencesUpdated sequences ∈ snd (step ids e st) ->
      exists data,
        e = Data data /\
        frameCommand (domain st) data = Some (GetSequenceName ids) /\
        is_Some (currentSequenceNameId st)) /\
  (forall st data invalidId es,
      sentinelFree ids ->
      frameCommand (domain st) data = Some (-1) ->
      currentSequenceNameId st = Some invalidId ->
      sequenceNameQueue st = [] ->
      Forall (fun e => ~ idsReplyEvent ids (domain st) e) es ->
      pendingSequenceIds (fst (step ids (Data data) st))
      = filter (fun id => id <> invalidId) (pendingSequenceIds st) /\
      pendingSequenceNames (fst (step ids (Data data) st))
      = pendingSequenceNames st /\
      (size (pendingSequenceNames st)
       = length (filter (fun id => id <> invalidId) (pendingSequenceIds st)) ->
       size (pendingSequenceNames (fst (step ids (Data data) st)))
       = length (pendingSequenceIds (fst (step ids (Data data) st)))) /\
      quiet (snd (run ids (Data data :: es) st))).
Proof.
  split; [|split].
  - intros st. apply quiet_onErrorReply.
  - intros e st l Hin. apply step_notifies. intros Hq. exact (Hq l Hin).
  - intros st data invalidId es Hids Hframe Hcur Hqueue Hes.
    pose proof (step_domain ids (Data data) st) as Hdom.
    assert (Hstep : step ids (Data data) st
                    = (dropInvalidName (dropInvalidStatus st),
                       match currentStatusRequestId st with
                       | Some _ => statusRequestOut ids st
                       | None => []
                       end ++ [])).
    { unfold step, handle. rewrite (handleData_error ids data st Hids Hframe).
      rewrite Hcur. unfold nameRequestOut. rewrite Hqueue. reflexivity. }
    rewrite Hstep in *. cbn [fst] in *.
    assert (Hst : pendingSequenceIds (dropInvalidName (dropInvalidStatus st))
                  = filter (fun id => id <> invalidId) (pendingSequenceIds st) /\
                  pendingSequenceNames (dropInvalidName (dropInvalidStatus st))
                  = pendingSequenceNames st /\
                  discoveryIdle (dropInvalidName (dropInvalidStatus st))).
    { unfold discoveryIdle. unfold_states.
      repeat case_match; simplify_eq; fields; simplify_eq; auto;
        rewrite ?Hcur, ?Hqueue in *; simplify_eq; fields; auto. }
    destruct Hst as (Hp & Hn & Hidle).
    split; [exact Hp|]. split; [exact Hn|].
    split; [rewrite Hp, Hn; auto|].
    cbn [run]. rewrite Hstep.
    rewrite <- Hdom in Hes.
    pose proof (run_idle ids es _ Hidle Hes) as Hrun.
    destruct (run ids es _) as [st2 o2]. cbn [snd] in *.
    apply quiet_app; [|exact Hrun].
    rewrite app_nil_r. case_match; auto with quiet.
Qed.

(** The error reply answers the name request for the last queued ID 2:
    two names are recorded for the two remaining IDs, and nothing is
    notified, not even by a late name reply. *)
Lemma completion_only_from_name_reply_witness :
  let st :=
    fst (run sampleIds
           [RefreshSequences; Data (idsReply 0 sampleIds [3; 7; 2]);
            Data (nameReply 0 sampleIds "Act 1");
            Data (nameReply 0 sampleIds "Act 2")] (connected 0)) in
  let st' := fst (step sampleIds (Data (errorReply 0)) st) in
  currentSequenceNameId st = Some 2 /\
  pendingSequenceIds st' = [3; 7] /\
  size (pendingSequenceNames st') = 2%nat /\
  quiet (snd (run sampleIds
                [Data (errorReply 0); Data (nameReply 0 sampleIds "Act 3"); Tick]
                st)).
Proof.
  cbv zeta.
  match goal with |- currentSequenceNameId ?s = _ /\ _ => set (st := s) end.
  destruct (proj2 (proj2 (completion_only_from_name_reply sampleIds))
              st (errorReply 0) 2
              [Data (nameReply 0 sampleIds "Act 3"); Tick])
    as (Hids & Hnames & _ & Hquiet).
  - unfold sentinelFree. cbn. lia.
  - reflexivity.
  - reflexivity.
  - reflexivity.
  - repeat constructor; intros (data & Heq & Hframe); [|discriminate Heq].
    injection Heq as <-. vm_compute in Hframe. discriminate Hframe.
  - split; [reflexivity|]. split; [rewrite Hids; reflexivity|].
    split; [rewrite Hnames; reflexivity | exact Hquiet].
Defined.

(** ** One buffer, one frame *)

(** The number of payload bytes that the frame at the start of a buffer
    declares, by the layout of its command. *)
Definition payloadSize (ids : CommandIds) (data : Buffer.t) : option nat :=
  cmdId ← Buffer.readInt16BE data 17;
  if cmdId =? GetSeqTransportMode ids then Some 4%nat
  else if cmdId =? GetRemainingTimeUntilNextCue ids then Some 16%nat
  else if cmdId =? GetSequenceIds ids then
    count ← Buffer.readInt32BE data 19;
    Some (8 + 4 * Z.to_nat count)%nat
  else if cmdId =? GetSequenceName ids then
    strLen ← Buffer.readInt16BE data 19;
    Some (2 + Z.to_nat strLen)%nat
  else Some 0%nat.

(** The buffer holds all of its first frame: the 19 header bytes and
    the declared payload. *)
Definition completeFrame (ids : CommandIds) (frame : Buffer.t) : Prop :=
  exists n, payloadSize ids frame = Some n /\ (19 + n <= length frame)%nat.

(** The same for the one reply a timecode connection decodes. *)
Definition completeTimeFrame (ids : CommandIds) (frame : Buffer.t) : Prop :=
  (19 <= length frame)%nat /\
  (Buffer.readInt16BE frame 17 = Some (GetSeqTime ids) ->
   (35 <= length frame)%nat).

(** Calls of a consumer handler, as opposed to socket writes. *)
Definition isCallback (o : Output) : bool :=
  match o with
  | Write _ | Rejected => false
  | _ => true
  end.

Lemma readInt32BE_app (frame rest : Buffer.t) (off : nat) :
  (off + 4 <= length frame)%nat ->
  Buffer.readInt32BE (frame ++ rest) off = Buffer.readInt32BE frame off.
Proof.
  intros H. unfold Buffer.readInt32BE.
  rewrite !lookup_app_l by lia. reflexivity.
Qed.

Lemma readInt16BE_app (frame rest : Buffer.t) (off : nat) :
  (off + 2 <= length frame)%nat ->
  Buffer.readInt16BE (frame ++ rest) off = Buffer.readInt16BE frame off.
Proof.
  intros H. unfold Buffer.readInt16BE.
  rewrite !lookup_app_l by lia. reflexivity.
Qed.

Lemma frameCommand_app (dom : Z) (frame rest : Buffer.t) :
  (19 <= length frame)%nat ->
  frameCommand dom (frame ++ rest) = frameCommand dom frame.
Proof.
  intros H. unfold frameCommand, Buffer.toString_ascii.
  rewrite length_app.
  assert (H1 : (length frame + length rest <? 19)%nat = false)
    by (apply Nat.ltb_ge; lia).
  assert (H2 : (length frame <? 19)%nat = false) by (apply Nat.ltb_ge; lia).
  rewrite H1, H2, !drop_0. change (4 - 0)%nat with 4%nat.
  rewrite take_app_le by lia.
  rewrite readInt32BE_app, readInt16BE_app by lia. reflexivity.
Qed.

Lemma chunks4_app_take (l1 l2 : list Z) (n : nat) :
  (4 * n <= length l1)%nat ->
  take n (chunks4 (l1 ++ l2)) = take n (chunks4 l1).
Proof.
  revert l1. induction n as [|n IH]; intros l1 H; [reflexivity|].
  destruct l1 as [|b0 [|b1 [|b2 [|b3 l1]]]]; cbn [length] in H; try lia.
  cbn [app chunks4 take]. f_equal. apply IH. lia.
Qed.

Lemma decodeSequenceIds_app (ids : CommandIds) (frame rest : Buffer.t) (count : Z) :
  Buffer.readInt32BE frame 19 = Some count ->
  (19 + (8 + 4 * Z.to_nat count) <= length frame)%nat ->
  decodeSequenceIds (drop 19 (frame ++ rest)) = decodeSequenceIds (drop 19 frame).
Proof.
  intros Hcount Hlen. unfold decodeSequenceIds.
  assert (Hc : Buffer.readInt32BE (frame ++ rest) 19 = Some count)
    by (rewrite readInt32BE_app by lia; exact Hcount).
  rewrite readInt32BE_chunks4 in Hcount, Hc.
  destruct (chunks4 (drop 19 frame)) as [|g gs]; [discriminate|].
  destruct (chunks4 (drop 19 (frame ++ rest))) as [|g' gs']; [discriminate|].
  injection Hcount as Hg. injection Hc as Hg'. rewrite Hg, Hg'.
  rewrite !drop_drop. rewrite drop_app_le by lia.
  rewrite chunks4_app_take by (rewrite length_drop; lia). reflexivity.
Qed.

Lemma frameCommand_read (dom : Z) (data : Buffer.t) (cmdId : Z) :
  frameCommand dom data = Some cmdId ->
  (19 <= length data)%nat /\ Buffer.readInt16BE data 17 = Some cmdId.
Proof.
  unfold frameCommand.
  destruct (length data <? 19)%nat eqn:Hlen; [discriminate|].
  apply Nat.ltb_ge in Hlen.
  destruct (negb (String.eqb _ _)); [discriminate|].
  destruct (Buffer.readInt32BE data 5) as [d|]; [|discriminate].
  destruct (negb (d =? dom)); [discriminate|]. auto.
Qed.

(** Bytes after a complete first frame do not reach the [switch]. *)
Lemma dispatch_app (ids : CommandIds) (cmdId : Z) (frame rest : Buffer.t)
    (st : PBClient) :
  Buffer.readInt16BE frame 17 = Some cmdId ->
  completeFrame ids frame ->
  dispatch ids cmdId (frame ++ rest) st = dispatch ids cmdId frame st.
Proof.
  intros Hcmd (n & Hsize & Hlen).
  unfold payloadSize in Hsize. rewrite Hcmd in Hsize. cbn [mbind option_bind] in Hsize.
  unfold dispatch.
  destruct (cmdId =? GetSeqTransportMode ids).
  { injection Hsize as <-. rewrite !onGetSeqTransportMode_eq.
    rewrite readInt32BE_app by lia. rewrite length_app.
    assert (H1 : (23 <=? length frame + length rest)%nat = true)
      by (apply Nat.leb_le; lia).
    assert (H2 : (23 <=? length frame)%nat = true) by (apply Nat.leb_le; lia).
    rewrite H1, H2. reflexivity. }
  destruct (cmdId =? GetRemainingTimeUntilNextCue ids).
  { injection Hsize as <-. unfold onGetRemainingTimeUntilNextCue.
    rewrite !readInt32BE_app by lia. reflexivity. }
  destruct (cmdId =? GetSequenceIds ids).
  { destruct (Buffer.readInt32BE frame 19) as [count|] eqn:Hcount;
      [|discriminate].
    injection Hsize as <-. rewrite !onGetSequenceIds_eq.
    rewrite (decodeSequenceIds_app ids frame rest count Hcount Hlen).
    reflexivity. }
  destruct (cmdId =? GetSequenceName ids).
  { destruct (Buffer.readInt16BE frame 19) as [strLen|] eqn:Hstr;
      [|discriminate].
    injection Hsize as <-. rewrite !onGetSequenceName_eq.
    rewrite readInt16BE_app by lia. rewrite Hstr.
    rewrite drop_app_le by lia.
    rewrite take_app_le by (rewrite length_drop; lia). reflexivity. }
  reflexivity.
Qed.

Definition callbacks (out : list Output) : list Output :=
  List.filter isCallback out.

Lemma callbacks_nil : callbacks [] = [].
Proof. reflexivity. Qed.

Lemma callbacks_cons (o : Output) (out : list Output) :
  callbacks (o :: out) = if isCallback o then o :: callbacks out else callbacks out.
Proof. reflexivity. Qed.

Lemma callbacks_app (o1 o2 : list Output) :
  callbacks (o1 ++ o2) = callbacks o1 ++ callbacks o2.
Proof. apply List.filter_app. Qed.

Lemma callbacks_requestOutput (st : PBClient) (commandId x : Z) :
  callbacks (requestOutput st commandId x) = [].
Proof. unfold requestOutput. repeat case_match; reflexivity. Qed.

Lemma callbacks_statusRequestOut (ids : CommandIds) (st : PBClient) :
  callbacks (statusRequestOut ids st) = [].
Proof.
  unfold statusRequestOut.
  repeat case_match; first [reflexivity | apply callbacks_requestOutput].
Qed.

Lemma callbacks_nameRequestOut (ids : CommandIds) (st : PBClient) :
  callbacks (nameRequestOut ids st) = [].
Proof.
  unfold nameRequestOut.
  repeat case_match; first [reflexivity | apply callbacks_requestOutput].
Qed.

(** One invocation of the handler calls at most one consumer handler. *)
Lemma handleData_one_callback (ids : CommandIds) (data : Buffer.t) (st : PBClient) :
  (length (callbacks (snd (handleData ids data st))) <= 1)%nat.
Proof.
  assert (H : (length (callbacks (snd (step ids (Data data) st))) <= 1)%nat).
  { set (e := Data data).
    step_cases ids e st; try discriminate; unfold emit;
      repeat case_match; simplify_eq;
      rewrite ?void_processSequenceNameQueue_eq in *; simplify_eq; cbn [snd];
      repeat first [ rewrite callbacks_app | rewrite callbacks_cons
                   | rewrite callbacks_nil | rewrite callbacks_statusRequestOut
                   | rewrite callbacks_nameRequestOut ];
      cbn [isCallback length app]; lia. }
  unfold step, handle in H. destruct (handleData ids data st) as [[r st'] out].
  exact H.
Qed.

Lemma SequenceConnection_handleData_app (ids : CommandIds)
    (frame rest : Buffer.t) (c : SequenceConnection.t) :
  completeTimeFrame ids frame ->
  SequenceConnection.handleData ids (frame ++ rest) c
  = SequenceConnection.handleData ids frame c.
Proof.
  intros [Hlen Htime].
  unfold SequenceConnection.handleData, SequenceConnection.handleData_try,
    Buffer.toString_ascii.
  rewrite length_app.
  assert (H1 : (length frame + length rest <? 19)%nat = false)
    by (apply Nat.ltb_ge; lia).
  assert (H2 : (length frame <? 19)%nat = false) by (apply Nat.ltb_ge; lia).
  rewrite H1, H2, !drop_0. change (4 - 0)%nat with 4%nat.
  rewrite take_app_le by lia.
  destruct (negb (String.eqb _ _)); [reflexivity|].
  rewrite (readInt32BE_app frame rest 5), (readInt16BE_app frame rest 17) by lia.
  destruct (Buffer.readInt32BE frame 5) as [d|]; [|reflexivity].
  cbn [mbind option_bind].
  destruct (negb (d =? SequenceConnection.domain c)); [reflexivity|].
  destruct (Buffer.readInt16BE frame 17) as [cmdId|]; [|reflexivity].
  cbn [mbind option_bind].
  destruct (Z.eqb_spec cmdId (GetSeqTime ids)) as [->|]; [|reflexivity].
  specialize (Htime eq_refl).
  assert (H3 : (35 <=? length frame + length rest)%nat = true)
    by (apply Nat.leb_le; lia).
  assert (H4 : (35 <=? length frame)%nat = true) by (apply Nat.leb_le; lia).
  rewrite H3, H4. cbn [andb].
  rewrite !readInt32BE_app by lia. reflexivity.
Qed.

Lemma handleData_app (ids : CommandIds) (frame rest : Buffer.t) (st : PBClient) :
  completeFrame ids frame ->
  handleData ids (frame ++ rest) st = handleData ids frame st.
Proof.
  intros Hcomplete.
  assert (Hlen : (19 <= length frame)%nat)
    by (destruct Hcomplete as (n & _ & H); lia).
  rewrite !handleData_eq, frameCommand_app by exact Hlen.
  destruct (frameCommand (domain st) frame) as [cmdId|] eqn:Hframe;
    [|reflexivity].
  apply frameCommand_read in Hframe. destruct Hframe as [_ Hcmd].
  unfold try_catch. rewrite (dispatch_app ids cmdId frame rest st Hcmd Hcomplete).
  reflexivity.
Qed.

(** (C10) One invocation of a data handler decodes at most the frame at
    the start of the buffer: the command identifier is the 16-bit read
    at offset 17; when that first frame is complete, whatever follows
    it in the same buffer changes nothing (a second frame is ignored);
    at most one consumer handler is called per invocation; a chunk of
    fewer than 19 bytes is dropped without a trace in the state, so no
    bytes are kept for the next invocation; and a frame that follows
    bytes which fail the guards at offset 0 is dropped with them. *)
Theorem handler_decodes_one_frame (ids : CommandIds) :
  (forall data st cmdId,
      frameCommand (domain st) data = Some cmdId ->
      Buffer.readInt16BE data 17 = Some cmdId /\
      handleData ids data st
      = try_catch (dispatch ids cmdId data) (emit OnError) st) /\
  (forall frame rest st,
      completeFrame ids frame ->
      handleData ids (frame ++ rest) st = handleData ids frame st) /\
  (forall frame rest c,
      completeTimeFrame ids frame ->
      SequenceConnection.handleData ids (frame ++ rest) c
      = SequenceConnection.handleData ids frame c) /\
  (forall data st,
      (length (callbacks (snd (handleData ids data st))) <= 1)%nat) /\
  (forall chunk st c,
      (length chunk < 19)%nat ->
      handleData ids chunk st = (Ok tt, st, []) /\
      SequenceConnection.handleData ids chunk c = (c, [])) /\
  (forall junk frame st,
      frameCommand (domain st) (junk ++ frame) = None ->
      handleData ids (junk ++ frame) st = (Ok tt, st, [])) /\
  (forall junk frame c,
      frameCommand (SequenceConnection.domain c) (junk ++ frame) = None ->
      SequenceConnection.handleData ids (junk ++ frame) c = (c, [])).
Proof.
  split; [|split; [|split; [|split; [|split; [|split]]]]].
  - intros data st cmdId Hframe. split.
    + apply (frameCommand_read _ _ _ Hframe).
    + rewrite handleData_eq, Hframe. reflexivity.
  - intros frame rest st H. apply handleData_app. exact H.
  - intros frame rest c H. apply SequenceConnection_handleData_app. exact H.
  - intros data st. apply handleData_one_callback.
  - intros chunk st c H. split.
    + apply handleData_rejected, frameCommand_short. exact H.
    + apply SequenceConnection_handleData_rejected, frameCommand_short. exact H.
  - intros junk frame st H. apply handleData_rejected. exact H.
  - intros junk frame c H. apply SequenceConnection_handleData_rejected. exact H.
Qed.

(** A status reply and a name reply arrive in one buffer while the state
    of sequence 7 and the name of sequence 3 are awaited: only the
    status reply is handled. The same buffer cut after 10 bytes: the
    first chunk is dropped. The status reply after one stray byte: it
    is dropped. *)
Lemma handler_decodes_one_frame_witness :
  let st :=
    fst (run sampleIds
           [Tick; RefreshSequences; Data (idsReply 0 sampleIds [3])]
           (set_pollSequenceIds [7] (connected 0))) in
  let frame := statusReply 0 sampleIds 1 in
  let rest := nameReply 0 sampleIds "Act 1" in
  handleData sampleIds (frame ++ rest) st = handleData sampleIds frame st /\
  callbacks (snd (handleData sampleIds (frame ++ rest) st))
  = [OnSequenceTransport 7 Play] /\
  handleData sampleIds (take 10 (frame ++ rest)) st = (Ok tt, st, []) /\
  handleData sampleIds ([0] ++ frame) st = (Ok tt, st, []).
Proof.
  cbv zeta.
  destruct (handler_decodes_one_frame sampleIds)
    as (_ & Happ & _ & _ & Hshort & Hjunk & _).
  split; [|split; [|split]].
  - apply Happ. exists 4%nat. split; [reflexivity|]. cbn. lia.
  - vm_compute. reflexivity.
  - apply (Hshort _ _
             {| SequenceConnection.domain := 0; SequenceConnection.seqId := 7;
                SequenceConnection.socket := true;
                SequenceConnection.connected := true;
                SequenceConnection.currentState := Unknown |}).
    cbn. lia.
  - apply Hjunk. reflexivity.
Defined.

(** ** Frames on the wire: what the client writes, what it accepts *)

(** The command identifiers of the four replies are distinct 15-bit
    numbers, as the values of an enum read back with [readInt16BE]
    have to be. *)
Definition replyIdsOk (ids : CommandIds) : Prop :=
  0 <= GetSeqTransportMode ids <= 32767 /\
  0 <= GetRemainingTimeUntilNextCue ids <= 32767 /\
  0 <= GetSequenceIds ids <= 32767 /\
  0 <= GetSequenceName ids <= 32767 /\
  GetSeqTransportMode ids <> GetRemainingTimeUntilNextCue ids /\
  GetSeqTransportMode ids <> GetSequenceIds ids /\
  GetSeqTransportMode ids <> GetSequenceName ids /\
  GetRemainingTimeUntilNextCue ids <> GetSequenceIds ids /\
  GetRemainingTimeUntilNextCue ids <> GetSequenceName ids /\
  GetSequenceIds ids <> GetSequenceName ids.

Lemma replyIdsOk_sentinelFree (ids : CommandIds) :
  replyIdsOk ids -> sentinelFree ids.
Proof. unfold replyIdsOk, sentinelFree. lia. Qed.

Lemma int32_range (n : Z) : int32 n = true <-> -2147483648 <= n <= 2147483647.
Proof. unfold int32. lia. Qed.

(** Reading back the 4 bytes of [writeInt32BE]. *)
Lemma bigEndian_int32BE (n : Z) :
  int32 n = true ->
  Buffer.toSigned 32
    ((n / 16777216) mod 256 * 16777216 + (n / 65536) mod 256 * 65536
     + (n / 256) mod 256 * 256 + n mod 256) = n.
Proof.
  intros H. apply int32_range in H.
  change 16777216 with (256 * (256 * 256)). change 65536 with (256 * 256).
  rewrite <- !Z.div_div by lia.
  pose proof (Z.div_mod n 256 ltac:(lia)) as E0.
  pose proof (Z.div_mod (n / 256) 256 ltac:(lia)) as E1.
  pose proof (Z.div_mod (n / 256 / 256) 256 ltac:(lia)) as E2.
  pose proof (Z.div_mod (n / 256 / 256 / 256) 256 ltac:(lia)) as E3.
  pose proof (Z.mod_pos_bound n 256 ltac:(lia)) as B0.
  pose proof (Z.mod_pos_bound (n / 256) 256 ltac:(lia)) as B1.
  pose proof (Z.mod_pos_bound (n / 256 / 256) 256 ltac:(lia)) as B2.
  pose proof (Z.mod_pos_bound (n / 256 / 256 / 256) 256 ltac:(lia)) as B3.
  unfold Buffer.toSigned.
  change (2 ^ (32 - 1)) with 2147483648. change (2 ^ 32) with 4294967296.
  destruct (Z.ltb_spec
              ((n / 256 / 256 / 256) mod 256 * (256 * (256 * 256))
               + (n / 256 / 256) mod 256 * (256 * 256)
               + (n / 256) mod 256 * 256 + n mod 256) 2147483648); lia.
Qed.

(** Reading back the 2 bytes of a command identifier. *)
Lemma readInt16BE_int16BE (n : Z) :
  0 <= n <= 65535 ->
  Buffer.toSigned 16 ((n / 256) mod 256 * 256 + n mod 256)
  = if n <? 32768 then n else n - 65536.
Proof.
  intros H.
  pose proof (Z.div_mod n 256 ltac:(lia)) as E0.
  pose proof (Z.mod_pos_bound n 256 ltac:(lia)) as B0.
  assert (0 <= n / 256 < 256) as B1
    by (split; [apply Z.div_pos; lia | apply Z.div_lt_upper_bound; lia]).
  rewrite (Z.mod_small (n / 256) 256) by lia.
  unfold Buffer.toSigned.
  change (2 ^ (16 - 1)) with 32768. change (2 ^ 16) with 65536.
  replace (n / 256 * 256 + n mod 256) with n by lia. reflexivity.
Qed.

(** A frame of the server passes the guards of a client of its domain. *)
Lemma frameCommand_serverFrame (dom commandId : Z) (payload : Buffer.t) :
  int32 dom = true ->
  0 <= commandId <= 65535 ->
  frameCommand dom (serverFrame dom commandId payload)
  = Some (if commandId <? 32768 then commandId else commandId - 65536).
Proof.
  intros Hdom Hcmd. unfold frameCommand, serverFrame, int32BE, int16BE.
  cbn [app Codec.magic Buffer.from_ascii length Nat.ltb Nat.leb].
  change (Buffer.toString_ascii _ 0 4) with "PBAU"%string.
  cbn [String.eqb Ascii.eqb Bool.eqb negb].
  unfold Buffer.readInt32BE, Buffer.readInt16BE.
  cbn [lookup list_lookup Nat.add].
  rewrite (bigEndian_int32BE dom Hdom), Z.eqb_refl. cbn [negb].
  rewrite (readInt16BE_int16BE commandId Hcmd). reflexivity.
Qed.

(** What [send] writes is a frame in the layout the server uses. *)
Lemma encode_serverFrame (dom commandId : Z) (parts : list Buffer.t) :
  int32 dom = true ->
  0 <= commandId <= 65535 ->
  Codec.encode dom commandId parts
  = Some (serverFrame dom commandId (concat parts)).
Proof.
  intros Hdom Hcmd.
  unfold Codec.encode, Codec.writeShort, Buffer.writeUInt16BE.
  assert (H1 : (0 <=? commandId) && (commandId <=? 65535) = true) by lia.
  rewrite H1.
  unfold Codec.buildHeader, Codec.writeInt, Buffer.writeInt32BE.
  fold (int32 dom). rewrite Hdom.
  unfold serverFrame, int32BE, int16BE. f_equal.
  cbn [Buffer.from map app length].
  rewrite (Z.mod_small (Codec.checksum _) 256) by apply checksum_byte.
  rewrite !Z.mod_mod by lia.
  assert (0 <= commandId / 256 < 256) as B1
    by (split; [apply Z.div_pos; lia | apply Z.div_lt_upper_bound; lia]).
  rewrite (Z.mod_small (commandId / 256) 256) by lia.
  replace (Z.of_nat (S (S (length (concat parts)))))
    with (Z.of_nat (length (concat parts)) + 2) by lia.
  reflexivity.
Qed.

(** ** The discovery pipeline on a connected client *)

(** The socket is usable and the domain can be encoded. *)
Definition openClient (st : PBClient) : Prop :=
  socket st = true /\ connecting st = false /\ int32 (domain st) = true.

Lemma requestOutput_open (st : PBClient) (commandId x : Z) :
  openClient st -> 0 <= commandId <= 65535 ->
  requestOutput st commandId x =
  if int32 x then [Write (serverFrame (domain st) commandId (int32BE x))]
  else [Rejected].
Proof.
  intros (Hs & Hc & Hd) Hcmd. unfold requestOutput.
  destruct (int32 x); [|reflexivity].
  rewrite Hs, Hc. cbn [negb orb].
  rewrite encode_serverFrame by assumption.
  cbn [concat]. rewrite app_nil_r. reflexivity.
Qed.

Lemma step_refresh_open (ids : CommandIds) (st : PBClient) :
  openClient st -> 0 <= GetSequenceIds ids <= 65535 ->
  step ids RefreshSequences st
  = (clearDiscoveryLists st,
     [Write (serverFrame (domain st) (GetSequenceIds ids) [])]).
Proof.
  intros (Hs & Hc & Hd) Hcmd. unfold step, handle, void.
  rewrite refreshSequences_eq, send_eq.
  change (socket (clearDiscoveryLists st)) with (socket st).
  change (connecting (clearDiscoveryLists st)) with (connecting st).
  change (domain (clearDiscoveryLists st)) with (domain st).
  rewrite Hs, Hc. cbn [negb orb].
  rewrite encode_serverFrame by assumption. reflexivity.
Qed.

Lemma step_idsReply (ids : CommandIds) (st : PBClient) (data : Buffer.t)
    (l : list Z) :
  replyIdsOk ids ->
  frameCommand (domain st) data = Some (GetSequenceIds ids) ->
  decodeSequenceIds (drop 19 data) = Some l ->
  step ids (Data data) st
  = (advanceNameQueue (seedNameQueue l st),
     nameRequestOut ids (seedNameQueue l st)).
Proof.
  intros Hids Hframe Hl. unfold step, handle.
  rewrite handleData_eq, Hframe. unfold try_catch.
  rewrite dispatch_GetSequenceIds by (unfold replyIdsOk in Hids; lia).
  rewrite onGetSequenceIds_eq, Hl, void_processSequenceNameQueue_eq.
  reflexivity.
Qed.

Lemma dispatch_GetSequenceName (ids : CommandIds) (data : Buffer.t) :
  replyIdsOk ids ->
  dispatch ids (GetSequenceName ids) data = onGetSequenceName ids data.
Proof.
  intros Hids. unfold replyIdsOk in Hids. unfold dispatch.
  destruct (Z.eqb_spec (GetSequenceName ids) (GetSeqTransportMode ids)); [lia|].
  destruct (Z.eqb_spec (GetSequenceName ids) (GetRemainingTimeUntilNextCue ids));
    [lia|].
  destruct (Z.eqb_spec (GetSequenceName ids) (GetSequenceIds ids)); [lia|].
  rewrite Z.eqb_refl. reflexivity.
Qed.

Lemma step_nameReply (ids : CommandIds) (st : PBClient) (data : Buffer.t)
    (cur strLen : Z) :
  replyIdsOk ids ->
  frameCommand (domain st) data = Some (GetSequenceName ids) ->
  currentSequenceNameId st = Some cur ->
  Buffer.readInt16BE data 19 = Some strLen ->
  step ids (Data data) st
  = let name := stringOfBytes (take (Z.to_nat strLen) (drop 21 data)) in
    let st1 := recordName cur name st in
    if (size (pendingSequenceNames st1) =? length (pendingSequenceIds st1))%nat
    then (st1,
          [OnSequencesUpdated
             (map (sequenceInfo (pendingSequenceNames st1))
                  (pendingSequenceIds st1))])
    else (advanceNameQueue st1, nameRequestOut ids st1).
Proof.
  intros Hids Hframe Hcur Hlen. unfold step, handle.
  rewrite handleData_eq, Hframe. unfold try_catch.
  rewrite dispatch_GetSequenceName by exact Hids.
  rewrite onGetSequenceName_eq, Hcur, Hlen. cbv zeta.
  destruct (size _ =? length _)%nat; reflexivity.
Qed.

Lemma step_errorReply (ids : CommandIds) (st : PBClient) (data : Buffer.t) :
  replyIdsOk ids ->
  frameCommand (domain st) data = Some (-1) ->
  step ids (Data data) st
  = (dropInvalidName (dropInvalidStatus st),
     match currentStatusRequestId st with
     | Some _ => statusRequestOut ids st
     | None => []
     end
     ++ match currentSequenceNameId st with
        | Some _ => nameRequestOut ids st
        | None => []
        end).
Proof.
  intros Hids Hframe. unfold step, handle.
  rewrite (handleData_error ids data st (replyIdsOk_sentinelFree ids Hids) Hframe).
  reflexivity.
Qed.

(** The two runs of the claim, as event lists. *)
Definition discoveryRun (ids : CommandIds) (dom : Z) : list Event :=
  [RefreshSequences;
   Data (idsReply dom ids [3; 7; 2]);
   Data (nameReply dom ids "Act 1");
   Data (nameReply dom ids "Act 2");
   Data (nameReply dom ids "Act 3")].

Definition discoveryRunWithError (ids : CommandIds) (dom : Z) : list Event :=
  [RefreshSequences;
   Data (idsReply dom ids [3; 7; 2]);
   Data (nameReply dom ids "Act 1");
   Data (errorReply dom);
   Data (nameReply dom ids "Act 3")].

Definition nameRequest (ids : CommandIds) (dom x : Z) : Output :=
  Write (serverFrame dom (GetSequenceName ids) (int32BE x)).

Definition info (id : Z) (name : string) : SequenceInfo.t :=
  {| SequenceInfo.id := id; SequenceInfo.name := name |}.

Lemma frameCommand_reply (dom commandId : Z) (payload : Buffer.t) :
  int32 dom = true -> 0 <= commandId <= 32767 ->
  frameCommand dom (serverFrame dom commandId payload) = Some commandId.
Proof.
  intros Hdom Hcmd. rewrite frameCommand_serverFrame by (auto; lia).
  destruct (Z.ltb_spec commandId 32768); [reflexivity | lia].
Qed.

Lemma frameCommand_errorReply (dom : Z) :
  int32 dom = true -> frameCommand dom (errorReply dom) = Some (-1).
Proof.
  intros Hdom. unfold errorReply.
  rewrite frameCommand_serverFrame by (auto; lia). reflexivity.
Qed.

(** The state of a connected client in the middle of a discovery run. *)
Definition discovering (dom : Z) (expected : list Z) (names : gmap Z string)
    (queue : list Z) (cur : option Z) : PBClient :=
  set_currentSequenceNameId cur
    (set_sequenceNameQueue queue
       (set_pendingSequenceNames names
          (set_pendingSequenceIds expected (connected dom)))).

Lemma discovering_open (dom : Z) expected names queue cur :
  int32 dom = true -> openClient (discovering dom expected names queue cur).
Proof. intros H. repeat split. exact H. Qed.

Lemma step_refresh_connected (ids : CommandIds) (dom : Z) :
  replyIdsOk ids -> int32 dom = true ->
  step ids RefreshSequences (connected dom)
  = (discovering dom [] ∅ [] None,
     [Write (serverFrame dom (GetSequenceIds ids) [])]).
Proof.
  intros Hids Hdom. rewrite step_refresh_open.
  - reflexivity.
  - repeat split. exact Hdom.
  - unfold replyIdsOk in Hids. lia.
Qed.

Lemma step_idsReply_372 (ids : CommandIds) (dom : Z) :
  replyIdsOk ids -> int32 dom = true ->
  step ids (Data (idsReply dom ids [3; 7; 2])) (discovering dom [] ∅ [] None)
  = (discovering dom [3; 7; 2] ∅ [7; 2] (Some 3), [nameRequest ids dom 3]).
Proof.
  intros Hids Hdom.
  rewrite (step_idsReply ids _ _ [3; 7; 2] Hids).
  - f_equal. unfold nameRequestOut.
    change (sequenceNameQueue (seedNameQueue [3; 7; 2] (discovering dom [] ∅ [] None)))
      with [3; 7; 2].
    cbv beta iota. rewrite requestOutput_open.
    + reflexivity.
    + repeat split. exact Hdom.
    + unfold replyIdsOk in Hids. lia.
  - apply frameCommand_reply; [exact Hdom | unfold replyIdsOk in Hids; lia].
  - reflexivity.
Qed.

(** A name reply while the name of [cur] is awaited and more names are
    expected than are recorded: the name is recorded and the next
    queued ID is requested. *)
Lemma step_nameReply_next (ids : CommandIds) (dom : Z) (s : string)
    (expected : list Z) (names : gmap Z string) (cur next : Z) (queue : list Z) :
  replyIdsOk ids -> int32 dom = true ->
  Buffer.readInt16BE (nameReply dom ids s) 19
  = Some (Z.of_nat (length (Buffer.from_ascii s))) ->
  stringOfBytes (take (length (Buffer.from_ascii s))
                      (drop 21 (nameReply dom ids s))) = s ->
  size (<[cur := s]> names) <> length expected ->
  int32 next = true ->
  step ids (Data (nameReply dom ids s))
       (discovering dom expected names (next :: queue) (Some cur))
  = (discovering dom expected (<[cur := s]> names) queue (Some next),
     [nameRequest ids dom next]).
Proof.
  intros Hids Hdom Hlen Hname Hsize Hnext.
  rewrite (step_nameReply ids _ _ cur
             (Z.of_nat (length (Buffer.from_ascii s))) Hids);
    [| |reflexivity|exact Hlen].
  - cbv zeta. rewrite Nat2Z.id, Hname.
    change (pendingSequenceNames (recordName cur s (discovering dom expected names (next :: queue) (Some cur))))
      with (<[cur := s]> names).
    change (pendingSequenceIds (recordName cur s (discovering dom expected names (next :: queue) (Some cur))))
      with expected.
    apply Nat.eqb_neq in Hsize. rewrite Hsize.
    f_equal. unfold nameRequestOut.
    change (sequenceNameQueue (recordName cur s (discovering dom expected names (next :: queue) (Some cur))))
      with (next :: queue).
    cbv beta iota. rewrite requestOutput_open.
    + rewrite Hnext. reflexivity.
    + repeat split. exact Hdom.
    + unfold replyIdsOk in Hids. lia.
  - apply frameCommand_reply; [exact Hdom | unfold replyIdsOk in Hids; lia].
Qed.

(** A name reply that completes the expected IDs: the consumer is
    notified with the names in the order of the expected IDs. *)
Lemma step_nameReply_last (ids : CommandIds) (dom : Z) (s : string)
    (expected : list Z) (names : gmap Z string) (cur : Z) (queue : list Z) :
  replyIdsOk ids -> int32 dom = true ->
  Buffer.readInt16BE (nameReply dom ids s) 19
  = Some (Z.of_nat (length (Buffer.from_ascii s))) ->
  stringOfBytes (take (length (Buffer.from_ascii s))
                      (drop 21 (nameReply dom ids s))) = s ->
  size (<[cur := s]> names) = length expected ->
  step ids (Data (nameReply dom ids s))
       (discovering dom expected names queue (Some cur))
  = (discovering dom expected (<[cur := s]> names) queue None,
     [OnSequencesUpdated (map (sequenceInfo (<[cur := s]> names)) expected)]).
Proof.
  intros Hids Hdom Hlen Hname Hsize.
  rewrite (step_nameReply ids _ _ cur
             (Z.of_nat (length (Buffer.from_ascii s))) Hids);
    [| |reflexivity|exact Hlen].
  - cbv zeta. rewrite Nat2Z.id, Hname.
    change (pendingSequenceNames (recordName cur s (discovering dom expected names queue (Some cur))))
      with (<[cur := s]> names).
    change (pendingSequenceIds (recordName cur s (discovering dom expected names queue (Some cur))))
      with expected.
    apply Nat.eqb_eq in Hsize. rewrite Hsize. reflexivity.
  - apply frameCommand_reply; [exact Hdom | unfold replyIdsOk in Hids; lia].
Qed.

(** The error reply while only the name of [cur] is awaited: the ID
    leaves the expected IDs and the next queued ID is requested. *)
Lemma step_errorReply_name (ids : CommandIds) (dom : Z)
    (expected : list Z) (names : gmap Z string) (cur next : Z) (queue : list Z) :
  replyIdsOk ids -> int32 dom = true -> int32 next = true ->
  step ids (Data (errorReply dom))
       (discovering dom expected names (next :: queue) (Some cur))
  = (discovering dom (filter (fun id => id <> cur) expected) names queue
       (Some next),
     [nameRequest ids dom next]).
Proof.
  intros Hids Hdom Hnext.
  rewrite (step_errorReply ids _ _ Hids)
    by (apply frameCommand_errorReply; exact Hdom).
  f_equal. cbn [currentStatusRequestId currentSequenceNameId discovering connected
                  onConnect connect newPBClient socket
                  set_currentSequenceNameId set_sequenceNameQueue
                  set_pendingSequenceNames set_pendingSequenceIds
                  set_statusRequestQueue set_statusRequestPending
                  set_connecting set_socket app].
  unfold nameRequestOut.
  cbn [sequenceNameQueue discovering set_currentSequenceNameId
         set_sequenceNameQueue].
  cbv beta iota. rewrite requestOutput_open.
  - rewrite Hnext. reflexivity.
  - repeat split. exact Hdom.
  - unfold replyIdsOk in Hids. lia.
Qed.

Lemma run_cons (ids : CommandIds) (e : Event) (es : list Event)
    (st st1 : PBClient) (o1 : list Output) :
  step ids e st = (st1, o1) ->
  snd (run ids (e :: es) st) = o1 ++ snd (run ids es st1).
Proof.
  intros H. cbn [run]. rewrite H.
  destruct (run ids es st1) as [st2 o2]. reflexivity.
Qed.

(** (C3) On a connected client, after [refreshSequences], the ID reply
    [3; 7; 2] and the name replies "Act 1", "Act 2", "Act 3" (one per
    name request, which are written for 3, 7 and 2 in this order), the
    consumer is notified exactly once, with the three names attached to
    the IDs in the order of the ID reply. When the reply to the request
    for 7 is the error reply instead, the single notification comes
    with the names of 3 and 2, and 7 is absent from the list. *)
Theorem discovery_notifies_in_id_order (ids : CommandIds) (dom : Z) :
  replyIdsOk ids ->
  int32 dom = true ->
  snd (run ids (discoveryRun ids dom) (connected dom))
  = [Write (serverFrame dom (GetSequenceIds ids) []);
     nameRequest ids dom 3; nameRequest ids dom 7; nameRequest ids dom 2;
     OnSequencesUpdated [info 3 "Act 1"; info 7 "Act 2"; info 2 "Act 3"]] /\
  snd (run ids (discoveryRunWithError ids dom) (connected dom))
  = [Write (serverFrame dom (GetSequenceIds ids) []);
     nameRequest ids dom 3; nameRequest ids dom 7; nameRequest ids dom 2;
     OnSequencesUpdated [info 3 "Act 1"; info 2 "Act 3"]].
Proof.
  intros Hids Hdom.
  assert (S1 : size (<[3 := "Act 1"%string]> (∅ : gmap Z string))
               <> length [3; 7; 2]) by (vm_compute; lia).
  assert (S2 : size (<[7 := "Act 2"%string]>
                       (<[3 := "Act 1"%string]> (∅ : gmap Z string)))
               <> length [3; 7; 2]) by (vm_compute; lia).
  assert (S3 : size (<[2 := "Act 3"%string]>
                       (<[7 := "Act 2"%string]>
                          (<[3 := "Act 1"%string]> (∅ : gmap Z string))))
               = length [3; 7; 2]) by (vm_compute; reflexivity).
  assert (S4 : size (<[2 := "Act 3"%string]>
                       (<[3 := "Act 1"%string]> (∅ : gmap Z string)))
               = length [3; 2]) by (vm_compute; reflexivity).
  split.
  - unfold discoveryRun.
    rewrite (run_cons _ _ _ _ _ _ (step_refresh_connected ids dom Hids Hdom)).
    rewrite (run_cons _ _ _ _ _ _ (step_idsReply_372 ids dom Hids Hdom)).
    rewrite (run_cons _ _ _ _ _ _
               (step_nameReply_next ids dom "Act 1" [3; 7; 2] ∅ 3 7 [2]
                  Hids Hdom eq_refl eq_refl S1 eq_refl)).
    rewrite (run_cons _ _ _ _ _ _
               (step_nameReply_next ids dom "Act 2" [3; 7; 2]
                  (<[3 := "Act 1"%string]> ∅) 7 2 []
                  Hids Hdom eq_refl eq_refl S2 eq_refl)).
    rewrite (run_cons _ _ _ _ _ _
               (step_nameReply_last ids dom "Act 3" [3; 7; 2]
                  (<[7 := "Act 2"%string]> (<[3 := "Act 1"%string]> ∅)) 2 []
                  Hids Hdom eq_refl eq_refl S3)).
    reflexivity.
  - unfold discoveryRunWithError.
    rewrite (run_cons _ _ _ _ _ _ (step_refresh_connected ids dom Hids Hdom)).
    rewrite (run_cons _ _ _ _ _ _ (step_idsReply_372 ids dom Hids Hdom)).
    rewrite (run_cons _ _ _ _ _ _
               (step_nameReply_next ids dom "Act 1" [3; 7; 2] ∅ 3 7 [2]
                  Hids Hdom eq_refl eq_refl S1 eq_refl)).
    rewrite (run_cons _ _ _ _ _ _
               (step_errorReply_name ids dom [3; 7; 2]
                  (<[3 := "Act 1"%string]> ∅) 7 2 [] Hids Hdom eq_refl)).
    rewrite (run_cons _ _ _ _ _ _
               (step_nameReply_last ids dom "Act 3" [3; 2]
                  (<[3 := "Act 1"%string]> ∅) 2 []
                  Hids Hdom eq_refl eq_refl S4)).
    reflexivity.
Qed.

(** The two runs with the example command identifiers, domain 0. *)
Lemma discovery_notifies_in_id_order_witness :
  callbacks (snd (run sampleIds (discoveryRun sampleIds 0) (connected 0)))
  = [OnSequencesUpdated [info 3 "Act 1"; info 7 "Act 2"; info 2 "Act 3"]] /\
  callbacks (snd (run sampleIds (discoveryRunWithError sampleIds 0) (connected 0)))
  = [OnSequencesUpdated [info 3 "Act 1"; info 2 "Act 3"]].
Proof.
  destruct (discovery_notifies_in_id_order sampleIds 0) as [H1 H2].
  - unfold replyIdsOk. cbn. lia.
  - reflexivity.
  - rewrite H1, H2. split; reflexivity.
Defined.

(** ** Outstanding requests *)

(** The command identifier of a written message: the unsigned 16-bit
    number at offset 17. *)
Definition requestCommand (o : Output) : option Z :=
  match o with
  | Write message =>
      match message !! 17%nat, message !! 18%nat with
      | Some b0, Some b1 => Some (b0 * 256 + b1)
      | _, _ => None
      end
  | _ => None
  end.

Definition isRequest (commandId : Z) (o : Output) : bool :=
  match requestCommand o with
  | Some c => c =? commandId
  | None => false
  end.

(** The number of requests with command [commandId] written in [out]. *)
Definition requests (commandId : Z) (out : list Output) : nat :=
  length (List.filter (isRequest commandId) out).

(** The event is a buffer that reaches the case [cmdId] of the switch
    of a client of domain [dom]. *)
Definition isReply (dom cmdId : Z) (e : Event) : bool :=
  match e with
  | Data data =>
      match frameCommand dom data with
      | Some c => c =? cmdId
      | None => false
      end
  | _ => false
  end.

(** The buffer reaches [case 0xFFFF: case -1:]. *)
Definition isErrorReply (dom : Z) (e : Event) : bool :=
  isReply dom 65535 e || isReply dom (-1) e.

(** Requests written and not answered yet, per kind. A status request
    is answered by a status reply; a name request is answered by a name
    reply or by the error reply. *)
Record Outstanding := { statusRequests : nat; nameRequests : nat }.

Definition account (ids : CommandIds) (e : Event) (st : PBClient)
    (g : Outstanding) : Outstanding :=
  let out := snd (step ids e st) in
  {| statusRequests :=
       (if isReply (domain st) (GetSeqTransportMode ids) e then 0
        else statusRequests g)
       + requests (GetSeqTransportMode ids) out;
     nameRequests :=
       (if isReply (domain st) (GetSequenceName ids) e
           || isErrorReply (domain st) e then 0
        else nameRequests g)
       + requests (GetSequenceName ids) out |}.

Fixpoint outstanding (ids : CommandIds) (es : list Event) (st : PBClient)
    (g : Outstanding) : Outstanding :=
  match es with
  | [] => g
  | e :: es' => outstanding ids es' (fst (step ids e st)) (account ids e st g)
  end.

Definition noneOutstanding : Outstanding :=
  {| statusRequests := 0; nameRequests := 0 |}.

(** No "get sequence IDs" reply arrives while a name request is
    outstanding. *)
Fixpoint orderly (ids : CommandIds) (es : list Event) (st : PBClient)
    (g : Outstanding) : Prop :=
  match es with
  | [] => True
  | e :: es' =>
      (isReply (domain st) (GetSequenceIds ids) e = true -> nameRequests g = 0%nat)
      /\ orderly ids es' (fst (step ids e st)) (account ids e st g)
  end.

Lemma requests_nil (c : Z) : requests c [] = 0%nat.
Proof. reflexivity. Qed.

Lemma requests_app (c : Z) (o1 o2 : list Output) :
  requests c (o1 ++ o2) = (requests c o1 + requests c o2)%nat.
Proof. unfold requests. rewrite List.filter_app, length_app. reflexivity. Qed.

Lemma requests_cons (c : Z) (o : Output) (out : list Output) :
  requests c (o :: out)
  = ((if isRequest c o then 1 else 0) + requests c out)%nat.
Proof. unfold requests. cbn [List.filter]. destruct (isRequest c o); reflexivity. Qed.

Lemma requestCommand_encode (dom commandId : Z) (parts : list Buffer.t)
    (message : Buffer.t) :
  Codec.encode dom commandId parts = Some message ->
  requestCommand (Write message) = Some commandId.
Proof.
  intros H. destruct (encode_bytes _ _ _ _ H) as (d0 & d1 & d2 & d3 & _ & Hc & ->).
  cbn [requestCommand app lookup list_lookup]. f_equal.
  pose proof (Z.div_mod commandId 256 ltac:(lia)). lia.
Qed.

Lemma requests_encode (c dom commandId : Z) (parts : list Buffer.t)
    (message : Buffer.t) :
  Codec.encode dom commandId parts = Some message ->
  requests c [Write message] = if commandId =? c then 1%nat else 0%nat.
Proof.
  intros H. rewrite requests_cons, requests_nil. unfold isRequest.
  rewrite (requestCommand_encode _ _ _ _ H).
  destruct (commandId =? c); reflexivity.
Qed.

Lemma requests_requestOutput (c : Z) (st : PBClient) (commandId x : Z) :
  requests c (requestOutput st commandId x) = 0%nat \/
  (requests c (requestOutput st commandId x) = 1%nat /\ c = commandId).
Proof.
  unfold requestOutput.
  destruct (int32 x); [|left; reflexivity].
  destruct (negb (socket st) || connecting st); [left; reflexivity|].
  destruct (Codec.encode _ _ _) as [m|] eqn:He; [|left; reflexivity].
  rewrite (requests_encode c _ _ _ _ He).
  destruct (Z.eqb_spec commandId c); [right; auto | left; reflexivity].
Qed.

Lemma requests_statusRequestOut (c : Z) (ids : CommandIds) (st : PBClient) :
  requests c (statusRequestOut ids st) = 0%nat \/
  (requests c (statusRequestOut ids st) = 1%nat /\
   c = GetSeqTransportMode ids /\
   statusRequestPending (advanceStatusQueue st) = true /\
   statusRequestPending st = false).
Proof.
  unfold statusRequestOut, advanceStatusQueue.
  destruct (statusRequestPending st); [left; reflexivity|].
  destruct (statusRequestQueue st) as [|x rest]; [left; reflexivity|].
  destruct (requests_requestOutput c st (GetSeqTransportMode ids) x)
    as [H|[H ->]]; [left; exact H | right; auto].
Qed.

Lemma requests_nameRequestOut (c : Z) (ids : CommandIds) (st : PBClient) :
  requests c (nameRequestOut ids st) = 0%nat \/
  (requests c (nameRequestOut ids st) = 1%nat /\
   c = GetSequenceName ids /\
   sequenceNameQueue st <> []).
Proof.
  unfold nameRequestOut.
  destruct (sequenceNameQueue st) as [|x rest]; [left; reflexivity|].
  destruct (requests_requestOutput c st (GetSequenceName ids) x)
    as [H|[H ->]]; [left; exact H | right; auto].
Qed.

Lemma isRequest_callback (c : Z) (o : Output) :
  isCallback o = true -> isRequest c o = false.
Proof. destruct o; cbn; intros; first [reflexivity | discriminate]. Qed.

Lemma requests_Rejected (c : Z) (out : list Output) :
  requests c (Rejected :: out) = requests c out.
Proof. reflexivity. Qed.

(** Normalises the request counts of the outputs of a step. *)
Ltac count_requests :=
  repeat first
    [ rewrite requests_app | rewrite requests_nil | rewrite requests_Rejected
    | rewrite requests_cons, isRequest_callback by reflexivity ];
  cbn [Nat.add].

(** Case analysis on the request that a queue may have written. *)
Ltac split_requests :=
  repeat match goal with
    | |- context [requests ?c (statusRequestOut ?ids ?st)] =>
        let H := fresh "Hreq" in
        destruct (requests_statusRequestOut c ids st)
          as [H | (H & ? & ? & ?)]; rewrite H in *; clear H
    | |- context [requests ?c (nameRequestOut ?ids ?st)] =>
        let H := fresh "Hreq" in
        destruct (requests_nameRequestOut c ids st)
          as [H | (H & ? & ?)]; rewrite H in *; clear H
    end.

(** What one step does to the status pipeline. *)
Lemma step_status (ids : CommandIds) (e : Event) (st : PBClient) :
  replyIdsOk ids ->
  (requests (GetSeqTransportMode ids) (snd (step ids e st)) <= 1)%nat /\
  (requests (GetSeqTransportMode ids) (snd (step ids e st)) = 1%nat ->
   statusRequestPending (fst (step ids e st)) = true) /\
  (isReply (domain st) (GetSeqTransportMode ids) e = false ->
   statusRequestPending st = true ->
   requests (GetSeqTransportMode ids) (snd (step ids e st)) = 0%nat /\
   statusRequestPending (fst (step ids e st)) = true).
Proof.
  intros Hids. unfold replyIdsOk in Hids.
  step_cases ids e st; unfold emit, isReply; rewrite ?Hframe;
    repeat case_match; simplify_eq;
    rewrite ?void_processSequenceNameQueue_eq in *; simplify_eq;
    cbn [fst snd]; count_requests.
  all: try (erewrite requests_encode by eassumption).
  all: split_requests.
  all: unfold_states; repeat case_match; simplify_eq; fields.
  all: repeat split; intros; simplify_eq; try lia; try congruence.
Qed.

(** What one step does to the name pipeline. *)
Lemma step_name (ids : CommandIds) (e : Event) (st : PBClient) :
  replyIdsOk ids ->
  (requests (GetSequenceName ids) (snd (step ids e st)) <= 1)%nat /\
  (requests (GetSequenceName ids) (snd (step ids e st)) = 1%nat ->
   is_Some (currentSequenceNameId (fst (step ids e st)))) /\
  (isReply (domain st) (GetSequenceName ids) e = false ->
   isErrorReply (domain st) e = false ->
   isReply (domain st) (GetSequenceIds ids) e = false ->
   requests (GetSequenceName ids) (snd (step ids e st)) = 0%nat /\
   (is_Some (currentSequenceNameId st) ->
    is_Some (currentSequenceNameId (fst (step ids e st))))).
Proof.
  intros Hids. unfold replyIdsOk in Hids.
  step_cases ids e st; unfold emit, isErrorReply, isReply; rewrite ?Hframe;
    repeat case_match; simplify_eq;
    rewrite ?void_processSequenceNameQueue_eq in *; simplify_eq;
    cbn [fst snd]; count_requests.
  all: try (erewrite requests_encode by eassumption).
  all: split_requests.
  all: unfold_states; repeat case_match; simplify_eq; fields.
  all: repeat split; intros; simplify_eq; try lia; try congruence; eauto.
Qed.

(** The counts agree with the pending flag and with the name cursor. *)
Definition statusCounted (st : PBClient) (g : Outstanding) : Prop :=
  statusRequests g = 0%nat \/
  (statusRequests g = 1%nat /\ statusRequestPending st = true).

Definition nameCounted (st : PBClient) (g : Outstanding) : Prop :=
  nameRequests g = 0%nat \/
  (nameRequests g = 1%nat /\ is_Some (currentSequenceNameId st)).

Lemma account_statusCounted (ids : CommandIds) (e : Event) (st : PBClient)
    (g : Outstanding) :
  replyIdsOk ids ->
  statusCounted st g ->
  statusCounted (fst (step ids e st)) (account ids e st g).
Proof.
  intros Hids Hg.
  destruct (step_status ids e st Hids) as (Hle & Hone & Hkeep).
  unfold statusCounted, account in *. cbn [statusRequests].
  destruct (isReply (domain st) (GetSeqTransportMode ids) e).
  - destruct (requests (GetSeqTransportMode ids) (snd (step ids e st)))
      as [|[|n]]; [left; reflexivity | right; auto | lia].
  - destruct Hg as [-> | [-> Hpend]].
    + destruct (requests (GetSeqTransportMode ids) (snd (step ids e st)))
        as [|[|n]]; [left; reflexivity | right; auto | lia].
    + destruct (Hkeep eq_refl Hpend) as [-> Hpend']. right. auto.
Qed.

Lemma account_nameCounted (ids : CommandIds) (e : Event) (st : PBClient)
    (g : Outstanding) :
  replyIdsOk ids ->
  nameCounted st g ->
  (isReply (domain st) (GetSequenceIds ids) e = true -> nameRequests g = 0%nat) ->
  nameCounted (fst (step ids e st)) (account ids e st g).
Proof.
  intros Hids Hg Hord.
  destruct (step_name ids e st Hids) as (Hle & Hone & Hkeep).
  unfold nameCounted, account in *. cbn [nameRequests].
  assert (Hfresh : forall r : nat,
             r = requests (GetSequenceName ids) (snd (step ids e st)) ->
             (0 + r = 0)%nat \/
             ((0 + r = 1)%nat /\
              is_Some (currentSequenceNameId (fst (step ids e st))))).
  { intros r ->.
    destruct (requests (GetSequenceName ids) (snd (step ids e st)))
      as [|[|n]]; [left; reflexivity | right; auto | lia]. }
  destruct (isReply (domain st) (GetSequenceName ids) e) eqn:Hname;
    [apply Hfresh; reflexivity|].
  destruct (isErrorReply (domain st) e) eqn:Herr; [apply Hfresh; reflexivity|].
  cbn [orb].
  destruct (isReply (domain st) (GetSequenceIds ids) e) eqn:Hidsr.
  - rewrite (Hord eq_refl). apply Hfresh. reflexivity.
  - destruct (Hkeep eq_refl eq_refl eq_refl) as [-> Hcur].
    destruct Hg as [-> | [-> Hsome]]; [left; reflexivity | right; auto].
Qed.

Lemma outstanding_statusCounted (ids : CommandIds) (es : list Event)
    (st : PBClient) (g : Outstanding) :
  replyIdsOk ids ->
  statusCounted st g ->
  (statusRequests (outstanding ids es st g) <= 1)%nat.
Proof.
  intros Hids. revert st g. induction es as [|e es IH]; intros st g Hg.
  - cbn [outstanding]. destruct Hg as [-> | [-> _]]; lia.
  - cbn [outstanding]. apply IH, account_statusCounted; assumption.
Qed.

Lemma outstanding_nameCounted (ids : CommandIds) (es : list Event)
    (st : PBClient) (g : Outstanding) :
  replyIdsOk ids ->
  nameCounted st g ->
  orderly ids es st g ->
  (nameRequests (outstanding ids es st g) <= 1)%nat.
Proof.
  intros Hids. revert st g. induction es as [|e es IH]; intros st g Hg Hord.
  - cbn [outstanding]. destruct Hg as [-> | [-> _]]; lia.
  - cbn [outstanding orderly] in *. destruct Hord as [He Hord].
    apply IH; [|exact Hord]. apply account_nameCounted; assumption.
Qed.

(** What holds of the two pipelines: after any sequence of timer ticks,
    refreshes and received buffers, at most one status request is
    outstanding (none is written while an earlier one has had no status
    reply); at most one name request is outstanding as long as no
    "get sequence IDs" reply arrives while a name request is
    outstanding. *)
Theorem one_request_outstanding (ids : CommandIds) :
  replyIdsOk ids ->
  (forall es st,
      (statusRequests (outstanding ids es st noneOutstanding) <= 1)%nat) /\
  (forall es st,
      orderly ids es st noneOutstanding ->
      (nameRequests (outstanding ids es st noneOutstanding) <= 1)%nat).
Proof.
  intros Hids. split.
  - intros es st. apply outstanding_statusCounted; [exact Hids|].
    left. reflexivity.
  - intros es st Hord. apply outstanding_nameCounted; [exact Hids| |exact Hord].
    left. reflexivity.
Qed.

(** Sequences 7 and 9 are watched while a discovery runs: the events
    interleave, and each pipeline has one request in flight at the end. *)
Lemma one_request_outstanding_witness :
  let es :=
    [Tick; RefreshSequences; Tick; Data (idsReply 0 sampleIds [3; 7]);
     Data (statusReply 0 sampleIds 1); Tick;
     Data (nameReply 0 sampleIds "Act 1")] in
  let st := set_pollSequenceIds [7; 9] (connected 0) in
  outstanding sampleIds es st noneOutstanding
  = {| statusRequests := 1; nameRequests := 1 |} /\
  (statusRequests (outstanding sampleIds es st noneOutstanding) <= 1)%nat /\
  (nameRequests (outstanding sampleIds es st noneOutstanding) <= 1)%nat.
Proof.
  cbv zeta.
  assert (Hids : replyIdsOk sampleIds) by (unfold replyIdsOk; cbn; lia).
  destruct (one_request_outstanding sampleIds Hids) as [Hstatus Hname].
  split; [vm_compute; reflexivity|]. split.
  - apply Hstatus.
  - apply Hname. vm_compute. repeat split; intros; try discriminate; reflexivity.
Defined.

(** (C4) The name pipeline can have two requests outstanding: after
    two refreshes and the two ID replies, the second reply writes a
    name request for sequence 3 while the first one has had no reply;
    "at most one outstanding name request" fails in that reachable
    state. *)
Lemma two_name_requests_outstanding :
  let es :=
    [RefreshSequences; RefreshSequences;
     Data (idsReply 0 sampleIds [3; 7; 2]);
     Data (idsReply 0 sampleIds [3; 7; 2])] in
  snd (run sampleIds es (connected 0))
  = [Write (serverFrame 0 200 []); Write (serverFrame 0 200 []);
     nameRequest sampleIds 0 3; nameRequest sampleIds 0 3] /\
  nameRequests (outstanding sampleIds es (connected 0) noneOutstanding) = 2%nat /\
  ~ (nameRequests (outstanding sampleIds es (connected 0) noneOutstanding) <= 1)%nat.
Proof.
  cbv zeta. split; [vm_compute; reflexivity|].
  assert (H : nameRequests
                (outstanding sampleIds
                   [RefreshSequences; RefreshSequences;
                    Data (idsReply 0 sampleIds [3; 7; 2]);
                    Data (idsReply 0 sampleIds [3; 7; 2])]
                   (connected 0) noneOutstanding) = 2%nat)
    by (vm_compute; reflexivity).
  split; [exact H | rewrite H; lia].
Qed.

(** * Further properties of the code *)

(** ** The codec, both ways *)

Lemma writeInt_Some (n : Z) (b : Buffer.t) :
  Codec.writeInt n = Some b -> int32 n = true /\ b = int32BE n.
Proof.
  unfold Codec.writeInt, Buffer.writeInt32BE. fold (int32 n).
  destruct (int32 n); [|discriminate]. intros [= <-]. auto.
Qed.

Lemma lookup_middle_4 (pre post : Buffer.t) (b0 b1 b2 b3 : Z) (k : nat) :
  (k < 4)%nat ->
  (pre ++ [b0; b1; b2; b3] ++ post) !! (length pre + k)%nat
  = [b0; b1; b2; b3] !! k.
Proof.
  intros Hk. rewrite lookup_app_r by lia.
  replace (length pre + k - length pre)%nat with k by lia.
  rewrite lookup_app_l by (cbn [length]; lia). reflexivity.
Qed.

Lemma readInt32BE_int32BE (n : Z) (pre post : Buffer.t) :
  int32 n = true ->
  Buffer.readInt32BE (pre ++ int32BE n ++ post) (length pre) = Some n.
Proof.
  intros Hn. unfold Buffer.readInt32BE, int32BE.
  pose proof (lookup_middle_4 pre post
                ((n / 16777216) mod 256) ((n / 65536) mod 256)
                ((n / 256) mod 256) (n mod 256)) as Hk.
  replace (length pre) with (length pre + 0)%nat at 1 by lia.
  rewrite !Hk by lia. cbn [lookup list_lookup].
  rewrite (bigEndian_int32BE n Hn). reflexivity.
Qed.

(** (X1) What [writeInt] writes, [readInt32BE] reads back, wherever the
    four bytes stand in a buffer. *)
Theorem writeInt_readInt32BE (n : Z) (b pre post : Buffer.t) :
  Codec.writeInt n = Some b ->
  length b = 4%nat /\
  Buffer.readInt32BE (pre ++ b ++ post) (length pre) = Some n.
Proof.
  intros H. apply writeInt_Some in H. destruct H as [Hn ->].
  split; [reflexivity | apply readInt32BE_int32BE; exact Hn].
Qed.

Lemma writeInt_readInt32BE_witness :
  Buffer.readInt32BE ([1; 2] ++ [255; 255; 255; 254] ++ [9]) 2 = Some (-2).
Proof.
  apply (proj2 (writeInt_readInt32BE (-2) [255; 255; 255; 254] [1; 2] [9] eq_refl)).
Defined.

Lemma encode_Some (dom commandId : Z) (parts : list Buffer.t) (message : Buffer.t) :
  Codec.encode dom commandId parts = Some message ->
  int32 dom = true /\ 0 <= commandId <= 65535 /\
  message = serverFrame dom commandId (concat parts).
Proof.
  intros H.
  destruct (encode_bytes _ _ _ _ H) as (d0 & d1 & d2 & d3 & Hd & Hc & _).
  apply writeInt_Some in Hd. destruct Hd as [Hd _].
  rewrite encode_serverFrame in H by assumption.
  injection H as <-. auto.
Qed.

Lemma serverFrame_split (dom commandId : Z) (payload : Buffer.t) :
  exists header,
    length header = 19%nat /\
    serverFrame dom commandId payload = header ++ payload.
Proof.
  unfold serverFrame, int32BE, int16BE.
  cbn [app Codec.magic Buffer.from_ascii].
  eexists [_; _; _; _; _; _; _; _; _; _; _; _; _; _; _; _; _; _; _].
  split; reflexivity.
Qed.

(** (X2) Round trip of a frame: the message that the encoder builds has
    19 bytes before the payload, passes the guards of a connection of
    the same domain, carries the domain at offset 5 and the command at
    offset 17 (read back signed: identifiers from 0x8000 come back
    negative), and its payload is the concatenation of the parts. *)
Theorem encode_frameCommand_roundtrip (dom commandId : Z)
    (parts : list Buffer.t) (message : Buffer.t) :
  Codec.encode dom commandId parts = Some message ->
  length message = (19 + length (concat parts))%nat /\
  Buffer.readInt32BE message 5 = Some dom /\
  frameCommand dom message
  = Some (if commandId <? 32768 then commandId else commandId - 65536) /\
  drop 19 message = concat parts.
Proof.
  intros H. apply encode_Some in H. destruct H as (Hdom & Hcmd & ->).
  destruct (serverFrame_split dom commandId (concat parts))
    as (header & Hlen & Hsplit).
  split; [rewrite Hsplit, length_app, Hlen; reflexivity|].
  split.
  - unfold serverFrame, int32BE, int16BE, Buffer.readInt32BE.
    cbn [app Codec.magic Buffer.from_ascii lookup list_lookup Nat.add].
    rewrite (bigEndian_int32BE dom Hdom). reflexivity.
  - split; [apply frameCommand_serverFrame; assumption|].
    rewrite Hsplit, drop_app_length'; [reflexivity | symmetry; exact Hlen].
Qed.

Lemma encode_frameCommand_roundtrip_witness :
  frameCommand 7 [80; 66; 65; 85; 1; 0; 0; 0; 7; 0; 6; 0; 0; 0; 0; 0; 14;
                  0; 72; 0; 0; 0; 5] = Some 72.
Proof.
  apply (encode_frameCommand_roundtrip 7 72 [[0; 0; 0; 5]]).
  reflexivity.
Defined.

(** (X3) The length field of a written frame is the body length modulo
    65536: it is exact for bodies of at most 65535 bytes and wraps
    around, without any error, for longer ones. *)
Theorem encode_length_field (dom commandId : Z) (parts : list Buffer.t)
    (message : Buffer.t) :
  Codec.encode dom commandId parts = Some message ->
  let bodyLen := Z.of_nat (length (concat parts)) + 2 in
  exists l0 l1,
    message !! 9%nat = Some l0 /\ message !! 10%nat = Some l1 /\
    0 <= l0 < 256 /\ 0 <= l1 < 256 /\
    l0 * 256 + l1 = bodyLen mod 65536 /\
    (l0 * 256 + l1 = bodyLen <-> bodyLen <= 65535).
Proof.
  intros H bodyLen. apply encode_Some in H. destruct H as (_ & _ & ->).
  exists ((bodyLen / 256) mod 256), (bodyLen mod 256).
  split; [reflexivity|]. split; [reflexivity|].
  pose proof (Z.mod_pos_bound (bodyLen / 256) 256 ltac:(lia)) as B0.
  pose proof (Z.mod_pos_bound bodyLen 256 ltac:(lia)) as B1.
  split; [exact B0|]. split; [exact B1|].
  assert (Hmod : (bodyLen / 256) mod 256 * 256 + bodyLen mod 256
                 = bodyLen mod 65536).
  { change 65536 with (256 * 256).
    rewrite (Z.rem_mul_r bodyLen 256 256) by lia. lia. }
  split; [exact Hmod|]. rewrite Hmod.
  pose proof (Z.mod_pos_bound bodyLen 65536 ltac:(lia)) as B2.
  assert (0 <= bodyLen) by (unfold bodyLen; lia).
  split; intros Hb; [lia | apply Z.mod_small; lia].
Qed.

Lemma encode_length_field_witness :
  exists l0 l1,
    [80; 66; 65; 85; 1; 0; 0; 0; 0; 0; 6; 0; 0; 0; 0; 0; 7; 0; 72; 0; 0; 0; 5]
      !! 9%nat = Some l0 /\
    [80; 66; 65; 85; 1; 0; 0; 0; 0; 0; 6; 0; 0; 0; 0; 0; 7; 0; 72; 0; 0; 0; 5]
      !! 10%nat = Some l1 /\
    l0 * 256 + l1 = 6.
Proof.
  destruct (encode_length_field 0 72 [[0; 0; 0; 5]] _ eq_refl)
    as (l0 & l1 & H0 & H1 & _ & _ & Hlen & _).
  exists l0, l1. auto.
Defined.

(** (X4) [send] in full: without a usable socket it does nothing; with
    one it writes exactly one frame, unless the domain is not an int32
    or the command identifier not a uint16, in which case it throws and
    writes nothing. It never changes the client. *)
Theorem send_total (commandId : Z) (parts : list Buffer.t) (st : PBClient) :
  send commandId parts st =
  if negb (socket st) || connecting st then (Ok tt, st, [])
  else if int32 (domain st) && ((0 <=? commandId) && (commandId <=? 65535))
       then (Ok tt, st,
             [Write (serverFrame (domain st) commandId (concat parts))])
       else (Throw, st, []).
Proof.
  rewrite send_eq.
  destruct (negb (socket st) || connecting st); [reflexivity|].
  destruct (int32 (domain st)) eqn:Hdom.
  - destruct ((0 <=? commandId) && (commandId <=? 65535)) eqn:Hcmd; cbn [andb].
    + rewrite encode_serverFrame by (auto; lia). reflexivity.
    + unfold Codec.encode, Codec.writeShort, Buffer.writeUInt16BE.
      rewrite Hcmd. reflexivity.
  - cbn [andb]. unfold Codec.encode, Codec.writeShort, Buffer.writeUInt16BE.
    destruct ((0 <=? commandId) && (commandId <=? 65535)); [|reflexivity].
    unfold Codec.buildHeader, Codec.writeInt, Buffer.writeInt32BE.
    fold (int32 (domain st)). rewrite Hdom. reflexivity.
Qed.

(** ** The timecode connection *)

Lemma readInt32BE_after_header (header payload : Buffer.t) (k : nat) :
  length header = 19%nat ->
  Buffer.readInt32BE (header ++ payload) (19 + k) = Buffer.readInt32BE payload k.
Proof.
  intros Hlen. unfold Buffer.readInt32BE.
  rewrite !lookup_app_r by lia. rewrite Hlen.
  replace (19 + k - 19)%nat with k by lia.
  replace (19 + k + 1 - 19)%nat with (k + 1)%nat by lia.
  replace (19 + k + 2 - 19)%nat with (k + 2)%nat by lia.
  replace (19 + k + 3 - 19)%nat with (k + 3)%nat by lia.
  reflexivity.
Qed.

(** The four fields of a time payload, read back. *)
Lemma read_time_payload (header rest : Buffer.t) (h m s f : Z) :
  length header = 19%nat ->
  int32 h = true -> int32 m = true -> int32 s = true -> int32 f = true ->
  let data := header ++ int32BE h ++ int32BE m ++ int32BE s ++ int32BE f ++ rest in
  Buffer.readInt32BE data 19 = Some h /\
  Buffer.readInt32BE data 23 = Some m /\
  Buffer.readInt32BE data 27 = Some s /\
  Buffer.readInt32BE data 31 = Some f.
Proof.
  intros Hlen Hh Hm Hs Hf data. unfold data.
  split; [|split; [|split]].
  - etransitivity; [exact (readInt32BE_after_header header _ 0 Hlen)|].
    apply (readInt32BE_int32BE h [] _ Hh).
  - etransitivity; [exact (readInt32BE_after_header header _ 4 Hlen)|].
    apply (readInt32BE_int32BE m (int32BE h) _ Hm).
  - etransitivity; [exact (readInt32BE_after_header header _ 8 Hlen)|].
    pose proof (readInt32BE_int32BE s (int32BE h ++ int32BE m)
                  (int32BE f ++ rest) Hs) as H.
    rewrite <- app_assoc in H. exact H.
  - etransitivity; [exact (readInt32BE_after_header header _ 12 Hlen)|].
    pose proof (readInt32BE_int32BE f (int32BE h ++ int32BE m ++ int32BE s)
                  rest Hf) as H.
    rewrite <- !app_assoc in H. exact H.
Qed.

(** [SequenceConnection.handleData] in closed form. *)
Lemma SequenceConnection_handleData_eq (ids : CommandIds) (data : Buffer.t)
    (c : SequenceConnection.t) :
  SequenceConnection.handleData ids data c =
  (c,
   match frameCommand (SequenceConnection.domain c) data with
   | Some cmdId =>
       if (cmdId =? GetSeqTime ids) && (35 <=? length data)%nat then
         match Buffer.readInt32BE data 19, Buffer.readInt32BE data 23,
               Buffer.readInt32BE data 27, Buffer.readInt32BE data 31 with
         | Some h, Some m, Some s, Some f =>
             [OnSequenceTime (SequenceConnection.seqId c) h m s f]
         | _, _, _, _ => [OnDebug]
         end
       else []
   | None => []
   end).
Proof.
  unfold frameCommand, SequenceConnection.handleData,
    SequenceConnection.handleData_try.
  destruct (length data <? 19)%nat eqn:Hlen; [reflexivity|].
  apply Nat.ltb_ge in Hlen.
  destruct (negb (String.eqb _ _)); [reflexivity|].
  destruct (readInt32BE_is_Some data 5) as [d Hd]; [lia|].
  destruct (readInt16BE_is_Some data 17) as [cmd Hc]; [lia|].
  rewrite Hd, Hc. cbn [mbind option_bind].
  destruct (negb (d =? SequenceConnection.domain c)); [reflexivity|].
  destruct ((cmd =? GetSeqTime ids) && (35 <=? length data)%nat);
    [|reflexivity].
  destruct (Buffer.readInt32BE data 19); cbn [mbind option_bind]; [|reflexivity].
  destruct (Buffer.readInt32BE data 23); cbn [mbind option_bind]; [|reflexivity].
  destruct (Buffer.readInt32BE data 27); cbn [mbind option_bind]; [|reflexivity].
  destruct (Buffer.readInt32BE data 31); reflexivity.
Qed.

(** (X5) The data handler of a timecode connection never changes the
    connection and never reports a parse error (every read is guarded
    by a length check). It calls [onTime] exactly for a buffer that
    passes the guards with the "get sequence time" command and at least
    35 bytes, with the four big-endian fields at offsets 19, 23, 27 and
    31; for any other buffer it does nothing. *)
Theorem SequenceConnection_handleData_decodes (ids : CommandIds)
    (data : Buffer.t) (c : SequenceConnection.t) :
  fst (SequenceConnection.handleData ids data c) = c /\
  (OnDebug ∉ snd (SequenceConnection.handleData ids data c)) /\
  (frameCommand (SequenceConnection.domain c) data = Some (GetSeqTime ids) ->
   (35 <= length data)%nat ->
   exists h m s f,
     Buffer.readInt32BE data 19 = Some h /\
     Buffer.readInt32BE data 23 = Some m /\
     Buffer.readInt32BE data 27 = Some s /\
     Buffer.readInt32BE data 31 = Some f /\
     snd (SequenceConnection.handleData ids data c)
     = [OnSequenceTime (SequenceConnection.seqId c) h m s f]) /\
  (frameCommand (SequenceConnection.domain c) data <> Some (GetSeqTime ids)
   \/ (length data < 35)%nat ->
   snd (SequenceConnection.handleData ids data c) = []).
Proof.
  rewrite SequenceConnection_handleData_eq. cbn [fst snd].
  split; [reflexivity|].
  destruct (frameCommand (SequenceConnection.domain c) data) as [cmdId|].
  - destruct (Z.eqb_spec cmdId (GetSeqTime ids)) as [->|Hne].
    + destruct (Nat.leb_spec 35 (length data)) as [Hlen|Hlen]; cbn [andb].
      * destruct (readInt32BE_is_Some data 19) as [h Hh]; [lia|].
        destruct (readInt32BE_is_Some data 23) as [m Hm]; [lia|].
        destruct (readInt32BE_is_Some data 27) as [s Hs]; [lia|].
        destruct (readInt32BE_is_Some data 31) as [f Hf]; [lia|].
        rewrite Hh, Hm, Hs, Hf.
        split; [intros H; apply list_elem_of_singleton in H; discriminate|].
        split; [intros _ _; exists h, m, s, f; auto|].
        intros [H|H]; [congruence | lia].
      * split; [intros H; inversion H|].
        split; [intros _ H; lia | reflexivity].
    + cbn [andb]. split; [intros H; inversion H|].
      split; [intros [= H]; congruence | reflexivity].
  - split; [intros H; inversion H|].
    split; [intros [=] | reflexivity].
Qed.

Lemma SequenceConnection_handleData_decodes_witness :
  snd (SequenceConnection.handleData sampleIds
         (serverFrame 0 73 (int32BE 1 ++ int32BE 2 ++ int32BE 3 ++ int32BE 4))
         {| SequenceConnection.domain := 0; SequenceConnection.seqId := 7;
            SequenceConnection.socket := true;
            SequenceConnection.connected := true;
            SequenceConnection.currentState := Play |})
  = [OnSequenceTime 7 1 2 3 4].
Proof.
  destruct (SequenceConnection_handleData_decodes sampleIds
              (serverFrame 0 73 (int32BE 1 ++ int32BE 2 ++ int32BE 3 ++ int32BE 4))
              {| SequenceConnection.domain := 0; SequenceConnection.seqId := 7;
                 SequenceConnection.socket := true;
                 SequenceConnection.connected := true;
                 SequenceConnection.currentState := Play |})
    as (_ & _ & Htime & _).
  destruct Htime as (h & m & s & f & Hh & Hm & Hs & Hf & Hout).
  - reflexivity.
  - cbn. lia.
  - rewrite Hout. vm_compute in Hh, Hm, Hs, Hf.
    injection Hh as <-. injection Hm as <-. injection Hs as <-.
    injection Hf as <-. reflexivity.
Defined.

(** (X6) Round trip of a time reply: a frame of the connection's domain
    with the "get sequence time" command and the four time fields
    written as big-endian int32 (whatever follows them) makes the
    connection call [onTime] with its sequence ID and these four
    values. *)
Theorem time_reply_roundtrip (ids : CommandIds) (c : SequenceConnection.t)
    (h m s f : Z) (rest : Buffer.t) :
  int32 (SequenceConnection.domain c) = true ->
  0 <= GetSeqTime ids <= 32767 ->
  int32 h = true -> int32 m = true -> int32 s = true -> int32 f = true ->
  SequenceConnection.handleData ids
    (serverFrame (SequenceConnection.domain c) (GetSeqTime ids)
       (int32BE h ++ int32BE m ++ int32BE s ++ int32BE f ++ rest)) c
  = (c, [OnSequenceTime (SequenceConnection.seqId c) h m s f]).
Proof.
  intros Hdom Hcmd Hh Hm Hs Hf.
  rewrite SequenceConnection_handleData_eq.
  rewrite frameCommand_reply by assumption. rewrite Z.eqb_refl.
  destruct (serverFrame_split (SequenceConnection.domain c) (GetSeqTime ids)
              (int32BE h ++ int32BE m ++ int32BE s ++ int32BE f ++ rest))
    as (header & Hlen & ->).
  destruct (read_time_payload header rest h m s f Hlen Hh Hm Hs Hf)
    as (-> & -> & -> & ->).
  assert (Hlong : (35 <=? length (header ++ int32BE h ++ int32BE m ++ int32BE s
                                     ++ int32BE f ++ rest))%nat = true).
  { apply Nat.leb_le. rewrite !length_app, Hlen. cbn [length int32BE]. lia. }
  rewrite Hlong. reflexivity.
Qed.

Lemma time_reply_roundtrip_witness :
  SequenceConnection.handleData sampleIds
    (serverFrame 0 73 (int32BE 0 ++ int32BE 12 ++ int32BE 34 ++ int32BE 5 ++ []))
    {| SequenceConnection.domain := 0; SequenceConnection.seqId := 7;
       SequenceConnection.socket := true;
       SequenceConnection.connected := true;
       SequenceConnection.currentState := Play |}
  = ({| SequenceConnection.domain := 0; SequenceConnection.seqId := 7;
        SequenceConnection.socket := true;
        SequenceConnection.connected := true;
        SequenceConnection.currentState := Play |},
     [OnSequenceTime 7 0 12 34 5]).
Proof.
  apply (time_reply_roundtrip sampleIds
           {| SequenceConnection.domain := 0; SequenceConnection.seqId := 7;
              SequenceConnection.socket := true;
              SequenceConnection.connected := true;
              SequenceConnection.currentState := Play |} 0 12 34 5 []);
    try reflexivity.
  cbn. lia.
Defined.

(** (X7) A firing of the poll timer: on a connection that is not
    established it returns at once, nothing is sent and no further poll
    is scheduled; on an established one it writes exactly one
    "get sequence time" request of 23 bytes that carries the sequence
    ID, or, when the ID, the domain or the command cannot be encoded,
    reports the error to [onDebug]. After [disconnect] the timer, should
    it still fire, takes the first branch. *)
Theorem onPollTimer_cases (ids : CommandIds) (c : SequenceConnection.t) :
  (SequenceConnection.connected c = false \/ SequenceConnection.socket c = false ->
   SequenceConnection.onPollTimer ids c = None) /\
  (SequenceConnection.connected c = true -> SequenceConnection.socket c = true ->
   SequenceConnection.onPollTimer ids c =
   if int32 (SequenceConnection.seqId c) && int32 (SequenceConnection.domain c)
      && ((0 <=? GetSeqTime ids) && (GetSeqTime ids <=? 65535))
   then Some [Write (serverFrame (SequenceConnection.domain c) (GetSeqTime ids)
                       (int32BE (SequenceConnection.seqId c)))]
   else Some [OnDebug]) /\
  SequenceConnection.onPollTimer ids (SequenceConnection.disconnect c) = None /\
  (int32 (SequenceConnection.seqId c) = true ->
   length (serverFrame (SequenceConnection.domain c) (GetSeqTime ids)
             (int32BE (SequenceConnection.seqId c))) = 23%nat /\
   Buffer.readInt32BE
     (serverFrame (SequenceConnection.domain c) (GetSeqTime ids)
        (int32BE (SequenceConnection.seqId c))) 19
   = Some (SequenceConnection.seqId c)).
Proof.
  split; [|split; [|split]].
  - unfold SequenceConnection.onPollTimer. intros [-> | ->]; [reflexivity|].
    rewrite orb_true_r. reflexivity.
  - intros Hc Hs.
    unfold SequenceConnection.onPollTimer, SequenceConnection.sendGetTime,
      SequenceConnection.send, Buffer.writeInt32BE.
    rewrite Hc, Hs. cbn [negb orb].
    fold (int32 (SequenceConnection.seqId c)).
    destruct (int32 (SequenceConnection.seqId c)); cbn [mbind option_bind andb];
      [|reflexivity].
    destruct (int32 (SequenceConnection.domain c)) eqn:Hdom; cbn [andb].
    + destruct ((0 <=? GetSeqTime ids) && (GetSeqTime ids <=? 65535)) eqn:Hcmd.
      * rewrite encode_serverFrame by (auto; lia).
        cbn [concat]. rewrite app_nil_r. reflexivity.
      * unfold Codec.encode, Codec.writeShort, Buffer.writeUInt16BE.
        rewrite Hcmd. reflexivity.
    + unfold Codec.encode, Codec.writeShort, Buffer.writeUInt16BE.
      destruct ((0 <=? GetSeqTime ids) && (GetSeqTime ids <=? 65535));
        [|reflexivity].
      unfold Codec.buildHeader, Codec.writeInt, Buffer.writeInt32BE.
      fold (int32 (SequenceConnection.domain c)). rewrite Hdom. reflexivity.
  - reflexivity.
  - intros Hid.
    destruct (serverFrame_split (SequenceConnection.domain c) (GetSeqTime ids)
                (int32BE (SequenceConnection.seqId c))) as (header & Hlen & ->).
    split; [rewrite length_app, Hlen; reflexivity|].
    pose proof (readInt32BE_int32BE (SequenceConnection.seqId c) header [] Hid) as H.
    rewrite app_nil_r, Hlen in H. exact H.
Qed.

Lemma onPollTimer_cases_witness :
  SequenceConnection.onPollTimer sampleIds
    {| SequenceConnection.domain := 0; SequenceConnection.seqId := 7;
       SequenceConnection.socket := true;
       SequenceConnection.connected := true;
       SequenceConnection.currentState := Play |}
  = Some [Write [80; 66; 65; 85; 1; 0; 0; 0; 0; 0; 6; 0; 0; 0; 0; 0; 7;
                 0; 73; 0; 0; 0; 7]].
Proof.
  apply (proj1 (proj2 (onPollTimer_cases sampleIds
           {| SequenceConnection.domain := 0; SequenceConnection.seqId := 7;
              SequenceConnection.socket := true;
              SequenceConnection.connected := true;
              SequenceConnection.currentState := Play |}))); reflexivity.
Defined.

(** ** The control connection: life cycle *)

(** [disconnect()]: every timecode connection is disconnected and
    dropped, the socket is destroyed and forgotten (the status timer,
    which is not part of the record, is cleared). *)
Definition disconnect (c : PBClient) : PBClient :=
  set_socket false (set_sequenceConnections ∅ c).

(** The handler of the socket's ['close'] event. *)
Definition onClose (c : PBClient) : PBClient :=
  set_socket false (set_connecting false c).

(** ** The status pipeline *)

Lemma step_statusReply (ids : CommandIds) (st : PBClient) (data : Buffer.t)
    (stateInt : Z) :
  frameCommand (domain st) data = Some (GetSeqTransportMode ids) ->
  (23 <= length data)%nat ->
  Buffer.readInt32BE data 19 = Some stateInt ->
  step ids (Data data) st =
  match currentStatusRequestId st with
  | Some cur =>
      let st1 := withSequenceState cur (transportOfInt stateInt)
                   (set_statusRequestPending false st) in
      (advanceStatusQueue st1,
       OnSequenceTransport cur (transportOfInt stateInt)
         :: statusRequestOut ids st1)
  | None =>
      (set_statusRequestPending false st, [OnTransport (transportOfInt stateInt)])
  end.
Proof.
  intros Hframe Hlen Hread. unfold step, handle.
  rewrite handleData_eq, Hframe. unfold try_catch, dispatch.
  rewrite Z.eqb_refl, onGetSeqTransportMode_eq, Hread.
  apply Nat.leb_le in Hlen. rewrite Hlen. cbv zeta.
  destruct (currentStatusRequestId st); reflexivity.
Qed.



(** Socket writes, as opposed to handler calls and rejections. *)
Definition isWrite (o : Output) : bool :=
  match o with Write _ => true | _ => false end.

Definition writes (out : list Output) : list Output := List.filter isWrite out.

Definition statusRequest (ids : CommandIds) (dom x : Z) : Output :=
  Write (serverFrame dom (GetSeqTransportMode ids) (int32BE x)).

Lemma statusReply_accepted (ids : CommandIds) (dom s : Z) :
  int32 dom = true -> 0 <= GetSeqTransportMode ids <= 32767 -> int32 s = true ->
  frameCommand dom (statusReply dom ids s) = Some (GetSeqTransportMode ids) /\
  (23 <= length (statusReply dom ids s))%nat /\
  Buffer.readInt32BE (statusReply dom ids s) 19 = Some s.
Proof.
  intros Hdom Hcmd Hs. unfold statusReply.
  split; [apply frameCommand_reply; assumption|].
  destruct (serverFrame_split dom (GetSeqTransportMode ids) (int32BE s))
    as (header & Hlen & ->).
  split; [rewrite length_app, Hlen; cbn; lia|].
  pose proof (readInt32BE_int32BE s header [] Hs) as H.
  rewrite app_nil_r, Hlen in H. exact H.
Qed.

(** The replies to the requests of one poll cycle, from the state in
    which the request for [cur] is outstanding. *)
Lemma poll_replies (ids : CommandIds) (queue : list Z) :
  0 <= GetSeqTransportMode ids <= 32767 ->
  forall (cur : Z) (ss : list Z) (st : PBClient),
    openClient st ->
    currentStatusRequestId st = Some cur ->
    statusRequestPending st = true ->
    statusRequestQueue st = queue ->
    length ss = S (length queue) ->
    Forall (fun x => int32 x = true) queue ->
    Forall (fun s => int32 s = true) ss ->
    let r := run ids (map (fun s => Data (statusReply (domain st) ids s)) ss) st in
    callbacks (snd r)
    = zip_with (fun id s => OnSequenceTransport id (transportOfInt s))
               (cur :: queue) ss /\
    writes (snd r) = map (statusRequest ids (domain st)) queue /\
    currentStatusRequestId (fst r) = None /\
    statusRequestPending (fst r) = false /\
    statusRequestQueue (fst r) = [] /\
    pollSequenceIds (fst r) = pollSequenceIds st.
Proof.
  intros Hcmd. induction queue as [|next queue IH];
    intros cur ss st Hopen Hcur Hpend Hq Hlen Hqueue Hss r; subst r.
  - destruct ss as [|s [|s' ss]]; try discriminate Hlen.
    apply Forall_cons in Hss. destruct Hss as [Hs _].
    destruct Hopen as (Hsock & Hconn & Hdom).
    destruct (statusReply_accepted ids (domain st) s Hdom Hcmd Hs)
      as (Hframe & Hlong & Hread).
    cbn [map run].
    rewrite (step_statusReply ids st _ s Hframe Hlong Hread), Hcur. cbv zeta.
    unfold advanceStatusQueue, withSequenceState, statusRequestOut. fields.
    destruct (sequenceConnections st !! cur); fields; rewrite Hq; fields;
      rewrite ?Hq; repeat split; reflexivity.
  - destruct ss as [|s ss]; [discriminate Hlen|].
    apply Forall_cons in Hss. destruct Hss as [Hs Hss].
    apply Forall_cons in Hqueue. destruct Hqueue as [Hnext Hqueue].
    pose proof Hopen as (Hsock & Hconn & Hdom).
    destruct (statusReply_accepted ids (domain st) s Hdom Hcmd Hs)
      as (Hframe & Hlong & Hread).
    cbn [map run].
    rewrite (step_statusReply ids st _ s Hframe Hlong Hread), Hcur. cbv zeta.
    set (st1 := withSequenceState cur (transportOfInt s)
                  (set_statusRequestPending false st)).
    assert (Hst1 : statusRequestQueue st1 = next :: queue
                   /\ statusRequestPending st1 = false
                   /\ socket st1 = true /\ connecting st1 = false
                   /\ domain st1 = domain st
                   /\ pollSequenceIds st1 = pollSequenceIds st).
    { unfold st1, withSequenceState. fields.
      destruct (sequenceConnections st !! cur); fields;
        repeat split; first [assumption | reflexivity]. }
    destruct Hst1 as (Hq1 & Hp1 & Hs1 & Hc1 & Hd1 & Hw1).
    assert (Hout : statusRequestOut ids st1 = [statusRequest ids (domain st) next]).
    { unfold statusRequestOut. rewrite Hp1, Hq1.
      rewrite requestOutput_open; [| repeat split; congruence | lia].
      rewrite Hnext, Hd1. reflexivity. }
    rewrite Hout.
    set (st2 := advanceStatusQueue st1).
    assert (Hst2 : currentStatusRequestId st2 = Some next
                   /\ statusRequestPending st2 = true
                   /\ statusRequestQueue st2 = queue
                   /\ openClient st2 /\ domain st2 = domain st
                   /\ pollSequenceIds st2 = pollSequenceIds st).
    { unfold st2, advanceStatusQueue, openClient. rewrite Hp1, Hq1. fields.
      rewrite Hs1, Hc1, Hd1, Hw1. auto 10. }
    destruct Hst2 as (Hcur2 & Hp2 & Hq2 & Hopen2 & Hd2 & Hw2).
    assert (Hlen2 : length ss = S (length queue)) by (cbn in Hlen; lia).
    specialize (IH next ss st2 Hopen2 Hcur2 Hp2 Hq2 Hlen2 Hqueue Hss).
    cbv zeta in IH. rewrite Hd2 in IH.
    destruct (run ids (map (fun s0 => Data (statusReply (domain st) ids s0)) ss) st2)
      as [st3 o3].
    cbn [fst snd] in *.
    destruct IH as (Hcb & Hwr & Hc3 & Hp3 & Hq3 & Hw3).
    unfold callbacks, writes in *.
    cbn [List.filter isCallback isWrite statusRequest app zip_with map].
    rewrite Hcb, Hwr. repeat split; try assumption. congruence.
Qed.

(** (X9) One poll cycle: on an idle, connected client that watches
    [x :: rest], a timer tick followed by one status reply per watched
    sequence writes one status request per sequence, in the order of
    the watch set, tells the consumer the state of each sequence in
    that order, and leaves the pipeline idle again for the next tick,
    the watch set unchanged. *)
Theorem poll_cycle_visits_watch_set (ids : CommandIds) (st : PBClient)
    (x : Z) (rest ss : list Z) :
  0 <= GetSeqTransportMode ids <= 32767 ->
  openClient st ->
  statusRequestQueue st = [] ->
  statusRequestPending st = false ->
  pollSequenceIds st = x :: rest ->
  Forall (fun id => int32 id = true) (x :: rest) ->
  length ss = length (x :: rest) ->
  Forall (fun s => int32 s = true) ss ->
  let r := run ids
             (Tick :: map (fun s => Data (statusReply (domain st) ids s)) ss) st in
  callbacks (snd r)
  = zip_with (fun id s => OnSequenceTransport id (transportOfInt s))
             (x :: rest) ss /\
  writes (snd r) = map (statusRequest ids (domain st)) (x :: rest) /\
  currentStatusRequestId (fst r) = None /\
  statusRequestPending (fst r) = false /\
  statusRequestQueue (fst r) = [] /\
  pollSequenceIds (fst r) = x :: rest.
Proof.
  intros Hcmd Hopen Hq Hpend Hpoll Hids Hlen Hss r. subst r.
  apply Forall_cons in Hids. destruct Hids as [Hx Hrest].
  pose proof Hopen as (Hsock & Hconn & Hdom).
  set (st1 := set_statusRequestQueue (x :: rest) st).
  set (st2 := advanceStatusQueue st1).
  assert (Htick : step ids Tick st = (st2, [statusRequest ids (domain st) x])).
  { unfold step, handle. rewrite statusPollTick_eq.
    rewrite Hq, Hpoll. cbn [length Nat.eqb Nat.ltb Nat.leb andb]. cbv zeta.
    fold st1. fold st2. f_equal.
    unfold statusRequestOut, st1. fields. rewrite Hpend.
    rewrite requestOutput_open; [| repeat split; assumption | lia].
    rewrite Hx. reflexivity. }
  assert (Hst2 : currentStatusRequestId st2 = Some x
                 /\ statusRequestPending st2 = true
                 /\ statusRequestQueue st2 = rest
                 /\ openClient st2 /\ domain st2 = domain st
                 /\ pollSequenceIds st2 = x :: rest).
  { unfold st2, st1, advanceStatusQueue, openClient. fields. rewrite Hpend.
    fields. rewrite Hsock, Hconn, Hdom, Hpoll. auto 10. }
  destruct Hst2 as (Hcur2 & Hp2 & Hq2 & Hopen2 & Hd2 & Hw2).
  pose proof (poll_replies ids rest Hcmd x ss st2 Hopen2 Hcur2 Hp2 Hq2
                Hlen Hrest Hss) as H.
  cbv zeta in H. rewrite Hd2 in H.
  cbn [run]. rewrite Htick.
  destruct (run ids (map (fun s0 => Data (statusReply (domain st) ids s0)) ss) st2)
    as [st3 o3].
  cbn [fst snd] in *.
  destruct H as (Hcb & Hwr & Hc3 & Hp3 & Hq3 & Hw3).
  unfold callbacks, writes in *.
  cbn [List.filter isCallback isWrite statusRequest app map].
  rewrite Hcb, Hwr. repeat split; try assumption. congruence.
Qed.

Lemma poll_cycle_visits_watch_set_witness :
  callbacks (snd (run sampleIds
                    [Tick; Data (statusReply 0 sampleIds 1);
                     Data (statusReply 0 sampleIds 3)]
                    (set_pollSequenceIds [7; 9] (connected 0))))
  = [OnSequenceTransport 7 Play; OnSequenceTransport 9 Pause].
Proof.
  apply (poll_cycle_visits_watch_set sampleIds
           (set_pollSequenceIds [7; 9] (connected 0)) 7 [9] [1; 3]);
    try reflexivity.
  - cbn. lia.
  - repeat split.
  - repeat constructor.
  - repeat constructor.
Defined.

(** ** What the data handler of the control connection never does *)

Lemma readInt32BE_None (data : Buffer.t) (off : nat) :
  Buffer.readInt32BE data off = None -> (length data < off + 4)%nat.
Proof.
  intros H. destruct (le_lt_dec (off + 4) (length data)) as [Hle|Hlt]; [|exact Hlt].
  destruct (readInt32BE_is_Some data off Hle) as [v Hv]. congruence.
Qed.

Lemma readInt16BE_None (data : Buffer.t) (off : nat) :
  Buffer.readInt16BE data off = None -> (length data < off + 2)%nat.
Proof.
  intros H. destruct (le_lt_dec (off + 2) (length data)) as [Hle|Hlt]; [|exact Hlt].
  destruct (readInt16BE_is_Some data off Hle) as [v Hv]. congruence.
Qed.

Lemma decodeSequenceIds_None (data : Buffer.t) :
  decodeSequenceIds (drop 19 data) = None -> (length data < 23)%nat.
Proof.
  unfold decodeSequenceIds. intros H.
  apply (readInt32BE_None data 19). rewrite readInt32BE_chunks4.
  destruct (chunks4 (drop 19 data)); [reflexivity | discriminate].
Qed.

(** Splits [handleData ids data st] into the cases of the guards and of
    the [switch], each in closed form. *)
Ltac handle_cases ids data st :=
  let c := fresh "cmdId" in
  let Hfc := fresh "Hframe" in
  rewrite !handleData_eq;
  destruct (frameCommand (domain st) data) as [c|] eqn:Hfc;
  [ unfold try_catch, dispatch;
    destruct (Z.eqb_spec c (GetSeqTransportMode ids));
    [ rewrite !onGetSeqTransportMode_eq
    | destruct (Z.eqb_spec c (GetRemainingTimeUntilNextCue ids));
      [ unfold onGetRemainingTimeUntilNextCue, bind, orThrow, emit, ret, throw
      | destruct (Z.eqb_spec c (GetSequenceIds ids));
        [ rewrite !onGetSequenceIds_eq
        | destruct (Z.eqb_spec c (GetSequenceName ids));
          [ rewrite !onGetSequenceName_eq
          | destruct ((c =? 65535) || (c =? -1)) eqn:?;
            [ rewrite !onErrorReply_eq | unfold ret ] ] ] ] ]
  | idtac ];
  cbv zeta.

Lemma elem_of_OnError_requestOutput (st : PBClient) (commandId x : Z) :
  OnError ∉ requestOutput st commandId x.
Proof.
  unfold requestOutput. repeat case_match; intros Hin;
    repeat (apply elem_of_cons in Hin; destruct Hin as [Hin|Hin]; [discriminate|]);
    inversion Hin.
Qed.

Lemma elem_of_OnError_statusRequestOut (ids : CommandIds) (st : PBClient) :
  OnError ∉ statusRequestOut ids st.
Proof.
  unfold statusRequestOut. repeat case_match;
    first [apply elem_of_OnError_requestOutput | intros Hin; inversion Hin].
Qed.

Lemma elem_of_OnError_nameRequestOut (ids : CommandIds) (st : PBClient) :
  OnError ∉ nameRequestOut ids st.
Proof.
  unfold nameRequestOut. repeat case_match;
    first [apply elem_of_OnError_requestOutput | intros Hin; inversion Hin].
Qed.

Definition calm (out : list Output) : Prop := OnError ∉ out.

Lemma calm_nil : calm [].
Proof. intros H. inversion H. Qed.

Lemma calm_cons (o : Output) (out : list Output) :
  o <> OnError -> calm out -> calm (o :: out).
Proof.
  intros Ho H Hin. apply elem_of_cons in Hin.
  destruct Hin as [Heq|Hin]; [congruence | exact (H Hin)].
Qed.

Lemma calm_app (o1 o2 : list Output) : calm o1 -> calm o2 -> calm (o1 ++ o2).
Proof.
  intros H1 H2 Hin. apply elem_of_app in Hin. destruct Hin; [apply H1 | apply H2]; assumption.
Qed.

Ltac solve_calm :=
  repeat first
    [ apply calm_nil | apply calm_cons; [discriminate|] | apply calm_app
    | apply elem_of_OnError_statusRequestOut
    | apply elem_of_OnError_nameRequestOut ].

(** (X10) [handleData] never throws: whatever the buffer, it returns
    normally. When it reports an error to [onError], a read of a
    truncated payload has thrown before anything was changed: the state
    is exactly as before, [onError] is the only output, and the buffer
    has between 19 and 34 bytes. *)
Theorem handleData_error_leaves_state (ids : CommandIds) (data : Buffer.t)
    (st : PBClient) :
  (exists st' out, handleData ids data st = (Ok tt, st', out)) /\
  (OnError ∈ snd (handleData ids data st) ->
   handleData ids data st = (Ok tt, st, [OnError]) /\
   (19 <= length data < 35)%nat).
Proof.
  split.
  - handle_cases ids data st; unfold emit;
      repeat case_match; simplify_eq;
      rewrite ?void_processSequenceNameQueue_eq in *; simplify_eq; eauto.
  - assert (Hlen : forall c, frameCommand (domain st) data = Some c ->
                             (19 <= length data)%nat)
      by (intros c Hc; apply (frameCommand_read _ _ _ Hc)).
    handle_cases ids data st; unfold emit;
      repeat case_match; simplify_eq;
      rewrite ?void_processSequenceNameQueue_eq in *; simplify_eq;
      cbn [snd app]; intros Hin.
    all: try (exfalso; revert Hin; change (calm ?o) with (calm o); solve [solve_calm]).
    all: specialize (Hlen _ eq_refl).
    all: repeat match goal with
           | H : Buffer.readInt32BE _ _ = None |- _ =>
               apply readInt32BE_None in H
           | H : Buffer.readInt16BE _ _ = None |- _ =>
               apply readInt16BE_None in H
           | H : decodeSequenceIds _ = None |- _ =>
               apply decodeSequenceIds_None in H
           | H : (_ <=? _)%nat = true |- _ => apply Nat.leb_le in H
           end.
    all: first [split; [reflexivity | lia] | exfalso; lia].
Qed.

Lemma handleData_error_leaves_state_witness :
  handleData sampleIds (serverFrame 0 78 [0; 0; 0]) (connected 0)
  = (Ok tt, connected 0, [OnError]).
Proof.
  apply (proj2 (handleData_error_leaves_state sampleIds
                  (serverFrame 0 78 [0; 0; 0]) (connected 0))).
  vm_compute. left.
Defined.

(** (X11) Round trip of a "remaining time until next cue" reply: a
    frame of the client's domain with that command and four big-endian
    int32 fields (whatever follows them) makes the control connection
    call [onNextCueTime] with these four values and changes nothing. *)
Theorem remaining_time_reply_roundtrip (ids : CommandIds) (st : PBClient)
    (h m s f : Z) (rest : Buffer.t) :
  int32 (domain st) = true ->
  0 <= GetRemainingTimeUntilNextCue ids <= 32767 ->
  GetRemainingTimeUntilNextCue ids <> GetSeqTransportMode ids ->
  int32 h = true -> int32 m = true -> int32 s = true -> int32 f = true ->
  handleData ids
    (serverFrame (domain st) (GetRemainingTimeUntilNextCue ids)
       (int32BE h ++ int32BE m ++ int32BE s ++ int32BE f ++ rest)) st
  = (Ok tt, st, [OnNextCueTime h m s f]).
Proof.
  intros Hdom Hcmd Hne Hh Hm Hs Hf.
  rewrite handleData_eq, frameCommand_reply by assumption.
  unfold try_catch, dispatch.
  apply Z.eqb_neq in Hne. rewrite Hne, Z.eqb_refl.
  destruct (serverFrame_split (domain st) (GetRemainingTimeUntilNextCue ids)
              (int32BE h ++ int32BE m ++ int32BE s ++ int32BE f ++ rest))
    as (header & Hlen & ->).
  destruct (read_time_payload header rest h m s f Hlen Hh Hm Hs Hf)
    as (H19 & H23 & H27 & H31).
  unfold onGetRemainingTimeUntilNextCue, bind, orThrow.
  rewrite H19, H23, H27, H31. reflexivity.
Qed.

Lemma remaining_time_reply_roundtrip_witness :
  handleData sampleIds
    (serverFrame 0 78 (int32BE 0 ++ int32BE 1 ++ int32BE 30 ++ int32BE 12 ++ []))
    (connected 0)
  = (Ok tt, connected 0, [OnNextCueTime 0 1 30 12]).
Proof.
  apply (remaining_time_reply_roundtrip sampleIds (connected 0) 0 1 30 12 []);
    try reflexivity; cbn; lia.
Defined.

(** (X12) What no event changes: a timer tick, a refresh or a received
    buffer leaves the socket, the connecting flag and the domain as
    they are, never creates or drops a timecode connection, and never
    adds to the watch set: the watch set after the step is a sublist of
    the one before, and it differs only when an error reply arrives
    while a status cursor is set. *)
Theorem step_keeps_connection (ids : CommandIds) (e : Event) (st : PBClient) :
  let st' := fst (step ids e st) in
  socket st' = socket st /\
  connecting st' = connecting st /\
  domain st' = domain st /\
  dom (sequenceConnections st') = dom (sequenceConnections st) /\
  pollSequenceIds st' `sublist_of` pollSequenceIds st /\
  (pollSequenceIds st' <> pollSequenceIds st ->
   isErrorReply (domain st) e = true /\ is_Some (currentStatusRequestId st)).
Proof.
  cbv zeta.
  step_cases ids e st; unfold emit, isErrorReply, isReply; rewrite ?Hframe;
    unfold_states; repeat case_match; simplify_eq;
    rewrite ?void_processSequenceNameQueue_eq in *; simplify_eq;
    unfold_states; repeat case_match; simplify_eq; fields.
  all: repeat match goal with
         | |- _ /\ _ => split
         end;
       try reflexivity; try (intros Hne; congruence).
  all: try (apply dom_insert_lookup_L; eauto; fail).
  all: try apply sublist_filter.
  all: try (intros _; split; [|eauto];
            repeat match goal with
              | H : (_ || _) = true |- _ => apply orb_true_iff in H; destruct H as [H|H]
              | H : (_ =? _) = true |- _ => rewrite H
              end; rewrite ?orb_true_r; reflexivity).
Qed.

Lemma step_keeps_connection_witness :
  let st := fst (step sampleIds Tick (set_pollSequenceIds [7; 9] (connected 0))) in
  pollSequenceIds (fst (step sampleIds (Data (errorReply 0)) st)) = [9] /\
  isErrorReply (domain st) (Data (errorReply 0)) = true /\
  is_Some (currentStatusRequestId st).
Proof.
  cbv zeta.
  match goal with |- pollSequenceIds (fst (step _ _ ?s)) = _ /\ _ =>
    set (st := s) end.
  destruct (step_keeps_connection sampleIds (Data (errorReply 0)) st)
    as (_ & _ & _ & _ & _ & Hchange).
  assert (Hpoll : pollSequenceIds (fst (step sampleIds (Data (errorReply 0)) st))
                  = [9]) by (vm_compute; reflexivity).
  split; [exact Hpoll|]. apply Hchange. rewrite Hpoll. discriminate.
Defined.

(** (X13) A new connection restarts the status pipeline whatever state
    it was left in: once the connect callback has run, the first timer
    tick asks for the state of the first watched sequence. In
    particular a pipeline that stalled on an error reply polls again
    after a reconnect. *)
Theorem reconnect_restarts_polling (ids : CommandIds) (st : PBClient)
    (x : Z) (rest : list Z) :
  socket st = true ->
  int32 (domain st) = true ->
  0 <= GetSeqTransportMode ids <= 65535 ->
  pollSequenceIds st = x :: rest ->
  int32 x = true ->
  let r := step ids Tick (onConnect st) in
  snd r = [statusRequest ids (domain st) x] /\
  currentStatusRequestId (fst r) = Some x /\
  statusRequestPending (fst r) = true /\
  statusRequestQueue (fst r) = rest.
Proof.
  intros Hsock Hdom Hcmd Hpoll Hx r. subst r.
  unfold step, handle. rewrite statusPollTick_eq.
  unfold onConnect. fields. rewrite Hpoll.
  cbn [length Nat.eqb Nat.ltb Nat.leb andb]. cbv zeta.
  unfold advanceStatusQueue, statusRequestOut. fields.
  rewrite requestOutput_open; [| repeat split; fields; assumption | lia].
  rewrite Hx. fields. repeat split; reflexivity.
Qed.

(** The pipeline stalled by an error reply (sequence 7 was dropped from
    the watch set) polls sequence 9 after the reconnect. *)
Lemma reconnect_restarts_polling_witness :
  let stalled :=
    fst (run sampleIds [Tick; Data (errorReply 0)]
           (set_pollSequenceIds [7; 9] (connected 0))) in
  snd (run sampleIds [Tick; Tick] stalled) = [] /\
  snd (step sampleIds Tick (onConnect stalled))
  = [Write (serverFrame 0 72 (int32BE 9))].
Proof.
  cbv zeta. split; [vm_compute; reflexivity|].
  match goal with |- snd (step _ _ (onConnect ?s)) = _ => set (st := s) end.
  apply (reconnect_restarts_polling sampleIds st 9 []); try reflexivity.
  cbn. lia.
Defined.

(** ** The completion notification *)

Lemma defaultName_nonempty (id : Z) : defaultName id <> EmptyString.
Proof. unfold defaultName. discriminate. Qed.

Lemma sequenceInfo_name (names : gmap Z string) (id : Z) :
  SequenceInfo.id (sequenceInfo names id) = id /\
  SequenceInfo.name (sequenceInfo names id) <> EmptyString /\
  (forall n, names !! id = Some n -> n <> EmptyString ->
             SequenceInfo.name (sequenceInfo names id) = n) /\
  (names !! id = None \/ names !! id = Some EmptyString ->
   SequenceInfo.name (sequenceInfo names id) = defaultName id).
Proof.
  unfold sequenceInfo. cbn [SequenceInfo.id SequenceInfo.name].
  split; [reflexivity|].
  destruct (names !! id) as [[|c n]|].
  - split; [apply defaultName_nonempty|]. split; [congruence | reflexivity].
  - split; [discriminate|]. split; [intros ? [= <-] _; reflexivity|].
    intros [H|H]; discriminate.
  - split; [apply defaultName_nonempty|]. split; [discriminate | reflexivity].
Qed.

(** The shape of a step that notifies. *)
Lemma step_notification (ids : CommandIds) (e : Event) (st : PBClient)
    (sequences : list SequenceInfo.t) :
  OnSequencesUpdated sequences ∈ snd (step ids e st) ->
  let st' := fst (step ids e st) in
  snd (step ids e st) = [OnSequencesUpdated sequences] /\
  sequences = map (sequenceInfo (pendingSequenceNames st'))
                  (pendingSequenceIds st') /\
  size (pendingSequenceNames st') = length (pendingSequenceIds st') /\
  currentSequenceNameId st' = None.
Proof.
  intros Hin. cbv zeta.
  assert (Hq : ~ quiet (snd (step ids e st))) by (intros Hq; exact (Hq _ Hin)).
  destruct (step_notifies ids e st Hq) as (data & -> & Hframe & [cur Hcur]).
  clear Hq. unfold step, handle in *. rewrite handleData_eq, Hframe in *.
  unfold try_catch, dispatch in *.
  destruct (GetSequenceName ids =? GetSeqTransportMode ids).
  { exfalso. pose proof (quiet_onGetSeqTransportMode ids data st) as Hq.
    destruct (onGetSeqTransportMode ids data st) as [[[|] st'] out];
      cbn [snd] in *; [exact (Hq _ Hin)|].
    unfold emit in Hin. cbn [snd] in Hin.
    apply elem_of_app in Hin. destruct Hin as [Hin|Hin]; [exact (Hq _ Hin)|].
    apply list_elem_of_singleton in Hin. discriminate. }
  destruct (GetSequenceName ids =? GetRemainingTimeUntilNextCue ids).
  { exfalso. pose proof (quiet_onGetRemainingTimeUntilNextCue data st) as Hq.
    destruct (onGetRemainingTimeUntilNextCue data st) as [[[|] st'] out];
      cbn [snd] in *; [exact (Hq _ Hin)|].
    unfold emit in Hin. cbn [snd] in Hin.
    apply elem_of_app in Hin. destruct Hin as [Hin|Hin]; [exact (Hq _ Hin)|].
    apply list_elem_of_singleton in Hin. discriminate. }
  destruct (GetSequenceName ids =? GetSequenceIds ids).
  { exfalso. pose proof (quiet_onGetSequenceIds ids data st) as Hq.
    destruct (onGetSequenceIds ids data st) as [[[|] st'] out];
      cbn [snd] in *; [exact (Hq _ Hin)|].
    unfold emit in Hin. cbn [snd] in Hin.
    apply elem_of_app in Hin. destruct Hin as [Hin|Hin]; [exact (Hq _ Hin)|].
    apply list_elem_of_singleton in Hin. discriminate. }
  rewrite Z.eqb_refl in *. rewrite onGetSequenceName_eq, Hcur in *.
  destruct (Buffer.readInt16BE data 19) as [strLen|].
  2:{ exfalso. unfold emit in Hin. cbn [snd app] in Hin.
      apply list_elem_of_singleton in Hin. discriminate. }
  cbv zeta in *.
  set (st1 := recordName cur _ st) in *.
  destruct (size (pendingSequenceNames st1) =? length (pendingSequenceIds st1))%nat
    eqn:Hsize.
  2:{ exfalso. cbn [snd] in Hin. exact (quiet_nameRequestOut ids st1 _ Hin). }
  cbn [fst snd] in *. apply list_elem_of_singleton in Hin.
  injection Hin as ->. apply Nat.eqb_eq in Hsize.
  repeat split; [exact Hsize].
Qed.

(** (X14) The list handed to [onSequencesUpdated]: whenever a step
    notifies, it does so once and writes nothing; the list has one
    entry per expected ID, in the order of the expected IDs
    (duplicates included); exactly as many names are recorded as there
    are expected IDs; no name request is outstanding afterwards; and
    each entry carries the recorded name when that is not empty, and
    the label "Sequence <id>" otherwise, so that no entry has an empty
    name. *)
Theorem notification_lists_expected_ids (ids : CommandIds) (e : Event)
    (st : PBClient) (sequences : list SequenceInfo.t) :
  OnSequencesUpdated sequences ∈ snd (step ids e st) ->
  let st' := fst (step ids e st) in
  snd (step ids e st) = [OnSequencesUpdated sequences] /\
  map SequenceInfo.id sequences = pendingSequenceIds st' /\
  size (pendingSequenceNames st') = length sequences /\
  currentSequenceNameId st' = None /\
  Forall (fun i =>
            SequenceInfo.name i <> EmptyString /\
            SequenceInfo.name i
            = match pendingSequenceNames st' !! SequenceInfo.id i with
              | Some (String c n) => String c n
              | _ => defaultName (SequenceInfo.id i)
              end) sequences.
Proof.
  intros Hin. cbv zeta.
  destruct (step_notification ids e st sequences Hin) as (Hout & -> & Hsize & Hcur).
  split; [exact Hout|].
  split.
  { rewrite map_map. apply map_id. }
  split; [rewrite length_map; exact Hsize|].
  split; [exact Hcur|].
  apply Forall_forall. intros i Hi.
  apply list_elem_of_fmap in Hi. destruct Hi as (id & -> & _).
  destruct (sequenceInfo_name
              (pendingSequenceNames (fst (step ids e st))) id) as (Hid & Hne & _).
  split; [exact Hne|].
  unfold sequenceInfo. cbn [SequenceInfo.id SequenceInfo.name].
  destruct (_ !! id) as [[|c n]|]; reflexivity.
Qed.

(** A discovery of the single sequence 5 whose name comes back empty:
    the consumer gets the label "Sequence 5". *)
Lemma notification_lists_expected_ids_witness :
  let st :=
    fst (run sampleIds [RefreshSequences; Data (idsReply 0 sampleIds [5])]
           (connected 0)) in
  snd (step sampleIds (Data (nameReply 0 sampleIds EmptyString)) st)
  = [OnSequencesUpdated [info 5 "Sequence 5"]].
Proof.
  cbv zeta.
  match goal with |- snd (step _ _ ?s) = _ => set (st := s) end.
  apply (notification_lists_expected_ids sampleIds
           (Data (nameReply 0 sampleIds EmptyString)) st [info 5 "Sequence 5"]).
  vm_compute. left.
Defined.

(** ** Round trips of the discovery replies *)

Lemma stringOfBytes_from_ascii (s : string) :
  stringOfBytes (Buffer.from_ascii s) = s.
Proof.
  induction s as [|c s IH]; [reflexivity|].
  cbn [Buffer.from_ascii stringOfBytes]. rewrite IH.
  unfold Buffer.fromCharCode. rewrite N2Z.id, ascii_N_embedding. reflexivity.
Qed.

Lemma readInt16BE_after_header (header payload : Buffer.t) :
  length header = 19%nat ->
  Buffer.readInt16BE (header ++ payload) 19 = Buffer.readInt16BE payload 0.
Proof.
  intros Hlen. unfold Buffer.readInt16BE.
  rewrite !lookup_app_r by lia. rewrite Hlen. reflexivity.
Qed.

(** A name reply, as the handler reads it. *)
Lemma nameReply_read (ids : CommandIds) (dom : Z) (s : string) :
  0 <= Z.of_nat (length (Buffer.from_ascii s)) <= 65535 ->
  Buffer.readInt16BE (nameReply dom ids s) 19
  = Some (if Z.of_nat (length (Buffer.from_ascii s)) <? 32768
          then Z.of_nat (length (Buffer.from_ascii s))
          else Z.of_nat (length (Buffer.from_ascii s)) - 65536) /\
  drop 21 (nameReply dom ids s) = Buffer.from_ascii s.
Proof.
  intros Hlen. unfold nameReply.
  destruct (serverFrame_split dom (GetSequenceName ids)
              (int16BE (Z.of_nat (length (Buffer.from_ascii s)))
                 ++ Buffer.from_ascii s)) as (header & Hh & ->).
  split.
  - rewrite readInt16BE_after_header by exact Hh.
    unfold Buffer.readInt16BE, int16BE. cbn [app lookup list_lookup Nat.add].
    rewrite readInt16BE_int16BE by exact Hlen. reflexivity.
  - rewrite app_assoc. apply drop_app_length'.
    rewrite length_app, Hh. reflexivity.
Qed.

(** (X15) Round trip of a name: while the name of [cur] is awaited, the
    name reply built from a string of at most 32767 characters records
    exactly that string for [cur] and touches no other recorded name.
    The length is read as a signed 16-bit number: a string of 32768 to
    65535 characters declares a negative length and is recorded as the
    empty name. *)
Theorem name_reply_roundtrip (ids : CommandIds) (st : PBClient) (cur : Z)
    (s : string) :
  replyIdsOk ids ->
  int32 (domain st) = true ->
  currentSequenceNameId st = Some cur ->
  let n := Z.of_nat (length (Buffer.from_ascii s)) in
  let st' := fst (step ids (Data (nameReply (domain st) ids s)) st) in
  (n <= 32767 -> pendingSequenceNames st' !! cur = Some s) /\
  (32768 <= n <= 65535 -> pendingSequenceNames st' !! cur = Some EmptyString) /\
  (n <= 65535 ->
   forall other, other <> cur ->
                 pendingSequenceNames st' !! other
                 = pendingSequenceNames st !! other).
Proof.
  intros Hids Hdom Hcur n st'. subst st'.
  assert (Hframe : frameCommand (domain st) (nameReply (domain st) ids s)
                   = Some (GetSequenceName ids)).
  { apply frameCommand_reply; [exact Hdom | unfold replyIdsOk in Hids; lia]. }
  assert (Hstep : n <= 65535 ->
            pendingSequenceNames
              (fst (step ids (Data (nameReply (domain st) ids s)) st))
            = <[cur := stringOfBytes
                         (take (Z.to_nat (if n <? 32768 then n else n - 65536))
                               (Buffer.from_ascii s))]>
                (pendingSequenceNames st)).
  { intros Hn.
    destruct (nameReply_read ids (domain st) s) as [Hread Hdrop];
      [fold n; lia|]. fold n in Hread.
    rewrite (step_nameReply ids st _ cur _ Hids Hframe Hcur Hread).
    cbv zeta. rewrite Hdrop.
    destruct (size _ =? length _)%nat; cbn [fst];
      unfold advanceNameQueue, recordName; fields;
      repeat case_match; fields; reflexivity. }
  split; [|split].
  - intros Hn. rewrite Hstep by lia.
    destruct (Z.ltb_spec n 32768); [|lia].
    unfold n. rewrite Nat2Z.id, firstn_all, stringOfBytes_from_ascii.
    apply lookup_insert_eq.
  - intros Hn. rewrite Hstep by lia.
    destruct (Z.ltb_spec n 32768); [lia|].
    replace (Z.to_nat (n - 65536)) with 0%nat by lia.
    apply lookup_insert_eq.
  - intros Hn other Hne. rewrite Hstep by lia.
    apply lookup_insert_ne. congruence.
Qed.

Lemma name_reply_roundtrip_witness :
  let st :=
    fst (run sampleIds [RefreshSequences; Data (idsReply 0 sampleIds [3; 7])]
           (connected 0)) in
  pendingSequenceNames
    (fst (step sampleIds (Data (nameReply 0 sampleIds "Act 1")) st)) !! 3
  = Some "Act 1"%string.
Proof.
  cbv zeta.
  match goal with |- pendingSequenceNames (fst (step _ _ ?s)) !! _ = _ =>
    set (st := s) end.
  apply (proj1 (name_reply_roundtrip sampleIds st 3 "Act 1"
                  ltac:(unfold replyIdsOk; cbn; lia) eq_refl eq_refl)).
  cbn. lia.
Defined.

Lemma littleEndian_int32LE (x : Z) :
  int32 x = true ->
  littleEndian (x mod 256, (x / 256) mod 256, (x / 65536) mod 256,
                (x / 16777216) mod 256) = x.
Proof. intros H. unfold littleEndian. apply bigEndian_int32BE. exact H. Qed.

Lemma chunks4_int32LE (l : list Z) :
  Forall (fun x => int32 x = true) l ->
  map littleEndian (chunks4 (concat (map int32LE l))) = l.
Proof.
  induction 1 as [|x l Hx _ IH]; [reflexivity|].
  cbn [map concat int32LE app chunks4].
  rewrite littleEndian_int32LE by exact Hx. rewrite IH. reflexivity.
Qed.

Lemma chunks4_length_int32LE (l : list Z) :
  length (chunks4 (concat (map int32LE l))) = length l.
Proof.
  induction l as [|x l IH]; [reflexivity|].
  cbn [map concat int32LE app chunks4 length]. rewrite IH. reflexivity.
Qed.

(** (X16) Round trip of the ID list: the "get sequence IDs" reply built
    from a list of int32 IDs (count big-endian, 4 unused bytes, IDs
    little-endian) is decoded to exactly that list: it becomes the
    expected IDs, its first element the awaited name, the others the
    name queue, and the recorded names start empty. *)
Theorem ids_reply_roundtrip (ids : CommandIds) (st : PBClient) (l : list Z) :
  replyIdsOk ids ->
  int32 (domain st) = true ->
  int32 (Z.of_nat (length l)) = true ->
  Forall (fun x => int32 x = true) l ->
  decodeSequenceIds (drop 19 (idsReply (domain st) ids l)) = Some l /\
  let st' := fst (step ids (Data (idsReply (domain st) ids l)) st) in
  pendingSequenceIds st' = l /\
  pendingSequenceNames st' = ∅ /\
  match l with
  | [] => sequenceNameQueue st' = []
  | first :: rest =>
      currentSequenceNameId st' = Some first /\ sequenceNameQueue st' = rest
  end.
Proof.
  intros Hids Hdom Hcount Hl.
  assert (Hdec : decodeSequenceIds (drop 19 (idsReply (domain st) ids l)) = Some l).
  { unfold idsReply.
    destruct (serverFrame_split (domain st) (GetSequenceIds ids)
                (int32BE (Z.of_nat (length l)) ++ int32BE 0
                   ++ concat (map int32LE l))) as (header & Hh & ->).
    rewrite drop_app_length' by (symmetry; exact Hh).
    unfold decodeSequenceIds, int32BE.
    cbn [app chunks4 drop]. f_equal.
    change (bigEndian _) with
      (Buffer.toSigned 32
         ((Z.of_nat (length l) / 16777216) mod 256 * 16777216
          + (Z.of_nat (length l) / 65536) mod 256 * 65536
          + (Z.of_nat (length l) / 256) mod 256 * 256
          + Z.of_nat (length l) mod 256)).
    rewrite (bigEndian_int32BE _ Hcount), Nat2Z.id.
    rewrite drop_0.
    rewrite firstn_all2 by (rewrite chunks4_length_int32LE; lia).
    apply chunks4_int32LE. exact Hl. }
  split; [exact Hdec|]. cbv zeta.
  rewrite (step_idsReply ids st _ l Hids); [| |exact Hdec].
  - unfold advanceNameQueue, seedNameQueue. fields.
    destruct l; fields; repeat split; reflexivity.
  - apply frameCommand_reply; [exact Hdom | unfold replyIdsOk in Hids; lia].
Qed.

Lemma ids_reply_roundtrip_witness :
  decodeSequenceIds (drop 19 (idsReply 0 sampleIds [3; -7; 2])) = Some [3; -7; 2].
Proof.
  apply (ids_reply_roundtrip sampleIds (connected 0) [3; -7; 2]).
  - unfold replyIdsOk. cbn. lia.
  - reflexivity.
  - reflexivity.
  - repeat constructor.
Defined.

(** ** A client without its socket *)

Definition silent (out : list Output) : Prop := writes out = [].

Lemma silent_nil : silent [].
Proof. reflexivity. Qed.

Lemma silent_cons (o : Output) (out : list Output) :
  isWrite o = false -> silent out -> silent (o :: out).
Proof. unfold silent, writes. cbn [List.filter]. intros -> H. exact H. Qed.

Lemma silent_app (o1 o2 : list Output) :
  silent o1 -> silent o2 -> silent (o1 ++ o2).
Proof.
  unfold silent, writes. intros H1 H2.
  rewrite List.filter_app, H1, H2. reflexivity.
Qed.

Lemma silent_requestOutput (st : PBClient) (commandId x : Z) :
  socket st = false -> silent (requestOutput st commandId x).
Proof.
  intros Hs. unfold requestOutput. rewrite Hs. cbn [negb orb].
  destruct (int32 x); reflexivity.
Qed.

Lemma silent_statusRequestOut (ids : CommandIds) (st : PBClient) :
  socket st = false -> silent (statusRequestOut ids st).
Proof.
  intros Hs. unfold statusRequestOut. repeat case_match;
    first [apply silent_requestOutput; exact Hs | reflexivity].
Qed.

Lemma silent_nameRequestOut (ids : CommandIds) (st : PBClient) :
  socket st = false -> silent (nameRequestOut ids st).
Proof.
  intros Hs. unfold nameRequestOut. repeat case_match;
    first [apply silent_requestOutput; exact Hs | reflexivity].
Qed.

Ltac solve_silent :=
  repeat first
    [ apply silent_nil | apply silent_cons; [reflexivity|] | apply silent_app
    | apply silent_statusRequestOut; fields; assumption
    | apply silent_nameRequestOut; fields; assumption
    | apply silent_requestOutput; fields; assumption ].

Lemma step_closed (ids : CommandIds) (e : Event) (st : PBClient) :
  socket st = false ->
  socket (fst (step ids e st)) = false /\ silent (snd (step ids e st)).
Proof.
  intros Hs.
  step_cases ids e st; unfold emit; rewrite ?Hs; cbn [negb orb];
    unfold_states; repeat case_match; simplify_eq;
    rewrite ?void_processSequenceNameQueue_eq in *; simplify_eq;
    unfold_states; repeat case_match; simplify_eq; fields.
  all: try (rewrite Hs in *; discriminate).
  all: split; [assumption || reflexivity | cbn [snd app]; solve_silent].
Qed.

Lemma run_closed (ids : CommandIds) (es : list Event) (st : PBClient) :
  socket st = false ->
  socket (fst (run ids es st)) = false /\ silent (snd (run ids es st)).
Proof.
  revert st. induction es as [|e es IH]; intros st Hs.
  - split; [exact Hs | reflexivity].
  - cbn [run].
    destruct (step_closed ids e st Hs) as [Hs1 Hq1].
    destruct (step ids e st) as [st1 o1]. cbn [fst snd] in Hs1, Hq1.
    destruct (IH st1 Hs1) as [Hs2 Hq2].
    destruct (run ids es st1) as [st2 o2]. cbn [fst snd] in *.
    split; [exact Hs2 | apply silent_app; assumption].
Qed.

(** (X17) No handler opens the socket or writes without it: after
    [disconnect()], and likewise after the socket's ['close'] event,
    whatever timer ticks, refresh requests and buffers follow, nothing
    is written and the socket stays absent. *)
Theorem closed_client_never_writes (ids : CommandIds) (es : list Event)
    (st : PBClient) :
  (socket (fst (run ids es (disconnect st))) = false /\
   writes (snd (run ids es (disconnect st))) = []) /\
  (socket (fst (run ids es (onClose st))) = false /\
   writes (snd (run ids es (onClose st))) = []).
Proof.
  split; apply run_closed; reflexivity.
Qed.

(** ** The command operations on an open connection *)

Definition commandCode (ids : CommandIds) (op : Command) : Z :=
  match op with
  | setTransport _ _ => SetSeqTransportMode ids
  | selectSequence _ => SetSeqSelection ids
  | gotoCue _ _ => MoveSeqToCue ids
  | nextOrLastCue _ _ => MoveSeqToLastNextCue ids
  | ignoreNextCue _ _ => IgnoreNextCue ids
  | applyView _ => ApplyView ids
  | saveProject => SaveProject ids
  | toggleFullscreen _ => ToggleFullscreen ids
  | setSiteIp _ _ => SetSiteIp ids
  | clearAllActive => ClearAllActive ids
  | storeActive _ => StoreActive ids
  | storeActiveToBeginning _ => StoreActiveToBeginning ids
  | resetAll => ResetAll ids
  | setSequenceSmpteMode _ _ => SetSeqSmpteMode ids
  end.

(** The bytes after the command identifier: every integer big-endian
    on 4 bytes, the sequence first where there is one; a flag on one
    byte; the address of a site as a 2-byte length and its characters. *)
Definition commandPayload (op : Command) : Buffer.t :=
  match op with
  | setTransport mode sequenceId => int32BE sequenceId ++ int32BE mode
  | gotoCue sequenceId cueId => int32BE sequenceId ++ int32BE cueId
  | setSequenceSmpteMode sequenceId mode => int32BE sequenceId ++ int32BE mode
  | selectSequence a | applyView a | toggleFullscreen a | storeActive a
  | storeActiveToBeginning a => int32BE a
  | nextOrLastCue sequenceId b | ignoreNextCue sequenceId b =>
      int32BE sequenceId ++ [if b then 1 else 0]
  | setSiteIp siteId ip =>
      int32BE siteId ++ int16BE (Z.of_nat (length (Buffer.from_ascii ip)))
        ++ Buffer.from_ascii ip
  | saveProject | clearAllActive | resetAll => []
  end.

(** (X18) On an open connection every command operation either writes
    exactly one frame, with the identifier of the operation and its
    arguments in the order of the wire format, or, when an argument
    does not fit its field, throws before anything is written. The
    client itself is never changed. *)
Theorem command_writes_one_frame (ids : CommandIds) (op : Command)
    (st : PBClient) :
  openClient st ->
  0 <= commandCode ids op <= 65535 ->
  command ids op st =
  if command_args_ok op
  then (Ok tt, st,
        [Write (serverFrame (domain st) (commandCode ids op) (commandPayload op))])
  else (Throw, st, []).
Proof.
  intros (Hs & Hc & Hd) Hcmd.
  assert (Hlen : forall ip : string,
             (0 <=? Z.of_nat (length (Buffer.from_ascii ip))) = true)
    by (intros ip; apply Z.leb_le; lia).
  destruct op; cbn [command command_args_ok commandCode commandPayload] in *;
    unfold bind;
    repeat (first [ rewrite writeInt_eq
                  | rewrite writeShort_eq, Hlen
                  | match goal with
                    | |- context [int32 ?a] => destruct (int32 a)
                    | |- context [?a <=? 65535] => destruct (Z.leb_spec a 65535)
                    end ];
            cbn [andb]; cbv beta iota);
    try reflexivity.
  all: rewrite send_eq, Hs, Hc; cbn [negb orb];
    rewrite encode_serverFrame by assumption;
    cbn [concat flag Buffer.from map]; rewrite ?app_nil_r; try reflexivity.
  all: cbn [app].
  - destruct isNext; reflexivity.
  - destruct doIgnore; reflexivity.
  - unfold int16BE. rewrite (Z.mod_small (_ / 256) 256); [reflexivity|].
    split; [apply Z.div_pos; lia | apply Z.div_lt_upper_bound; lia].
Qed.

Lemma command_writes_one_frame_witness :
  command sampleIds (gotoCue 3 12) (connected 0)
  = (Ok tt, connected 0,
     [Write (serverFrame 0 (MoveSeqToCue sampleIds) (int32BE 3 ++ int32BE 12))]).
Proof.
  apply (command_writes_one_frame sampleIds (gotoCue 3 12) (connected 0)).
  - repeat split.
  - cbn. lia.
Defined.

(** * The variables of the module ([variables.ts])

    The consumer of the discovery: from the list of [SequenceInfo]s it
    builds the variable definitions and, as JavaScript objects, their
    values. An object is an association list in insertion order; an
    assignment to a key that is present replaces its value in place.
    A template literal [${n}] prints the integer [n] in decimal. *)

Module Variables.

Record CompanionVariableDefinition := { variableId : string; name : string }.

Definition CompanionVariableValues := list (string * string).

(** [values[k] = v] *)
Fixpoint assign (k v : string) (values : CompanionVariableValues) :
    CompanionVariableValues :=
  match values with
  | [] => [(k, v)]
  | (k', v') :: rest =>
      if String.eqb k' k then (k, v) :: rest else (k', v') :: assign k v rest
  end.

(** [values[k]] *)
Fixpoint valueOf (k : string) (values : CompanionVariableValues) : option string :=
  match values with
  | [] => None
  | (k', v') :: rest => if String.eqb k' k then Some v' else valueOf k rest
  end.

Definition numberToString (n : Z) : string :=
  NilZero.string_of_int (Z.to_int n).

Fixpoint repeatString (k : nat) (pad : string) : string :=
  match k with
  | O => EmptyString
  | S k' => (pad ++ repeatString k' pad)%string
  end.

(** [s.padStart(target, pad)] *)
Definition padStart (target : nat) (pad s : string) : string :=
  let len := String.length s in
  if (target <=? len)%nat || (String.length pad =? 0)%nat then s
  else (substring 0 (target - len) (repeatString (target - len) pad) ++ s)%string.


Record SequenceTime := { h : Z; m : Z; s : Z; f : Z }.

Definition GetVariableDefinitions : list CompanionVariableDefinition := [].


Definition GetSequenceVariableValues (sequences : list SequenceInfo.t) :
    CompanionVariableValues :=
  fold_left
    (fun values seq =>
       assign ("sequence_" ++ numberToString (SequenceInfo.id seq))%string
              (SequenceInfo.name seq) values)
    sequences [].





Definition formatTime (time : SequenceTime) : string :=
  let hh := padStart 2 "0" (numberToString (h time)) in
  let mm := padStart 2 "0" (numberToString (m time)) in
  let ss := padStart 2 "0" (numberToString (s time)) in
  let ff := padStart 2 "0" (numberToString (f time)) in
  (hh ++ ":" ++ mm ++ ":" ++ ss ++ ":" ++ ff)%string.



(** The entry of a list of sequences that decides the variables of [i]:
    the last one with this ID. *)
Definition lastWithId (i : Z) (sequences : list SequenceInfo.t) :
    option SequenceInfo.t :=
  last (filter (fun seq => SequenceInfo.id seq = i) sequences).

(** Two decimal digits. *)
Definition digit (n : Z) : ascii := ascii_of_N (48 + Z.to_N n).

Definition twoDigits (n : Z) : string :=
  String (digit (n / 10)) (String (digit (n mod 10)) EmptyString).

Lemma valueOf_assign (k k' v : string) (values : CompanionVariableValues) :
  valueOf k' (assign k v values)
  = if String.eqb k k' then Some v else valueOf k' values.
Proof.
  induction values as [|[k0 v0] rest IH]; cbn [assign valueOf].
  - reflexivity.
  - destruct (String.eqb_spec k0 k) as [->|Hne]; cbn [valueOf].
    + destruct (String.eqb k k'); reflexivity.
    + rewrite IH. destruct (String.eqb_spec k0 k') as [->|Hne'].
      * destruct (String.eqb_spec k k'); [congruence | reflexivity].
      * reflexivity.
Qed.

Section Fold.

Variable key : Z -> string.
Variable val : SequenceInfo.t -> string.

Definition collect (sequences : list SequenceInfo.t) : CompanionVariableValues :=
  fold_left (fun values seq => assign (key (SequenceInfo.id seq)) (val seq) values)
            sequences [].

Lemma collect_snoc (sequences : list SequenceInfo.t) (seq : SequenceInfo.t) :
  collect (sequences ++ [seq])
  = assign (key (SequenceInfo.id seq)) (val seq) (collect sequences).
Proof. unfold collect. rewrite fold_left_app. reflexivity. Qed.


Hypothesis key_inj : forall a b, key a = key b -> a = b.

Lemma valueOf_collect (sequences : list SequenceInfo.t) (i : Z) :
  valueOf (key i) (collect sequences) = val <$> lastWithId i sequences.
Proof.
  unfold lastWithId.
  induction sequences as [|seq sequences IH] using rev_ind; [reflexivity|].
  rewrite collect_snoc, valueOf_assign, filter_app, last_app.
  rewrite filter_cons, filter_nil.
  destruct (String.eqb_spec (key (SequenceInfo.id seq)) (key i)) as [Heq|Hne].
  - apply key_inj in Heq. rewrite decide_True by exact Heq. reflexivity.
  - rewrite decide_False by congruence. cbn [last]. exact IH.
Qed.

End Fold.

Lemma numberToString_inj (a b : Z) :
  numberToString a = numberToString b -> a = b.
Proof.
  assert (Hnil : forall n, Z.to_int n <> Decimal.Pos Decimal.Nil /\
                           Z.to_int n <> Decimal.Neg Decimal.Nil).
  { intros [|p|p]; cbn; split; try discriminate;
      intros [= E]; exact (DecimalPos.Unsigned.to_uint_nonnil _ E). }
  unfold numberToString. intros H.
  apply (f_equal NilZero.int_of_string) in H.
  rewrite !NilZero.isi in H by apply Hnil.
  injection H as H. apply DecimalZ.to_int_inj. exact H.
Qed.

Lemma length_append (x y : string) :
  String.length (x ++ y) = (String.length x + String.length y)%nat.
Proof.
  induction x as [|c x IH]; [reflexivity|].
  change (S (String.length (x ++ y)) = S (String.length x + String.length y)).
  rewrite IH. reflexivity.
Qed.

Lemma append_inj_r (x y suffix : string) :
  (x ++ suffix = y ++ suffix)%string -> x = y.
Proof.
  intros H.
  assert (Hlen : String.length x = String.length y).
  { apply (f_equal String.length) in H. rewrite !length_append in H. lia. }
  revert y H Hlen. induction x as [|c x IH]; intros [|d y] H Hlen;
    try discriminate; [reflexivity|].
  change (String c (x ++ suffix) = String d (y ++ suffix))%string in H.
  change (S (String.length x) = S (String.length y)) in Hlen.
  injection H as -> H. f_equal. apply IH; [exact H | lia].
Qed.

Lemma variable_key_inj (suffix : string) (a b : Z) :
  ("sequence_" ++ numberToString a ++ suffix
   = "sequence_" ++ numberToString b ++ suffix)%string -> a = b.
Proof.
  intros H. apply numberToString_inj, (append_inj_r _ _ suffix).
  change ("sequence_" ++ ?x)%string
    with (String "s" (String "e" (String "q" (String "u" (String "e"
           (String "n" (String "c" (String "e" (String "_" x))))))))) in H.
  congruence.
Qed.

Lemma lastWithId_map (g : Z -> SequenceInfo.t) (l : list Z) (i : Z) :
  (forall x, SequenceInfo.id (g x) = x) ->
  lastWithId i (map g l) = if decide (i ∈ l) then Some (g i) else None.
Proof.
  intros Hg. unfold lastWithId.
  induction l as [|x l IH] using rev_ind.
  - cbn. rewrite decide_False by (intros H; inversion H). reflexivity.
  - rewrite map_app, filter_app, last_app. cbn [map].
    rewrite filter_cons, filter_nil, Hg.
    destruct (decide (x = i)) as [->|Hne].
    + cbn [last]. rewrite decide_True by (apply elem_of_app; right; left).
      reflexivity.
    + cbn [last]. rewrite IH.
      destruct (decide (i ∈ l)) as [Hin|Hnin].
      * rewrite decide_True by (apply elem_of_app; left; exact Hin). reflexivity.
      * rewrite decide_False; [reflexivity|].
        intros Hin. apply elem_of_app in Hin. destruct Hin as [Hin|Hin];
          [exact (Hnin Hin)|].
        apply list_elem_of_singleton in Hin. congruence.
Qed.

Lemma pad_twoDigits (n : Z) :
  0 <= n <= 99 -> padStart 2 "0" (numberToString n) = twoDigits n.
Proof.
  intros Hn.
  assert (Hnat : n = Z.of_nat (Z.to_nat n)) by lia.
  assert (Hlt : (Z.to_nat n < 100)%nat) by lia.
  rewrite Hnat. generalize dependent (Z.to_nat n). clear Hn. intros k _ Hlt.
  do 100 (destruct k as [|k]; [vm_compute; reflexivity|]).
  lia.
Qed.

End Variables.



(** (X21) The time of a sequence whose four fields are between 0 and 99
    is shown as four two-digit groups separated by colons, 11
    characters in all. *)
Theorem formatTime_two_digit_groups (time : Variables.SequenceTime) :
  0 <= Variables.h time <= 99 ->
  0 <= Variables.m time <= 99 ->
  0 <= Variables.s time <= 99 ->
  0 <= Variables.f time <= 99 ->
  Variables.formatTime time
  = (Variables.twoDigits (Variables.h time) ++ ":"
     ++ Variables.twoDigits (Variables.m time) ++ ":"
     ++ Variables.twoDigits (Variables.s time) ++ ":"
     ++ Variables.twoDigits (Variables.f time))%string /\
  String.length (Variables.formatTime time) = 11%nat.
Proof.
  intros Hh Hm Hs Hf. unfold Variables.formatTime. cbv zeta.
  rewrite !Variables.pad_twoDigits by assumption.
  split; reflexivity.
Qed.

Lemma formatTime_two_digit_groups_witness :
  Variables.formatTime {| Variables.h := 1; Variables.m := 2;
                          Variables.s := 30; Variables.f := 4 |}
  = "01:02:30:04"%string.
Proof.
  apply (proj1 (formatTime_two_digit_groups
                  {| Variables.h := 1; Variables.m := 2;
                     Variables.s := 30; Variables.f := 4 |}
                  ltac:(cbn; lia) ltac:(cbn; lia) ltac:(cbn; lia)
                  ltac:(cbn; lia))).
Defined.

(** (X22) From discovery to the variables: when a step notifies, the
    name variables built from the notified list give every expected ID
    its recorded name, or the label "Sequence <id>" when the recorded
    name is empty, and give no variable to any other ID. *)
Theorem discovered_names_become_variables (ids : CommandIds) (e : Event)
    (st : PBClient) (sequences : list SequenceInfo.t) (i : Z) :
  OnSequencesUpdated sequences ∈ snd (step ids e st) ->
  let st' := fst (step ids e st) in
  let value :=
    Variables.valueOf ("sequence_" ++ Variables.numberToString i)%string
                  (Variables.GetSequenceVariableValues sequences) in
  (i ∈ pendingSequenceIds st' ->
   value = Some match pendingSequenceNames st' !! i with
                | Some (String c n) => String c n
                | _ => ("Sequence " ++ Variables.numberToString i)%string
                end) /\
  (i ∉ pendingSequenceIds st' -> value = None).
Proof.
  intros Hin. cbv zeta.
  destruct (step_notification ids e st sequences Hin) as (_ & -> & _ & _).
  assert (Hget :
    Variables.valueOf ("sequence_" ++ Variables.numberToString i)%string
      (Variables.GetSequenceVariableValues
         (map (sequenceInfo (pendingSequenceNames (fst (step ids e st))))
              (pendingSequenceIds (fst (step ids e st)))))
    = SequenceInfo.name <$>
        Variables.lastWithId i
          (map (sequenceInfo (pendingSequenceNames (fst (step ids e st))))
               (pendingSequenceIds (fst (step ids e st))))).
  { apply (Variables.valueOf_collect
             (fun i => "sequence_" ++ Variables.numberToString i)%string
             SequenceInfo.name).
    intros a b H. apply (Variables.variable_key_inj EmptyString).
    rewrite !string_app_nil_r. exact H. }
  rewrite Hget, Variables.lastWithId_map by reflexivity.
  split; intros Hi.
  - rewrite decide_True by exact Hi. cbn. f_equal.
    destruct (_ !! i) as [[|c n]|]; reflexivity.
  - rewrite decide_False by exact Hi. reflexivity.
Qed.

(** The discovery of sequence 5, whose name comes back empty, gives the
    variable [sequence_5] the value "Sequence 5". *)
Lemma discovered_names_become_variables_witness :
  Variables.valueOf "sequence_5"
    (Variables.GetSequenceVariableValues [info 5 "Sequence 5"])
  = Some "Sequence 5"%string.
Proof.
  pose (st := fst (run sampleIds
                     [RefreshSequences; Data (idsReply 0 sampleIds [5])]
                     (connected 0))).
  assert (Hin : OnSequencesUpdated [info 5 "Sequence 5"]
                ∈ snd (step sampleIds (Data (nameReply 0 sampleIds EmptyString)) st))
    by (vm_compute; left).
  assert (Hi : 5 ∈ pendingSequenceIds
                 (fst (step sampleIds (Data (nameReply 0 sampleIds EmptyString)) st)))
    by (vm_compute; left).
  exact (proj1 (discovered_names_become_variables sampleIds _ st _ 5 Hin) Hi).
Defined.

